(** * Pandana: network accessibility queries

    A shallow embedding of [pandana/pandana.py], the Python front end of the
    accessibility engine, together with a model of the parts of the compiled
    extension [_pyaccess] that the properties below depend on.

    Conventions of the embedding:
    - a Python [int] is a [Z]; a [float] is a [Z] or NaN, written [option Z]
      with [None] for NaN; [int32] and [astype_float32] are numpy's casts
      to 32 bits;
    - a pandas [Series] is the list of its (label, value) rows, in order;
    - a function of the module is a computation in the monad [Py], which
      threads the state it mutates and stops at the first exception raised,
      keeping every mutation made before it;
    - the extension [_pyaccess] is compiled code outside the Python source:
      the front end is embedded over an interface [PyAccess]; the range
      search and the nearest-node search it is documented to perform are
      modelled in [Module Engine];
    - [from_networkx] is embedded over the part of a networkx graph that
      it reads, in [Module Networkx];
    - [Network.plot] only draws data; it is left out. *)

From Stdlib Require Import ZArith List String Ascii Bool Lia.
From stdpp Require Import base option list strings gmap sorting.

Local Open Scope string_scope.
Local Open Scope list_scope.
Local Open Scope Z_scope.

(** ** Python values *)

Abbreviation float := (option Z) (only parsing).

Abbreviation Series A := (list (Z * A)) (only parsing).

Definition index {A : Type} (s : Series A) : list Z := map fst s.

Definition values {A : Type} (s : Series A) : list A := map snd s.

(** A frame of float columns, as the [edge_weights] argument is. *)
Record DataFrame : Type := {
  df_index : list Z;
  df_columns : list (string * list float)
}.

Definition columns (df : DataFrame) : list string := map fst (df_columns df).

(** A value of numpy's [float32], as a cast from [float] gives it: NaN, an
    integer with at most 24 significant bits, or an infinity. *)
Inductive float32 : Type :=
| Finite32 (v : Z)
| NaN32
| Infinite32 (negative : bool).

(** ** Exceptions and the monad of a Python function *)

(** The exceptions the module can raise.  [ExtensionError] stands for any
    exception raised inside [_pyaccess]; [Unmodelled] marks an input outside
    the pandas operations modelled here, it is no Python exception. *)
Inductive exn : Type :=
| AssertionError (msg : string)
| KeyError (key : string)
| NameError (name : string)
| ValueError (msg : string)
| ExtensionError (fn : string)
| Unmodelled (what : string).

Inductive outcome (A : Type) : Type :=
| Returned (a : A)
| Raised (e : exn).

Arguments Returned {A} a.
Arguments Raised {A} e.

Definition Py (S A : Type) : Type := S -> outcome A * S.

Definition ret {S A : Type} (a : A) : Py S A := fun s => (Returned a, s).

Definition bind {S A B : Type} (c : Py S A) (k : A -> Py S B) : Py S B :=
  fun s =>
    match c s with
    | (Returned a, s') => k a s'
    | (Raised e, s') => (Raised e, s')
    end.

Definition raise {S A : Type} (e : exn) : Py S A := fun s => (Raised e, s).

Definition gets {S A : Type} (f : S -> A) : Py S A :=
  fun s => (Returned (f s), s).

Definition modify {S : Type} (f : S -> S) : Py S unit :=
  fun s => (Returned tt, f s).

Definition assert_ {S : Type} (b : bool) (msg : string) : Py S unit :=
  if b then ret tt else raise (AssertionError msg).

Declare Scope py_scope.
Delimit Scope py_scope with py.

Notation "x <- c ;; k" := (bind c (fun x => k))
  (at level 100, c at next level, right associativity) : py_scope.
Notation "c ;; k" := (bind c (fun _ => k))
  (at level 100, right associativity) : py_scope.

Local Open Scope py_scope.

(** ** pandas operations used by the module *)

(** [s.reindex(labels)[label]] for a series with distinct labels: the value
    under [label], NaN when the series has no such label. *)
Definition loc {A : Type} (s : Series (option A)) (label : Z) : option A :=
  match filter (fun row : Z * option A => fst row = label) s with
  | [] => None
  | row :: _ => snd row
  end.

(** The union of two different indexes with distinct labels: in ascending
    order, unless one of the two is empty, which gives the other as it
    is. *)
Definition union_index (a b : list Z) : list Z :=
  match a, b with
  | _, [] => a
  | [], _ => b
  | _, _ => merge_sort Z.le (remove_dups (a ++ b))
  end.

(** [pd.DataFrame({a: .., b: ..})] of two series, and [pd.concat] of two
    series along the columns.  Two series with the same index are paired up
    row by row.  Two series with different indexes, each of distinct labels,
    are aligned on the union of the labels, with NaN where a series has no
    value.  The alignment of differently indexed series with repeated labels
    is not modelled. *)
Definition DataFrame2 {S A B : Type} (a : Series (option A))
  (b : Series (option B)) : Py S (Series (option A * option B)) :=
  if decide (index a = index b)
  then ret (combine (index a) (combine (values a) (values b)))
  else if bool_decide (NoDup (index a)) && bool_decide (NoDup (index b))
  then ret (map (fun label => (label, (loc a label, loc b label)))
              (union_index (index a) (index b)))
  else raise (Unmodelled "alignment of series with repeated labels").

Definition notnull2 {A B : Type} (row : Z * (option A * option B)) : bool :=
  match row with
  | (_, (Some _, Some _)) => true
  | _ => false
  end.

(** [df.dropna(how="any")] on a frame of two columns. *)
Definition dropna {A B : Type} (df : Series (option A * option B))
  : Series (option A * option B) :=
  filter (fun row => notnull2 row = true) df.

(** ** The extension module [_pyaccess] *)

Class PyAccess : Type := {
  engine : Type;
  create_graphs : Z -> engine -> option engine;
  create_graph :
    Z -> list Z -> list (float32 * float32) -> list (Z * Z) ->
    list (list float32) -> bool -> engine -> option engine;
  initialize_acc_vars : Z -> Z -> engine -> option engine;
  initialize_acc_var :
    Z -> Z -> list Z -> list float -> engine -> option engine;
  precompute_range : float -> Z -> engine -> option engine;
  get_all_aggregate_accessibility_variables :
    float -> Z -> Z -> Z -> Z -> Z -> engine -> option (list float * engine);
  xy_to_node : list (Z * Z) -> float -> Z -> engine -> option (list Z);
  initialize_pois : Z -> float -> Z -> engine -> option engine;
  initialize_category : Z -> list (float * float) -> engine -> option engine;
  find_all_nearest_pois :
    float -> Z -> engine -> option (list (list float) * engine)
}.

(** What the Python 2 [print] statements of the module write. *)
Inductive line : Type :=
| RemovedRows (n : Z)
| Elapsed (prefix : string)
| Describe (rows : nat).

Section FrontEnd.

Context `{PyAccess}.

(** ** Module-level state

    [MAX_NUM_NETWORKS] and [NUM_NETWORKS] are the two globals of the module.
    [CAT_NAME_TO_IND] is a name the module reads but never binds: the field
    holds what the name is bound to in the module's namespace, [None] when
    it is unbound, as it is after import. *)
Record module_state : Type := {
  MAX_NUM_NETWORKS : Z;
  NUM_NETWORKS : Z;
  CAT_NAME_TO_IND : option (gmap string Z);
  _pyaccess : engine;
  stdout : list line
}.

Definition on_import (e : engine) : module_state :=
  {| MAX_NUM_NETWORKS := 0; NUM_NETWORKS := 0; CAT_NAME_TO_IND := None;
     _pyaccess := e; stdout := [] |}.

Definition set_MAX_NUM_NETWORKS (v : Z) (m : module_state) : module_state :=
  {| MAX_NUM_NETWORKS := v; NUM_NETWORKS := NUM_NETWORKS m;
     CAT_NAME_TO_IND := CAT_NAME_TO_IND m; _pyaccess := _pyaccess m;
     stdout := stdout m |}.

Definition set_NUM_NETWORKS (v : Z) (m : module_state) : module_state :=
  {| MAX_NUM_NETWORKS := MAX_NUM_NETWORKS m; NUM_NETWORKS := v;
     CAT_NAME_TO_IND := CAT_NAME_TO_IND m; _pyaccess := _pyaccess m;
     stdout := stdout m |}.

Definition set_CAT_NAME_TO_IND (v : gmap string Z) (m : module_state)
  : module_state :=
  {| MAX_NUM_NETWORKS := MAX_NUM_NETWORKS m; NUM_NETWORKS := NUM_NETWORKS m;
     CAT_NAME_TO_IND := Some v; _pyaccess := _pyaccess m;
     stdout := stdout m |}.

Definition set_pyaccess (e : engine) (m : module_state) : module_state :=
  {| MAX_NUM_NETWORKS := MAX_NUM_NETWORKS m; NUM_NETWORKS := NUM_NETWORKS m;
     CAT_NAME_TO_IND := CAT_NAME_TO_IND m; _pyaccess := e;
     stdout := stdout m |}.

Definition set_stdout (v : list line) (m : module_state) : module_state :=
  {| MAX_NUM_NETWORKS := MAX_NUM_NETWORKS m; NUM_NETWORKS := NUM_NETWORKS m;
     CAT_NAME_TO_IND := CAT_NAME_TO_IND m; _pyaccess := _pyaccess m;
     stdout := v |}.

Definition print (l : line) : Py module_state unit :=
  modify (fun m => set_stdout (stdout m ++ [l]) m).

(** A call into the extension that returns nothing: the engine moves to its
    next state, or the call raises. *)
Definition call (fn : string) (f : engine -> option engine)
  : Py module_state unit :=
  fun m =>
    match f (_pyaccess m) with
    | Some e => (Returned tt, set_pyaccess e m)
    | None => (Raised (ExtensionError fn), m)
    end.

(** A call into the extension that returns a value. *)
Definition call_value {A : Type} (fn : string)
  (f : engine -> option (A * engine)) : Py module_state A :=
  fun m =>
    match f (_pyaccess m) with
    | Some (a, e) => (Returned a, set_pyaccess e m)
    | None => (Raised (ExtensionError fn), m)
    end.

(** The read of a global name: [NameError] when the name is unbound. *)
Definition global_CAT_NAME_TO_IND : Py module_state (gmap string Z) :=
  fun m =>
    match CAT_NAME_TO_IND m with
    | Some d => (Returned d, m)
    | None => (Raised (NameError "CAT_NAME_TO_IND"), m)
    end.

(** ** [reserve_num_graphs] *)

Definition reserve_num_graphs (num : Z) : Py module_state unit :=
  max <- gets MAX_NUM_NETWORKS ;;
  assert_ (max =? 0) "Global memory used so cannot initialize twice" ;;
  assert_ (0 <? num) "" ;;
  modify (set_MAX_NUM_NETWORKS num) ;;
  call "create_graphs" (create_graphs num).

End FrontEnd.

(** ** Helpers standing for Python and pandas built-ins *)

Definition len {A : Type} (l : list A) : Z := Z.of_nat (length l).

Definition arange (n : Z) : list Z := map Z.of_nat (seq 0 (Z.to_nat n)).

(** [str.upper()] on ASCII text. *)
Definition upper_ascii (c : ascii) : ascii :=
  let n := nat_of_ascii c in
  if (97 <=? n)%nat && (n <=? 122)%nat then ascii_of_nat (n - 32) else c.

Fixpoint upper (s : string) : string :=
  match s with
  | EmptyString => EmptyString
  | String c rest => String (upper_ascii c) (upper rest)
  end.

(** [name in names] on a list of strings. *)
Definition contains (name : string) (names : list string) : bool :=
  existsb (String.eqb name) names.

(** [names.index(name)]: the position of the first occurrence. *)
Fixpoint position (name : string) (names : list string) : option Z :=
  match names with
  | [] => None
  | n :: rest =>
      if String.eqb name n then Some 0
      else option_map Z.succ (position name rest)
  end.

Definition list_index {S : Type} (name : string) (names : list string)
  : Py S Z :=
  match position name names with
  | Some i => ret i
  | None => raise (ValueError "is not in list")
  end.

(** [d[key]] on a dictionary. *)
Definition getitem {S : Type} (d : gmap string Z) (key : string) : Py S Z :=
  match d !! key with
  | Some v => ret v
  | None => raise (KeyError key)
  end.

(** [key in d] on a dictionary. *)
Definition has_key (d : gmap string Z) (key : string) : bool :=
  match d !! key with
  | Some _ => true
  | None => false
  end.

(** [pd.Series(data, index=index)]: the lengths must agree. *)
Definition pd_Series {S A : Type} (data : list A) (idx : list Z)
  : Py S (Series A) :=
  if (length data =? length idx)%nat
  then ret (combine idx data)
  else raise (ValueError "Wrong number of items passed").

(** [column.astype('int32')]: NaN has no integer value. *)
Fixpoint astype_int32 {S : Type} (column : list float) : Py S (list Z) :=
  match column with
  | [] => ret []
  | Some v :: rest => vs <- astype_int32 rest ;; ret (v :: vs)
  | None :: _ => raise (ValueError "Cannot convert NA to integer")
  end.

(** The integer that 32 bits hold of [v]: numpy's cast of an [int64] to
    [int32] keeps the low 32 bits, in two's complement. *)
Definition int32 (v : Z) : Z := (v + 2 ^ 31) mod 2 ^ 32 - 2 ^ 31.

(** The integers with at most 24 significant bits nearest to [a >= 0], the
    even one of two that are as near. *)
Definition round24 (a : Z) : Z :=
  let shift := Z.log2 a - 23 in
  if shift <=? 0 then a
  else
    let q := Z.shiftr a shift in
    let r := Z.land a (Z.ones shift) in
    let half := Z.shiftl 1 (shift - 1) in
    Z.shiftl (if (half <? r) || ((r =? half) && Z.odd q) then q + 1 else q)
      shift.

(** [astype('float32')] on a value: NaN stays NaN, an integer is rounded to
    the nearest [float32], which is an infinity from [2 ^ 128] on. *)
Definition astype_float32 (x : float) : float32 :=
  match x with
  | None => NaN32
  | Some v =>
      let a := round24 (Z.abs v) in
      if 2 ^ 128 <=? a then Infinite32 (v <? 0) else Finite32 (Z.sgn v * a)
  end.

Definition AGGREGATIONS : gmap string Z :=
  <["SUM" := 0]> (<["AVE" := 1]> (<["STD" := 5]> (<["COUNT" := 6]> ∅))).

Definition DECAYS : gmap string Z :=
  <["EXP" := 0]> (<["LINEAR" := 1]> (<["FLAT" := 2]> ∅)).

(** ** [class Network] *)

(** [Network._node_indexes]: the left merge of [node_ids] with the
    id-to-index series [node_idx].  A row whose id is no label of [node_idx]
    (or is NaN) keeps its place with a missing index; a row whose id labels
    several entries is repeated once for each. *)
Definition _node_indexes (node_idx : Series Z) (node_ids : Series float)
  : Series (option Z) :=
  flat_map
    (fun row : Z * float =>
       let (label, id) := row in
       match id with
       | None => [(label, None)]
       | Some i =>
           match filter (fun entry : Z * Z => fst entry = i) node_idx with
           | [] => [(label, None)]
           | found => map (fun entry : Z * Z => (label, Some (snd entry))) found
           end
       end)
    node_ids.

Module Network.

Record t : Type := {
  graph_no : Z;
  nodes_df : Series (float * float);
  edges_df : Series (float * float) * DataFrame;
  impedance_names : list string;
  variable_names : list string;
  node_idx : Series Z
}.

(** [Network.node_ids], a property: the index of [node_idx]. *)
Definition node_ids (self : t) : list Z := index (node_idx self).

Definition set_variable_names (names : list string) (self : t) : t :=
  {| graph_no := graph_no self; nodes_df := nodes_df self;
     edges_df := edges_df self; impedance_names := impedance_names self;
     variable_names := names; node_idx := node_idx self |}.

Section Methods.

Context `{PyAccess}.

(** A method runs on the object it is called on and on the module state. *)
Definition method (A : Type) : Type := Py (t * module_state) A.

Definition getattr {A : Type} (field : t -> A) : method A :=
  gets (fun s => field (fst s)).

Definition in_module {A : Type} (c : Py module_state A) : method A :=
  fun s =>
    match c (snd s) with
    | (o, m) => (o, (fst s, m))
    end.

(** The positions of [label] in [labels], counted from [k]. *)
Fixpoint positions_from (k : nat) (label : Z) (labels : list Z) : list nat :=
  match labels with
  | [] => []
  | l :: rest =>
      if decide (l = label) then k :: positions_from (S k) label rest
      else positions_from (S k) label rest
  end.

(** [DataFrame({'from': .., 'to': ..}).join(edge_weights)], a left join on
    the index: every row of the edges, in order, once with each row of
    [edge_weights] under its label, and once with missing weights when there
    is none.  The frame is kept as its columns [from] and [to] and the frame
    of its weight columns.  The weight columns may not be called like the
    two columns they are joined to. *)
Definition join {S : Type} (edges : Series (float * float))
  (edge_weights : DataFrame) : Py S (Series (float * float) * DataFrame) :=
  if contains "from" (columns edge_weights)
     || contains "to" (columns edge_weights)
  then raise (ValueError "columns overlap but no suffix specified")
  else
    let rows :=
      flat_map
        (fun row : Z * (float * float) =>
           match positions_from 0 (fst row) (df_index edge_weights) with
           | [] => [(row, None)]
           | found => map (fun k => (row, Some k)) found
           end)
        edges in
    let gather := fun column : list float =>
      map (fun r : Z * (float * float) * option nat =>
             match snd r with
             | Some k => nth k column None
             | None => None
             end) rows in
    ret (map fst rows,
         {| df_index := index (map fst rows);
            df_columns :=
              map (fun col : string * list float => (fst col, gather (snd col)))
                (df_columns edge_weights) |}).

(** [edges_df[names].transpose()]: one row of weights for each column that
    a name selects. *)
Definition weight_rows (names : list string) (edges_df : DataFrame)
  : list (list float) :=
  flat_map
    (fun c => map snd
       (filter (fun col : string * list float => fst col = c)
          (df_columns edges_df)))
    names.

(** [df[name]] for a frame of rows, [pick] reading the column off a row. *)
Definition column {R A : Type} (pick : R -> A) (df : Series R) : Series A :=
  map (fun row => (fst row, pick (snd row))) df.

(** [Network.__init__].  The two edge series hold ints; in the frame they
    are columns of floats, which can hold the NaN that an alignment or a
    failed look-up leaves.  [edges.astype('int32')] casts both columns and
    raises on a missing index. *)
Definition __init__ (node_x node_y : Series float)
  (edge_from edge_to : Series Z) (edge_weights : DataFrame) (twoway : bool)
  : Py module_state t :=
  max <- gets MAX_NUM_NETWORKS ;;
  (if max =? 0 then reserve_num_graphs 1 else ret tt) ;;
  num <- gets NUM_NETWORKS ;;
  max <- gets MAX_NUM_NETWORKS ;;
  assert_ (num <? max) "Adding more networks than have been reserved" ;;
  let graph_no := num in
  modify (set_NUM_NETWORKS (num + 1)) ;;
  nodes_df <- DataFrame2 node_x node_y ;;
  from_to <- DataFrame2 (column Some edge_from) (column Some edge_to) ;;
  edges_df <- join from_to edge_weights ;;
  let impedance_names := columns edge_weights in
  let node_idx := combine (index nodes_df) (arange (len nodes_df)) in
  edges <- DataFrame2 (_node_indexes node_idx (column fst (fst edges_df)))
                      (_node_indexes node_idx (column snd (fst edges_df))) ;;
  let ids := map int32 (index nodes_df) in
  let coords :=
    map (fun xy : float * float =>
           (astype_float32 (fst xy), astype_float32 (snd xy)))
      (values nodes_df) in
  froms <- astype_int32 (map fst (values edges)) ;;
  tos <- astype_int32 (map snd (values edges)) ;;
  let rows :=
    map (map astype_float32)
      (weight_rows (columns edge_weights) (snd edges_df)) in
  call "create_graph"
    (create_graph graph_no ids coords
       (combine (map int32 froms) (map int32 tos)) rows twoway) ;;
  ret {| graph_no := graph_no; nodes_df := nodes_df; edges_df := edges_df;
         impedance_names := impedance_names; variable_names := [];
         node_idx := node_idx |}.

(** [Network.set].  The frame is built from the dictionary
    [{name: variable, "node_idx": ...}], which has a single entry, the node
    indexes, when [name] is ["node_idx"]; [variable_names.append] changes
    the list of the object in place. *)
Definition set (node_ids : Series float) (variable : option (Series float))
  (name : string) : method unit :=
  let variable :=
    match variable with
    | None => map (fun row : Z * float => (fst row, Some 1)) node_ids
    | Some v => v
    end in
  idx <- getattr node_idx ;;
  let found := _node_indexes idx node_ids in
  df <- (if String.eqb name "node_idx"
         then ret (map (fun row : Z * option Z =>
                          (fst row, (snd row, snd row))) found)
         else DataFrame2 variable found) ;;
  let l := len df in
  let df := dropna df in
  let newl := len df in
  (if 0 <? newl - l then in_module (print (RemovedRows (newl - l)))
   else ret tt) ;;
  in_module (print (Elapsed "up")) ;;
  names <- getattr variable_names ;;
  gno <- getattr graph_no ;;
  (if contains name names then ret tt
   else
     modify (fun s =>
       (set_variable_names (variable_names (fst s) ++ [name]) (fst s),
        snd s)) ;;
     names <- getattr variable_names ;;
     in_module (call "initialize_acc_vars"
                  (initialize_acc_vars gno (len names)))) ;;
  in_module (print (Describe (length df))) ;;
  names <- getattr variable_names ;;
  varnum <- list_index name names ;;
  nodes <- astype_int32 (map (fun row => snd (snd row)) df) ;;
  in_module (call "initialize_acc_var"
               (initialize_acc_var gno varnum nodes
                  (map (fun row => fst (snd row)) df))) ;;
  in_module (print (Elapsed "")).

(** [Network.precompute]. *)
Definition precompute (distance : float) : method unit :=
  gno <- getattr graph_no ;;
  in_module (call "precompute_range" (precompute_range distance gno)).

(** [Network.aggregate]; [imp_name] is [None] when the argument is left
    out. *)
Definition aggregate (distance : float) (type decay : string)
  (imp_name : option string) (name : string) : method (Series float) :=
  agg <- getitem AGGREGATIONS (upper type) ;;
  decay <- getitem DECAYS (upper decay) ;;
  imps <- getattr impedance_names ;;
  imp_name <-
    match imp_name with
    | None =>
        assert_ (len imps =? 1)
          "must pass impedance name if there are multiple impedances set" ;;
        ret (hd "" imps)
    | Some n => ret n
    end ;;
  assert_ (contains imp_name imps)
    "An impedance with that namewas not found" ;;
  imp_num <- list_index imp_name imps ;;
  gno <- getattr graph_no ;;
  names <- getattr variable_names ;;
  assert_ (contains name names)
    "A variable with that name has not yet been initialized" ;;
  varnum <- list_index name names ;;
  res <- in_module (call_value "get_all_aggregate_accessibility_variables"
           (get_all_aggregate_accessibility_variables
              distance varnum agg decay gno imp_num)) ;;
  ids <- getattr node_ids ;;
  pd_Series res ids.

(** [Network.get_node_ids]; the engine is given the coordinates of the
    rows left by [dropna]. *)
Definition get_node_ids (x_col y_col : Series float)
  (mapping_distance : float) : method (Series Z) :=
  xys <- DataFrame2 x_col y_col ;;
  let xys := dropna xys in
  gno <- getattr graph_no ;;
  m <- gets snd ;;
  ids <-
    match xy_to_node
            (omap (fun row : Z * (float * float) =>
                     match snd row with
                     | (Some x, Some y) => Some (x, y)
                     | _ => None
                     end) xys)
            mapping_distance gno (_pyaccess m) with
    | Some ids => ret ids
    | None => raise (ExtensionError "xy_to_node")
    end ;;
  s <- pd_Series ids (index xys) ;;
  ret (filter (fun row : Z * Z => snd row <> -1) s).

(** [Network.initialize_pois]. *)
Definition initialize_pois (numcategories : Z) (maxdist : float)
  (maxitems : Z) : method unit :=
  in_module (call "initialize_pois"
               (initialize_pois numcategories maxdist maxitems)).

(** [Network.initialize_poi_category]; every use of the name
    [CAT_NAME_TO_IND] is a read of the global. *)
Definition initialize_poi_category (category : string)
  (xcol ycol : Series float) : method unit :=
  d <- in_module global_CAT_NAME_TO_IND ;;
  (if has_key d category then ret tt
   else
     counted <- in_module global_CAT_NAME_TO_IND ;;
     d <- in_module global_CAT_NAME_TO_IND ;;
     in_module (modify
       (set_CAT_NAME_TO_IND (<[category := Z.of_nat (size counted)]> d)))) ;;
  df <- DataFrame2 xcol ycol ;;
  in_module (print (Describe (length df))) ;;
  d <- in_module global_CAT_NAME_TO_IND ;;
  ind <- getitem d category ;;
  in_module (call "initialize_category" (initialize_category ind (values df))).

(** [Network.compute_nearest_pois]. *)
Definition compute_nearest_pois (distance : float) (category : string)
  : method (list (list float)) :=
  d <- in_module global_CAT_NAME_TO_IND ;;
  assert_ (has_key d category) "Category not initialized" ;;
  d <- in_module global_CAT_NAME_TO_IND ;;
  ind <- getitem d category ;;
  in_module (call_value "find_all_nearest_pois"
               (find_all_nearest_pois distance ind)).

End Methods.

End Network.

(** ** The engine behind [_pyaccess]

    The extension is compiled code that the Python module only calls.  The
    definitions of this module follow its documented design: the graph
    store, the cutoff-bounded range search with its cache, and the
    nearest-node search.  Distances and coordinates are integers. *)
Module Engine.

(** Modelled from the spec: the graph built by [create_graph], which is
    absent from the Python source.  Nodes are the dense indices
    [0 .. nodes-1]; an arc carries one weight for each impedance. *)
Record arc : Type := {
  source : Z;
  target : Z;
  weights : list Z
}.

Record graph : Type := {
  nodes : Z;
  channels : nat;
  arcs : list arc
}.

(** Modelled from the spec: the forward adjacency list of a node of the
    graph store. *)
Definition out (g : graph) (u : Z) : list arc :=
  filter (fun a => source a = u) (arcs g).

(** Modelled from the spec: the weight vector of edge number [i] of
    [createGraph], its entry in every row of the weight matrix. *)
Definition edge_weights (rows : list (list Z)) (i : nat) : list Z :=
  map (fun row => nth i row 0) rows.

(** Modelled from the spec: the arcs [createGraph] makes of the edge list,
    one for each edge, two when the graph is two-way. *)
Fixpoint build_arcs (edges : list (Z * Z)) (rows : list (list Z))
  (twoway : bool) (i : nat) : list arc :=
  match edges with
  | [] => []
  | (u, v) :: rest =>
      let w := edge_weights rows i in
      let forward := {| source := u; target := v; weights := w |} in
      let backward := {| source := v; target := u; weights := w |} in
      (if twoway then [forward; backward] else [forward])
        ++ build_arcs rest rows twoway (S i)
  end.

(** Modelled from the spec: [createGraph] of the graph store, absent from
    the Python source.  It fails if the edge and weight arrays have
    inconsistent lengths or if a weight is negative; a two-way graph gets
    the reverse of every edge with the same weights. *)
Definition create_graph (n : Z) (edges : list (Z * Z))
  (rows : list (list Z)) (twoway : bool) : option graph :=
  if forallb (fun row => (length row =? length edges)%nat) rows
     && forallb (forallb (fun w => 0 <=? w)) rows
  then Some {| nodes := n; channels := length rows;
               arcs := build_arcs edges rows twoway 0 |}
  else None.

(** Modelled from the spec: the invariant of an arc of the graph store, one
    weight for each impedance and none negative. *)
Definition arc_ok (k : nat) (a : arc) : bool :=
  (length (weights a) =? k)%nat && forallb (fun w => 0 <=? w) (weights a).

(** Modelled from the spec: the invariant of a graph of the graph store,
    every arc has one non-negative weight for each impedance. *)
Definition well_formed (g : graph) : bool :=
  forallb (arc_ok (channels g)) (arcs g).

(** Modelled from the spec: an entry of the range cache or of the queue of
    its search, a node with its distance under every impedance. *)
Record label : Type := {
  node : Z;
  dists : list Z
}.

(** Modelled from the spec: the distance of a label under the reference
    impedance [r] of the range search. *)
Definition key (r : nat) (l : label) : Z := nth r (dists l) 0.

(** Modelled from the spec: the distances of the range search after an arc,
    impedance by impedance. *)
Fixpoint vec_add (a b : list Z) : list Z :=
  match a, b with
  | x :: a', y :: b' => (x + y) :: vec_add a' b'
  | _, _ => []
  end.

(** Modelled from the spec: the priority queue of the range search, which
    gives the label of least reference distance (the first of those, when
    several tie) and the queue without it. *)
Fixpoint extract_min (r : nat) (queue : list label)
  : option (label * list label) :=
  match queue with
  | [] => None
  | l :: queue' =>
      match extract_min r queue' with
      | None => Some (l, [])
      | Some (m, rest) =>
          if key r l <=? key r m then Some (l, queue')
          else Some (m, l :: rest)
      end
  end.

(** Modelled from the spec: whether the range search has settled the
    node. *)
Definition is_settled (v : Z) (settled : list label) : bool :=
  existsb (fun l => node l =? v) settled.

(** Modelled from the spec: the labels that a newly settled label of the
    range search sends to its neighbours. *)
Definition relax (g : graph) (l : label) : list label :=
  map (fun a => {| node := target a; dists := vec_add (dists l) (weights a) |})
      (out g (node l)).

(** Modelled from the spec: the cutoff-bounded label-setting search of
    [precompute], absent from the Python source.  The label of least
    distance under the reference impedance [r] leaves the queue; the search
    stops once that distance exceeds the cutoff; a node is settled the first
    time it leaves the queue, with its distance under every impedance along
    the same path. *)
Fixpoint search (g : graph) (r : nat) (cutoff : Z) (fuel : nat)
  (settled frontier : list label) : list label :=
  match fuel with
  | O => settled
  | S fuel' =>
      match extract_min r frontier with
      | None => settled
      | Some (l, rest) =>
          if cutoff <? key r l then settled
          else if is_settled (node l) settled
          then search g r cutoff fuel' settled rest
          else search g r cutoff fuel' (l :: settled) (rest ++ relax g l)
      end
  end.

(** Modelled from the spec: a bound on the steps left to the range search,
    the labels in the queue and the arcs out of the nodes not settled
    yet. *)
Definition work (g : graph) (settled frontier : list label) : nat :=
  (length frontier
   + length (filter (fun a => is_settled (source a) settled = false) (arcs g)))%nat.

(** Modelled from the spec: the queue the range search starts from, the
    source at distance 0 under every impedance. *)
Definition start (g : graph) (s : Z) : list label :=
  [{| node := s; dists := repeat 0 (channels g) |}].

(** Modelled from the spec: the range search from one source, which gives
    the nodes reachable from [s] within [cutoff], latest settled first. *)
Definition range_query (g : graph) (r : nat) (cutoff : Z) (s : Z)
  : list label :=
  search g r cutoff (S (length (arcs g))) [] (start g s).

(** Modelled from the spec: the range cache, absent from the Python source.
    It holds the cutoff it was computed for and the reachable set of every
    source node. *)
Record cache : Type := {
  cached_cutoff : Z;
  reachable : list (list label)
}.

(** Modelled from the spec: [precompute(graph, cutoff)], which rejects a
    cutoff that is not positive. *)
Definition precompute (g : graph) (r : nat) (cutoff : Z) : option cache :=
  if cutoff <=? 0 then None
  else Some {| cached_cutoff := cutoff;
               reachable := map (range_query g r cutoff) (arange (nodes g)) |}.

(** Modelled from the spec: [query(graph, source, cutoff)].  A cache that
    covers the cutoff answers with its set trimmed to the cutoff; otherwise
    the set is computed for this source alone and the cache stays as it is.
    The flag tells whether a search was run. *)
Definition query (c : option cache) (g : graph) (r : nat) (s : Z)
  (cutoff : Z) : option (list label * bool) :=
  if (cutoff <=? 0) || (s <? 0) || (nodes g <=? s) then None
  else
    match c with
    | Some c =>
        if cutoff <=? cached_cutoff c
        then Some (filter (fun l => key r l <= cutoff)
                     (nth (Z.to_nat s) (reachable c) []), false)
        else Some (range_query g r cutoff s, true)
    | None => Some (range_query g r cutoff s, true)
    end.

(** Modelled from the spec: the squared distance of the spatial index. *)
Definition sqdist (p q : Z * Z) : Z :=
  (fst p - fst q) * (fst p - fst q) + (snd p - snd q) * (snd p - snd q).

(** Modelled from the spec: the nearest-neighbour search of the spatial
    index, which gives the closest node to [p] among the nodes numbered from
    [i] on, with its squared distance; a node with a NaN coordinate is never
    the closest. *)
Fixpoint closest (coords : list (float * float)) (i : Z) (p : Z * Z)
  : option (Z * Z) :=
  match coords with
  | [] => None
  | (Some x, Some y) :: rest =>
      let d := sqdist p (x, y) in
      match closest rest (i + 1) p with
      | Some (j, e) => if d <=? e then Some (i, d) else Some (j, e)
      | None => Some (i, d)
      end
  | _ :: rest => closest rest (i + 1) p
  end.

(** Modelled from the spec: the test of the spatial index that a squared
    distance [d] exceeds the threshold [t]. *)
Definition exceeds (d t : Z) : bool := (t <? 0) || (t * t <? d).

(** Modelled from the spec: [nearestNode] of the spatial index, absent from
    the Python source.  Each point gets the index of its closest node;
    unless the threshold is the unbounded sentinel [-1], a point whose
    closest node is farther than the threshold gets [-1], no match. *)
Definition xy_to_node (coords : list (float * float)) (points : list (Z * Z))
  (mapping_distance : float) : list Z :=
  map (fun p =>
         match closest coords 0 p with
         | None => -1
         | Some (i, d) =>
             match mapping_distance with
             | Some t =>
                 if t =? -1 then i else if exceeds d t then -1 else i
             | None => i
             end
         end)
      points.

End Engine.

(** ** A program using the module

    A client imports the module and then calls it: it reserves graphs,
    constructs networks and calls their methods, in any order.  The networks
    constructed so far are kept in creation order and a method call names
    its network by position. *)

Inductive invocation : Type :=
| Set_ (node_ids : Series float) (variable : option (Series float))
    (name : string)
| Precompute (distance : float)
| Aggregate (distance : float) (type decay : string)
    (imp_name : option string) (name : string)
| GetNodeIds (x_col y_col : Series float) (mapping_distance : float)
| InitializePois (numcategories : Z) (maxdist : float) (maxitems : Z)
| InitializePoiCategory (category : string) (xcol ycol : Series float)
| ComputeNearestPois (distance : float) (category : string).

Inductive request : Type :=
| ReserveNumGraphs (num : Z)
| NewNetwork (node_x node_y : Series float) (edge_from edge_to : Series Z)
    (edge_weights : DataFrame) (twoway : bool)
| Call (obj : nat) (i : invocation).

Section Client.

Context `{PyAccess}.

Record world : Type := {
  module : module_state;
  objects : list Network.t
}.

(** Runs a computation for its effect on the state. *)
Definition effect {S A : Type} (c : Py S A) (s : S) : S := snd (c s).

Definition invoke (i : invocation) (s : Network.t * module_state)
  : Network.t * module_state :=
  match i with
  | Set_ node_ids variable name =>
      effect (Network.set node_ids variable name) s
  | Precompute distance => effect (Network.precompute distance) s
  | Aggregate distance type decay imp_name name =>
      effect (Network.aggregate distance type decay imp_name name) s
  | GetNodeIds x_col y_col mapping_distance =>
      effect (Network.get_node_ids x_col y_col mapping_distance) s
  | InitializePois numcategories maxdist maxitems =>
      effect (Network.initialize_pois numcategories maxdist maxitems) s
  | InitializePoiCategory category xcol ycol =>
      effect (Network.initialize_poi_category category xcol ycol) s
  | ComputeNearestPois distance category =>
      effect (Network.compute_nearest_pois distance category) s
  end.

Definition exec (w : world) (r : request) : world :=
  match r with
  | ReserveNumGraphs num =>
      {| module := effect (reserve_num_graphs num) (module w);
         objects := objects w |}
  | NewNetwork node_x node_y edge_from edge_to edge_weights twoway =>
      match Network.__init__ node_x node_y edge_from edge_to edge_weights
              twoway (module w) with
      | (Returned net, m) => {| module := m; objects := objects w ++ [net] |}
      | (Raised _, m) => {| module := m; objects := objects w |}
      end
  | Call obj i =>
      match objects w !! obj with
      | Some self =>
          let s := invoke i (self, module w) in
          {| module := snd s; objects := <[obj := fst s]> (objects w) |}
      | None => w
      end
  end.

(** The state of the program after the requests [rs], made in order from
    the state [w]. *)
Definition run (rs : list request) (w : world) : world :=
  fold_left exec rs w.

(** The state right after the import of the module. *)
Definition imported (e : engine) : world :=
  {| module := on_import e; objects := [] |}.

End Client.

(** ** A stand-in for the extension

    An in-memory engine to run the front end on: it keeps the reserved
    capacity and the node coordinates of each graph, answers nearest-node
    requests as [Engine.xy_to_node] does, and answers an aggregation with
    one zero for each node. *)
Module Sim.

Record state : Type := {
  capacity : Z;
  graphs : list (Z * list (float * float))
}.

Definition empty : state := {| capacity := 0; graphs := [] |}.

Definition lookup_graph (gno : Z) (e : state) : option (list (float * float)) :=
  option_map snd (find (fun g : Z * list (float * float) => fst g =? gno)
                    (graphs e)).

Definition reserve (num : Z) (e : state) : option state :=
  if (capacity e =? 0) && (0 <? num)
  then Some {| capacity := num; graphs := graphs e |}
  else None.

Definition add_graph (gno : Z) (coords : list (float * float)) (e : state)
  : option state :=
  if (0 <=? gno) && (gno <? capacity e)
  then Some {| capacity := capacity e; graphs := (gno, coords) :: graphs e |}
  else None.

Definition aggregate (gno : Z) (e : state) : option (list float * state) :=
  option_map (fun coords => (map (fun _ => Some 0) coords, e))
    (lookup_graph gno e).

Definition nearest (points : list (Z * Z)) (mapping_distance : float)
  (gno : Z) (e : state) : option (list Z) :=
  option_map (fun coords => Engine.xy_to_node coords points mapping_distance)
    (lookup_graph gno e).

(** The coordinate kept for a [float32]: its value when it is finite. *)
Definition coordinate (x : float32) : float :=
  match x with
  | Finite32 v => Some v
  | _ => None
  end.

Definition pyaccess : PyAccess :=
  {| engine := state;
     create_graphs := reserve;
     create_graph := fun gno _ coords _ _ _ =>
       add_graph gno
         (map (fun xy : float32 * float32 =>
                 (coordinate (fst xy), coordinate (snd xy))) coords);
     initialize_acc_vars := fun _ _ e => Some e;
     initialize_acc_var := fun _ _ _ _ e => Some e;
     precompute_range := fun _ _ e => Some e;
     get_all_aggregate_accessibility_variables :=
       fun _ _ _ _ gno _ => aggregate gno;
     xy_to_node := nearest;
     initialize_pois := fun _ _ _ e => Some e;
     initialize_category := fun _ _ e => Some e;
     find_all_nearest_pois := fun _ _ e => Some ([], e) |}.

End Sim.

(** * Properties *)

(** ** What a computation leaves as it is

    [keeps P c]: from a state where [P] holds, [c] ends, normally or by an
    exception, in a state where [P] holds. *)

Definition keeps {S A : Type} (P : S -> Prop) (c : Py S A) : Prop :=
  forall s, P s -> P (snd (c s)).

(** [pure c]: [c] never changes the state. *)
Definition pure {S A : Type} (c : Py S A) : Prop :=
  forall s, snd (c s) = s.

Section Keeps.

Context {S : Type}.

Lemma pure_ret {A : Type} (a : A) : pure (ret (S := S) a).
Proof. intros s. reflexivity. Qed.

Lemma pure_raise {A : Type} (e : exn) : pure (raise (S := S) (A := A) e).
Proof. intros s. reflexivity. Qed.

Lemma pure_gets {A : Type} (f : S -> A) : pure (gets f).
Proof. intros s. reflexivity. Qed.

Lemma pure_assert (b : bool) (msg : string) : pure (assert_ (S := S) b msg).
Proof. intros s. destruct b; reflexivity. Qed.

Lemma pure_bind {A B : Type} (c : Py S A) (k : A -> Py S B) :
  pure c -> (forall a, pure (k a)) -> pure (bind c k).
Proof.
  intros Hc Hk s. unfold bind. specialize (Hc s).
  destruct (c s) as [[a | e] s1]; simpl in *; subst s1.
  - apply Hk.
  - reflexivity.
Qed.

Lemma pure_list_index (name : string) (names : list string) :
  pure (list_index (S := S) name names).
Proof. intros s. unfold list_index. destruct (position name names); reflexivity. Qed.

Lemma pure_getitem (d : gmap string Z) (key : string) :
  pure (getitem (S := S) d key).
Proof. intros s. unfold getitem. destruct (d !! key); reflexivity. Qed.

Lemma pure_pd_Series {A : Type} (data : list A) (idx : list Z) :
  pure (pd_Series (S := S) data idx).
Proof.
  intros s. unfold pd_Series.
  destruct (length data =? length idx)%nat; reflexivity.
Qed.

Lemma pure_DataFrame2 {A B : Type} (a : Series (option A))
  (b : Series (option B)) :
  pure (DataFrame2 (S := S) a b).
Proof.
  intros s. unfold DataFrame2.
  destruct (decide (index a = index b)); [reflexivity |].
  destruct (bool_decide (NoDup (index a)) && bool_decide (NoDup (index b)));
    reflexivity.
Qed.

Lemma pure_astype_int32 (column : list float) :
  pure (astype_int32 (S := S) column).
Proof.
  induction column as [| [v |] rest IH]; simpl.
  - apply pure_ret.
  - apply pure_bind; [exact IH | intros; apply pure_ret].
  - apply pure_raise.
Qed.

Lemma keeps_pure {A : Type} (P : S -> Prop) (c : Py S A) :
  pure c -> keeps P c.
Proof. intros Hc s Hs. rewrite Hc. exact Hs. Qed.

Lemma keeps_bind {A B : Type} (P : S -> Prop) (c : Py S A) (k : A -> Py S B) :
  keeps P c -> (forall a, keeps P (k a)) -> keeps P (bind c k).
Proof.
  intros Hc Hk s Hs. unfold bind. specialize (Hc s Hs).
  destruct (c s) as [[a | e] s1]; simpl in *.
  - apply Hk. exact Hc.
  - exact Hc.
Qed.

Lemma keeps_modify (P : S -> Prop) (f : S -> S) :
  (forall s, P s -> P (f s)) -> keeps P (modify f).
Proof. intros Hf s Hs. simpl. apply Hf. exact Hs. Qed.

Lemma keeps_if {A : Type} (P : S -> Prop) (b : bool) (c d : Py S A) :
  keeps P c -> keeps P d -> keeps P (if b then c else d).
Proof. destruct b; trivial. Qed.

Lemma bind_returned {A B : Type} (c : Py S A) (k : A -> Py S B) (s s' : S)
  (b : B) :
  bind c k s = (Returned b, s') ->
  exists a s1, c s = (Returned a, s1) /\ k a s1 = (Returned b, s').
Proof.
  unfold bind. destruct (c s) as [[a | e] s1]; intros Hk.
  - exists a, s1. split; [reflexivity | exact Hk].
  - discriminate.
Qed.

Lemma DataFrame2_returned {A B : Type} (a : Series (option A))
  (b : Series (option B)) (s s' : S) (df : Series (option A * option B)) :
  DataFrame2 a b s = (Returned df, s') ->
  s' = s
  /\ (index a = index b ->
      df = combine (index a) (combine (values a) (values b))).
Proof.
  unfold DataFrame2. destruct (decide (index a = index b)) as [Hi | Hi].
  - intros Hd. inversion Hd. auto.
  - destruct (bool_decide (NoDup (index a)) && bool_decide (NoDup (index b)));
      intros Hd; inversion Hd. split; [reflexivity | contradiction].
Qed.

Lemma DataFrame2_aligned {A B : Type} (a : Series (option A))
  (b : Series (option B)) (s : S) :
  index a = index b ->
  DataFrame2 a b s
  = (Returned (combine (index a) (combine (values a) (values b))), s).
Proof.
  intros Hi. unfold DataFrame2.
  destruct (decide (index a = index b)); [reflexivity | contradiction].
Qed.

Lemma DataFrame2_raised {A B : Type} (a : Series (option A))
  (b : Series (option B)) (s s' : S) (e : exn) :
  DataFrame2 a b s = (Raised e, s') ->
  s' = s /\ e = Unmodelled "alignment of series with repeated labels".
Proof.
  unfold DataFrame2. destruct (decide (index a = index b)) as [Hi | Hi];
    [discriminate |].
  destruct (bool_decide (NoDup (index a)) && bool_decide (NoDup (index b)));
    intros Hd; inversion Hd. auto.
Qed.

End Keeps.

(** Closes [pure c] for a computation that only reads the state. *)
Ltac pure_leaf :=
  repeat first
    [ apply pure_ret | apply pure_raise | apply pure_gets | apply pure_assert
    | apply pure_list_index | apply pure_getitem | apply pure_pd_Series
    | apply pure_DataFrame2 | apply pure_astype_int32
    | apply pure_bind; [| intros ? ] ].

(** The next step of a proof that a sequence of statements keeps [P]. *)
Ltac keeps_step :=
  first
    [ apply keeps_bind; [| intros ? ]
    | apply keeps_if
    | apply keeps_pure; solve [ pure_leaf ] ].

(** ** The module-level functions *)

Section ModuleFacts.

Context `{PyAccess}.

(** A property of the module state that does not look at the engine or at
    what was printed. *)
Definition blind (Q : module_state -> Prop) : Prop :=
  (forall m e, Q m -> Q (set_pyaccess e m))
  /\ (forall m v, Q m -> Q (set_stdout v m)).

Lemma keeps_call (Q : module_state -> Prop) (fn : string)
  (f : engine -> option engine) :
  blind Q -> keeps Q (call fn f).
Proof.
  intros [He _] m Hm. unfold call.
  destruct (f (_pyaccess m)); simpl; auto.
Qed.

Lemma keeps_call_value {A : Type} (Q : module_state -> Prop) (fn : string)
  (f : engine -> option (A * engine)) :
  blind Q -> keeps Q (call_value fn f).
Proof.
  intros [He _] m Hm. unfold call_value.
  destruct (f (_pyaccess m)) as [[a e] |]; simpl; auto.
Qed.

Lemma keeps_print (Q : module_state -> Prop) (l : line) :
  blind Q -> keeps Q (print l).
Proof. intros [_ Hp] m Hm. simpl. apply Hp. exact Hm. Qed.

Lemma pure_global_CAT_NAME_TO_IND : pure global_CAT_NAME_TO_IND.
Proof.
  intros m. unfold global_CAT_NAME_TO_IND.
  destruct (CAT_NAME_TO_IND m); reflexivity.
Qed.

(** [reserve_num_graphs], statement by statement. *)
Lemma reserve_num_graphs_unfold (num : Z) (m : module_state) :
  reserve_num_graphs num m =
  if MAX_NUM_NETWORKS m =? 0 then
    if 0 <? num then
      match create_graphs num (_pyaccess m) with
      | Some e =>
          (Returned tt, set_pyaccess e (set_MAX_NUM_NETWORKS num m))
      | None =>
          (Raised (ExtensionError "create_graphs"),
           set_MAX_NUM_NETWORKS num m)
      end
    else (Raised (AssertionError ""), m)
  else
    (Raised (AssertionError "Global memory used so cannot initialize twice"),
     m).
Proof.
  unfold reserve_num_graphs, bind, gets, assert_, modify, call, ret, raise.
  simpl.
  destruct (MAX_NUM_NETWORKS m =? 0); [| reflexivity].
  destruct (0 <? num); [| reflexivity].
  simpl. destruct (create_graphs num (_pyaccess m)); reflexivity.
Qed.

End ModuleFacts.

(** ** The methods of [Network] *)

Section NetworkFacts.

Context `{PyAccess}.

Lemma keeps_in_module {A : Type} (P : Network.t * module_state -> Prop)
  (c : Py module_state A) :
  (forall self, keeps (fun m => P (self, m)) c) ->
  keeps P (Network.in_module c).
Proof.
  intros Hc [self m] Hs. unfold Network.in_module. simpl.
  specialize (Hc self m Hs). destruct (c m) as [o m']. exact Hc.
Qed.

Lemma pure_getattr {A : Type} (field : Network.t -> A) :
  pure (Network.getattr field).
Proof. intros s. reflexivity. Qed.

Lemma pure_in_module {A : Type} (c : Py module_state A) :
  pure c -> pure (Network.in_module c).
Proof.
  intros Hc [self m]. unfold Network.in_module. simpl.
  specialize (Hc m). destruct (c m) as [o m']. simpl in *. congruence.
Qed.

(** What a method call leaves as it is: the two globals of the module and
    every attribute of the network but [variable_names], which gains at
    most the names in [allowed]. *)
Definition steady (allowed : list string) (s0 s : Network.t * module_state)
  : Prop :=
  MAX_NUM_NETWORKS (snd s) = MAX_NUM_NETWORKS (snd s0)
  /\ NUM_NETWORKS (snd s) = NUM_NETWORKS (snd s0)
  /\ Network.graph_no (fst s) = Network.graph_no (fst s0)
  /\ Network.node_idx (fst s) = Network.node_idx (fst s0)
  /\ Network.nodes_df (fst s) = Network.nodes_df (fst s0)
  /\ Network.impedance_names (fst s) = Network.impedance_names (fst s0)
  /\ (forall n, In n (Network.variable_names (fst s)) ->
        In n (Network.variable_names (fst s0)) \/ In n allowed).

Lemma steady_refl (allowed : list string) (s : Network.t * module_state) :
  steady allowed s s.
Proof. unfold steady. intuition. Qed.

(** The name [CAT_NAME_TO_IND] is unbound. *)
Definition unbound (s : Network.t * module_state) : Prop :=
  CAT_NAME_TO_IND (snd s) = None.

End NetworkFacts.

(** Closes [keeps P c] for a method body [c], given that [P] does not look
    at the engine or at what was printed. *)
Ltac keeps_leaf :=
  lazymatch goal with
  | |- keeps _ (Network.in_module global_CAT_NAME_TO_IND) =>
      apply keeps_pure, pure_in_module, pure_global_CAT_NAME_TO_IND
  | |- keeps _ (Network.in_module (modify _)) =>
      apply keeps_in_module; intros ?; apply keeps_modify;
      intros; simpl in *; assumption
  | |- keeps _ (Network.in_module _) =>
      apply keeps_in_module; intros ?;
      first
        [ apply keeps_call | apply keeps_call_value | apply keeps_print ];
      split; intros; simpl in *; assumption
  | |- keeps _ (Network.getattr _) => apply keeps_pure, pure_getattr
  | |- keeps _ (match ?x with _ => _ end) => destruct x
  | |- keeps _ _ => keeps_step
  end.

Section MethodFacts.

Context `{PyAccess}.

Lemma steady_blind (allowed : list string) (s0 : Network.t * module_state)
  (self : Network.t) :
  blind (fun m => steady allowed s0 (self, m)).
Proof. split; intros m x Hm; exact Hm. Qed.

Lemma set_keeps_steady (node_ids : Series float)
  (variable : option (Series float)) (name : string)
  (s0 : Network.t * module_state) :
  keeps (steady [name] s0) (Network.set node_ids variable name).
Proof.
  unfold Network.set.
  repeat keeps_leaf.
  apply keeps_modify. intros [self m] Hs. unfold steady in *. simpl in *.
  destruct Hs as (? & ? & ? & ? & ? & ? & Hv). repeat split; try assumption.
  intros n Hn. apply in_app_or in Hn.
  destruct Hn as [Hn | Hn]; [auto | right; exact Hn].
Qed.

Lemma method_keeps_steady (i : invocation) (allowed : list string)
  (s0 : Network.t * module_state) :
  match i with Set_ _ _ _ => False | _ => True end ->
  forall s, steady allowed s0 s -> steady allowed s0 (invoke i s).
Proof.
  intros Hi.
  destruct i; try contradiction; simpl; unfold effect;
    match goal with
    | |- forall s, _ -> steady _ _ (snd (?c s)) =>
        change (keeps (steady allowed s0) c)
    end.
  - unfold Network.precompute. repeat keeps_leaf.
  - unfold Network.aggregate. repeat keeps_leaf.
  - unfold Network.get_node_ids. repeat keeps_leaf.
  - unfold Network.initialize_pois. repeat keeps_leaf.
  - unfold Network.initialize_poi_category. repeat keeps_leaf.
  - unfold Network.compute_nearest_pois. repeat keeps_leaf.
Qed.

(** The names a method call may add to [variable_names]. *)
Definition names_set (i : invocation) : list string :=
  match i with
  | Set_ _ _ name => [name]
  | _ => []
  end.

Lemma invoke_steady (i : invocation) (s : Network.t * module_state) :
  steady (names_set i) s (invoke i s).
Proof.
  destruct i as [node_ids variable name | | | | | |];
    try (apply method_keeps_steady; [exact I | apply steady_refl]).
  simpl. unfold effect. apply set_keeps_steady, steady_refl.
Qed.

(** With [CAT_NAME_TO_IND] unbound, the two methods that read it raise
    [NameError] at their first statement. *)
Lemma initialize_poi_category_unbound (category : string)
  (xcol ycol : Series float) (s : Network.t * module_state) :
  unbound s ->
  Network.initialize_poi_category category xcol ycol s
  = (Raised (NameError "CAT_NAME_TO_IND"), s).
Proof.
  destruct s as [self m]. unfold unbound. simpl. intros Hu.
  unfold Network.initialize_poi_category, bind, Network.in_module,
    global_CAT_NAME_TO_IND.
  simpl. rewrite Hu. reflexivity.
Qed.

Lemma compute_nearest_pois_unbound (distance : float) (category : string)
  (s : Network.t * module_state) :
  unbound s ->
  Network.compute_nearest_pois distance category s
  = (Raised (NameError "CAT_NAME_TO_IND"), s).
Proof.
  destruct s as [self m]. unfold unbound. simpl. intros Hu.
  unfold Network.compute_nearest_pois, bind, Network.in_module,
    global_CAT_NAME_TO_IND.
  simpl. rewrite Hu. reflexivity.
Qed.

Lemma invoke_unbound (i : invocation) (s : Network.t * module_state) :
  unbound s -> unbound (invoke i s).
Proof.
  intros Hs.
  destruct i; simpl; unfold effect;
    try (rewrite initialize_poi_category_unbound by exact Hs; exact Hs);
    try (rewrite compute_nearest_pois_unbound by exact Hs; exact Hs);
    revert s Hs;
    match goal with
    | |- forall s, _ -> unbound (snd (?c s)) => change (keeps unbound c)
    end.
  - unfold Network.set. repeat keeps_leaf.
    apply keeps_modify. intros [self m] Hs. exact Hs.
  - unfold Network.precompute. repeat keeps_leaf.
  - unfold Network.aggregate. repeat keeps_leaf.
  - unfold Network.get_node_ids. repeat keeps_leaf.
  - unfold Network.initialize_pois. repeat keeps_leaf.
Qed.

End MethodFacts.

(** ** The constructor *)

Section ConstructorFacts.

Context `{PyAccess}.

(** The statements of [__init__] that follow the taking of a slot: they
    prepare the frames and hand the graph to the engine. *)
Definition construct (graph_no : Z) (node_x node_y : Series float)
  (edge_from edge_to : Series Z) (edge_weights : DataFrame) (twoway : bool)
  : Py module_state Network.t :=
  nodes_df <- DataFrame2 node_x node_y ;;
  from_to <- DataFrame2 (Network.column Some edge_from)
                        (Network.column Some edge_to) ;;
  edges_df <- Network.join from_to edge_weights ;;
  let impedance_names := columns edge_weights in
  let node_idx := combine (index nodes_df) (arange (len nodes_df)) in
  edges <- DataFrame2
             (_node_indexes node_idx (Network.column fst (fst edges_df)))
             (_node_indexes node_idx (Network.column snd (fst edges_df))) ;;
  let ids := map int32 (index nodes_df) in
  let coords :=
    map (fun xy : float * float =>
           (astype_float32 (fst xy), astype_float32 (snd xy)))
      (values nodes_df) in
  froms <- astype_int32 (map fst (values edges)) ;;
  tos <- astype_int32 (map snd (values edges)) ;;
  let rows :=
    map (map astype_float32)
      (Network.weight_rows (columns edge_weights) (snd edges_df)) in
  call "create_graph"
    (create_graph graph_no ids coords
       (combine (map int32 froms) (map int32 tos)) rows twoway) ;;
  ret {| Network.graph_no := graph_no; Network.nodes_df := nodes_df;
         Network.edges_df := edges_df;
         Network.impedance_names := impedance_names;
         Network.variable_names := [];
         Network.node_idx := node_idx |}.

(** The slot check of [__init__], the taking of the slot and what follows
    it. *)
Definition take_slot (node_x node_y : Series float)
  (edge_from edge_to : Series Z) (edge_weights : DataFrame) (twoway : bool)
  (m : module_state) : outcome Network.t * module_state :=
  if NUM_NETWORKS m <? MAX_NUM_NETWORKS m
  then construct (NUM_NETWORKS m) node_x node_y edge_from edge_to
         edge_weights twoway (set_NUM_NETWORKS (NUM_NETWORKS m + 1) m)
  else (Raised
          (AssertionError "Adding more networks than have been reserved"), m).

Lemma init_unfold (node_x node_y : Series float) (edge_from edge_to : Series Z)
  (edge_weights : DataFrame) (twoway : bool) (m : module_state) :
  Network.__init__ node_x node_y edge_from edge_to edge_weights twoway m =
  if MAX_NUM_NETWORKS m =? 0 then
    match reserve_num_graphs 1 m with
    | (Returned _, m1) =>
        take_slot node_x node_y edge_from edge_to edge_weights twoway m1
    | (Raised e, m1) => (Raised e, m1)
    end
  else take_slot node_x node_y edge_from edge_to edge_weights twoway m.
Proof.
  unfold Network.__init__, take_slot, construct.
  unfold bind at 1. unfold gets at 1. cbv beta iota.
  unfold bind at 1.
  destruct (MAX_NUM_NETWORKS m =? 0).
  - destruct (reserve_num_graphs 1 m) as [[[] | e] m1]; [| reflexivity].
    unfold bind at 1. unfold gets at 1. cbv beta iota.
    unfold bind at 1. unfold gets at 1. cbv beta iota.
    unfold bind at 1. unfold assert_.
    destruct (NUM_NETWORKS m1 <? MAX_NUM_NETWORKS m1); reflexivity.
  - unfold ret at 1. cbv beta iota.
    unfold bind at 1. unfold gets at 1. cbv beta iota.
    unfold bind at 1. unfold gets at 1. cbv beta iota.
    unfold bind at 1. unfold assert_.
    destruct (NUM_NETWORKS m <? MAX_NUM_NETWORKS m); reflexivity.
Qed.

End ConstructorFacts.

Lemma index_combine {A : Type} (labels : list Z) (data : list A) :
  length labels = length data -> index (combine labels data) = labels.
Proof.
  revert data. induction labels as [| l labels IH]; intros [| d data] Hl;
    simpl in *; try discriminate; try reflexivity.
  f_equal. apply IH. congruence.
Qed.

Lemma values_combine {A : Type} (labels : list Z) (data : list A) :
  length labels = length data -> values (combine labels data) = data.
Proof.
  revert data. induction labels as [| l labels IH]; intros [| d data] Hl;
    simpl in *; try discriminate; try reflexivity.
  f_equal. apply IH. congruence.
Qed.

Lemma length_index {A : Type} (s : Series A) : length (index s) = length s.
Proof. apply length_map. Qed.

Lemma length_values {A : Type} (s : Series A) : length (values s) = length s.
Proof. apply length_map. Qed.

Lemma length_arange_len {A : Type} (l : list A) :
  length (arange (len l)) = length l.
Proof.
  unfold arange, len. rewrite length_map, length_seq. apply Nat2Z.id.
Qed.

(** The frame of two series that share an index has that index. *)
Lemma index_frame {A B : Type} (a : Series A) (b : Series B) :
  index a = index b ->
  index (combine (index a) (combine (values a) (values b))) = index a.
Proof.
  intros Hi. apply index_combine.
  assert (Hl : length a = length b).
  { rewrite <- (length_index a), <- (length_index b), Hi. reflexivity. }
  rewrite length_combine, !length_values, length_index. lia.
Qed.

Section ConstructFacts.

Context `{PyAccess}.

Lemma pure_join (edges : Series (float * float)) (edge_weights : DataFrame) :
  pure (Network.join (S := module_state) edges edge_weights).
Proof.
  intros s. unfold Network.join.
  destruct (contains "from" (columns edge_weights)
            || contains "to" (columns edge_weights)); reflexivity.
Qed.

(** The construction changes nothing of the module but the engine. *)
Lemma construct_keeps (Q : module_state -> Prop) (graph_no : Z)
  (node_x node_y : Series float) (edge_from edge_to : Series Z)
  (edge_weights : DataFrame) (twoway : bool) :
  blind Q ->
  keeps Q (construct graph_no node_x node_y edge_from edge_to edge_weights
             twoway).
Proof.
  intros HQ. unfold construct.
  repeat first
    [ apply keeps_call; exact HQ
    | apply keeps_pure, pure_join
    | keeps_step ].
Qed.

(** A network that came out of the construction. *)
Lemma construct_returned (graph_no : Z) (node_x node_y : Series float)
  (edge_from edge_to : Series Z) (edge_weights : DataFrame) (twoway : bool)
  (m m' : module_state) (net : Network.t) :
  construct graph_no node_x node_y edge_from edge_to edge_weights twoway m
  = (Returned net, m') ->
  Network.graph_no net = graph_no
  /\ Network.variable_names net = []
  /\ Network.impedance_names net = columns edge_weights
  /\ (index node_x = index node_y -> Network.node_ids net = index node_x).
Proof.
  unfold construct. intros Hc.
  apply bind_returned in Hc. destruct Hc as (nodes_df & m1 & Hn & Hc).
  apply DataFrame2_returned in Hn. destruct Hn as (-> & Hdf).
  do 6 (apply bind_returned in Hc; destruct Hc as (? & ? & _ & Hc)).
  inversion Hc; subst net. simpl.
  split; [reflexivity |]. split; [reflexivity |]. split; [reflexivity |].
  intros Hi. rewrite (Hdf Hi).
  unfold Network.node_ids. simpl.
  rewrite index_combine.
  - apply index_frame. exact Hi.
  - rewrite length_arange_len, length_index. reflexivity.
Qed.

End ConstructFacts.

(** ** Programs: what holds after any sequence of requests *)

Lemma arange_succ (n : Z) : 0 <= n -> arange (n + 1) = arange n ++ [n].
Proof.
  intros Hn. unfold arange.
  replace (Z.to_nat (n + 1)) with (S (Z.to_nat n)) by lia.
  rewrite seq_S, map_app. simpl. rewrite Z2Nat.id by exact Hn. reflexivity.
Qed.

Lemma arange_bounds (n v : Z) : In v (arange n) -> 0 <= v < n.
Proof.
  unfold arange. rewrite in_map_iff. intros (k & <- & Hk).
  apply in_seq in Hk. lia.
Qed.

Lemma arange_NoDup (n : Z) : NoDup (arange n).
Proof.
  unfold arange. apply NoDup_fmap_2; [| apply NoDup_seq].
  intros a b Hab. lia.
Qed.

Section ClientFacts.

Context `{PyAccess}.

Lemma run_cons (r : request) (rs : list request) (w : world) :
  run (r :: rs) w = run rs (exec w r).
Proof. reflexivity. Qed.

Lemma run_snoc (rs : list request) (r : request) (w : world) :
  run (rs ++ [r]) w = exec (run rs w) r.
Proof. unfold run. rewrite fold_left_app. reflexivity. Qed.

Lemma max_blind (v : Z) : blind (fun m => MAX_NUM_NETWORKS m = v).
Proof. split; intros m x Hm; exact Hm. Qed.

Lemma num_blind (v : Z) : blind (fun m => NUM_NETWORKS m = v).
Proof. split; intros m x Hm; exact Hm. Qed.

Lemma cat_blind (v : option (gmap string Z)) :
  blind (fun m => CAT_NAME_TO_IND m = v).
Proof. split; intros m x Hm; exact Hm. Qed.

(** What [take_slot] does to the module and what it returns. *)
Lemma take_slot_spec (node_x node_y : Series float)
  (edge_from edge_to : Series Z) (edge_weights : DataFrame) (twoway : bool)
  (m : module_state) :
  let r := take_slot node_x node_y edge_from edge_to edge_weights twoway m in
  MAX_NUM_NETWORKS (snd r) = MAX_NUM_NETWORKS m
  /\ CAT_NAME_TO_IND (snd r) = CAT_NAME_TO_IND m
  /\ (MAX_NUM_NETWORKS m <= NUM_NETWORKS m ->
      r = (Raised (AssertionError
                     "Adding more networks than have been reserved"), m))
  /\ (NUM_NETWORKS m < MAX_NUM_NETWORKS m ->
      NUM_NETWORKS (snd r) = NUM_NETWORKS m + 1
      /\ forall net, fst r = Returned net ->
           Network.graph_no net = NUM_NETWORKS m
           /\ Network.variable_names net = []
           /\ Network.impedance_names net = columns edge_weights
           /\ (index node_x = index node_y ->
               Network.node_ids net = index node_x)).
Proof.
  unfold take_slot. simpl.
  destruct (NUM_NETWORKS m <? MAX_NUM_NETWORKS m) eqn:Hlt.
  - apply Z.ltb_lt in Hlt.
    set (m1 := set_NUM_NETWORKS (NUM_NETWORKS m + 1) m).
    set (c := construct (NUM_NETWORKS m) node_x node_y edge_from edge_to
                edge_weights twoway).
    assert (Hmax := construct_keeps _ (NUM_NETWORKS m) node_x node_y
                      edge_from edge_to edge_weights twoway
                      (max_blind (MAX_NUM_NETWORKS m)) m1 eq_refl).
    assert (Hnum := construct_keeps _ (NUM_NETWORKS m) node_x node_y
                      edge_from edge_to edge_weights twoway
                      (num_blind (NUM_NETWORKS m + 1)) m1 eq_refl).
    assert (Hcat := construct_keeps _ (NUM_NETWORKS m) node_x node_y
                      edge_from edge_to edge_weights twoway
                      (cat_blind (CAT_NAME_TO_IND m)) m1 eq_refl).
    fold c in Hmax, Hnum, Hcat.
    split; [exact Hmax |]. split; [exact Hcat |]. split; [lia |].
    intros _. split; [exact Hnum |].
    intros net Hnet. destruct (c m1) as [o m2] eqn:Hc. simpl in Hnet. subst o.
    exact (construct_returned _ _ _ _ _ _ _ _ _ _ Hc).
  - apply Z.ltb_ge in Hlt. simpl. repeat split; try reflexivity; lia.
Qed.

(** What the constructor does to the module and what it returns. *)
Lemma init_spec (node_x node_y : Series float)
  (edge_from edge_to : Series Z) (edge_weights : DataFrame) (twoway : bool)
  (m : module_state) :
  let r := Network.__init__ node_x node_y edge_from edge_to edge_weights
             twoway m in
  (MAX_NUM_NETWORKS m <> 0 -> MAX_NUM_NETWORKS (snd r) = MAX_NUM_NETWORKS m)
  /\ (MAX_NUM_NETWORKS m = 0 -> MAX_NUM_NETWORKS (snd r) = 1)
  /\ CAT_NAME_TO_IND (snd r) = CAT_NAME_TO_IND m
  /\ (NUM_NETWORKS (snd r) = NUM_NETWORKS m
      \/ NUM_NETWORKS m < MAX_NUM_NETWORKS (snd r)
         /\ NUM_NETWORKS (snd r) = NUM_NETWORKS m + 1)
  /\ (forall net, fst r = Returned net ->
        NUM_NETWORKS m < MAX_NUM_NETWORKS (snd r)
        /\ NUM_NETWORKS (snd r) = NUM_NETWORKS m + 1
        /\ Network.graph_no net = NUM_NETWORKS m
        /\ Network.variable_names net = []
        /\ Network.impedance_names net = columns edge_weights
        /\ (index node_x = index node_y ->
            Network.node_ids net = index node_x)).
Proof.
  simpl. rewrite init_unfold.
  destruct (MAX_NUM_NETWORKS m =? 0) eqn:Hz.
  - apply Z.eqb_eq in Hz. rewrite reserve_num_graphs_unfold.
    rewrite Hz. simpl.
    destruct (create_graphs 1 (_pyaccess m)) as [e |].
    + set (m1 := set_pyaccess e (set_MAX_NUM_NETWORKS 1 m)).
      destruct (take_slot_spec node_x node_y edge_from edge_to edge_weights
                  twoway m1) as (Hmax & Hcat & Hfull & Hfree).
      simpl in *. rewrite Hmax, Hcat.
      repeat split; try reflexivity; try congruence.
      * destruct (Z_lt_le_dec (NUM_NETWORKS m) 1) as [Hlt | Hge].
        -- right. split; [exact Hlt | apply Hfree; exact Hlt].
        -- left. rewrite (Hfull Hge). reflexivity.
      * destruct (Z_lt_le_dec (NUM_NETWORKS m) 1) as [Hlt | Hge];
          [exact Hlt | rewrite (Hfull Hge) in H0; discriminate].
      * destruct (Z_lt_le_dec (NUM_NETWORKS m) 1) as [Hlt | Hge];
          [apply Hfree; exact Hlt | rewrite (Hfull Hge) in H0; discriminate].
      * destruct (Z_lt_le_dec (NUM_NETWORKS m) 1) as [Hlt | Hge];
          [apply Hfree; assumption | rewrite (Hfull Hge) in H0; discriminate].
      * destruct (Z_lt_le_dec (NUM_NETWORKS m) 1) as [Hlt | Hge];
          [apply Hfree; assumption | rewrite (Hfull Hge) in H0; discriminate].
      * destruct (Z_lt_le_dec (NUM_NETWORKS m) 1) as [Hlt | Hge];
          [apply Hfree; assumption | rewrite (Hfull Hge) in H0; discriminate].
      * destruct (Z_lt_le_dec (NUM_NETWORKS m) 1) as [Hlt | Hge];
          [apply Hfree; assumption | rewrite (Hfull Hge) in H0; discriminate].
    + simpl. repeat split; try reflexivity; try congruence; auto;
        intros; discriminate.
  - apply Z.eqb_neq in Hz.
    destruct (take_slot_spec node_x node_y edge_from edge_to edge_weights
                twoway m) as (Hmax & Hcat & Hfull & Hfree).
    simpl in *. rewrite Hmax, Hcat.
    destruct (Z_lt_le_dec (NUM_NETWORKS m) (MAX_NUM_NETWORKS m))
      as [Hlt | Hge].
    + destruct (Hfree Hlt) as [Hn Hnet].
      repeat split; try reflexivity; try congruence; auto; apply Hnet;
        assumption.
    + rewrite (Hfull Hge). simpl.
      repeat split; try reflexivity; try congruence; auto;
        intros; discriminate.
Qed.

End ClientFacts.

Section Invariants.

Context `{PyAccess}.

(** What every state of a program satisfies: [CAT_NAME_TO_IND] is unbound,
    the slots taken do not exceed the capacity, and the networks alive hold
    distinct slots among those taken, in the order of their creation. *)
Record consistent (w : world) : Prop := {
  cat_unbound : CAT_NAME_TO_IND (module w) = None;
  num_bounds :
    0 <= NUM_NETWORKS (module w) <= MAX_NUM_NETWORKS (module w);
  slots_taken :
    (Network.graph_no <$> objects w)
      `sublist_of` arange (NUM_NETWORKS (module w))
}.

Lemma consistent_imported (e : engine) : consistent (imported e).
Proof. split; simpl; [reflexivity | lia | constructor]. Qed.

(** A method call on a network changes no slot. *)
Lemma call_slots (w : world) (obj : nat) (self : Network.t)
  (s : Network.t * module_state) :
  objects w !! obj = Some self ->
  Network.graph_no (fst s) = Network.graph_no self ->
  Network.graph_no <$> <[obj := fst s]> (objects w)
  = Network.graph_no <$> objects w.
Proof.
  intros Hobj Hg. rewrite list_fmap_insert, Hg.
  apply list_insert_id. rewrite list_lookup_fmap, Hobj. reflexivity.
Qed.

(** A request never lowers the number of slots taken, and never changes a
    capacity that is set. *)
Lemma exec_globals (w : world) (r : request) :
  NUM_NETWORKS (module w) <= NUM_NETWORKS (module (exec w r))
  /\ (MAX_NUM_NETWORKS (module w) <> 0 ->
      MAX_NUM_NETWORKS (module (exec w r)) = MAX_NUM_NETWORKS (module w)).
Proof.
  destruct r as [num | node_x node_y edge_from edge_to edge_weights twoway
                | obj i]; simpl.
  - unfold effect. rewrite reserve_num_graphs_unfold.
    destruct (MAX_NUM_NETWORKS (module w) =? 0) eqn:Hz; simpl.
    + apply Z.eqb_eq in Hz.
      destruct (0 <? num); simpl;
        [destruct (create_graphs num (_pyaccess (module w))) |];
        simpl; split; try lia; intros; congruence.
    + split; [lia | reflexivity].
  - destruct (init_spec node_x node_y edge_from edge_to edge_weights twoway
                (module w)) as (Hmax & _ & _ & Hnum & _).
    simpl in *.
    destruct (Network.__init__ node_x node_y edge_from edge_to edge_weights
                twoway (module w)) as [[net | e] m]; simpl in *;
      (split; [destruct Hnum as [-> | [_ ->]]; lia | exact Hmax]).
  - destruct (objects w !! obj) as [self |] eqn:Hobj; simpl.
    + destruct (invoke_steady i (self, module w)) as (Hmax & Hnum & _).
      simpl in *. rewrite Hmax, Hnum. split; [lia | reflexivity].
    + split; [lia | reflexivity].
Qed.

Lemma exec_consistent (w : world) (r : request) :
  consistent w -> consistent (exec w r).
Proof.
  intros [Hcat Hnum Hslots].
  destruct r as [num | node_x node_y edge_from edge_to edge_weights twoway
                | obj i]; simpl.
  - unfold effect. rewrite reserve_num_graphs_unfold.
    destruct (MAX_NUM_NETWORKS (module w) =? 0) eqn:Hz; simpl.
    + apply Z.eqb_eq in Hz.
      destruct (0 <? num) eqn:Hpos; simpl.
      * apply Z.ltb_lt in Hpos.
        destruct (create_graphs num (_pyaccess (module w)));
          split; simpl; try assumption; lia.
      * split; simpl; assumption.
    + split; simpl; assumption.
  - destruct (init_spec node_x node_y edge_from edge_to edge_weights twoway
                (module w)) as (Hmax & Hmax0 & Hc & Hn & Hnet).
    simpl in *.
    destruct (Network.__init__ node_x node_y edge_from edge_to edge_weights
                twoway (module w)) as [[net | e] m]; simpl in *.
    + destruct (Hnet net eq_refl) as (Hlt & Hnum' & Hg & _).
      split; simpl.
      * congruence.
      * lia.
      * rewrite fmap_app, Hnum', arange_succ by lia. simpl. rewrite Hg.
        apply sublist_app; [exact Hslots | reflexivity].
    + split; simpl.
      * congruence.
      * destruct Hn as [-> | [Hlt ->]]; [| lia].
        destruct (Z.eq_dec (MAX_NUM_NETWORKS (module w)) 0) as [Hz | Hz];
          [rewrite (Hmax0 Hz) | rewrite (Hmax Hz)]; lia.
      * destruct Hn as [-> | [Hlt ->]]; [exact Hslots |].
        rewrite arange_succ by lia. apply sublist_inserts_r. exact Hslots.
  - destruct (objects w !! obj) as [self |] eqn:Hobj; simpl.
    + destruct (invoke_steady i (self, module w))
        as (Hmax & Hnum' & Hg & _).
      pose proof (invoke_unbound i (self, module w) Hcat) as Hu.
      simpl in *. split; simpl.
      * exact Hu.
      * rewrite Hmax, Hnum'. exact Hnum.
      * rewrite Hnum', (call_slots w obj self _ Hobj Hg). exact Hslots.
    + split; assumption.
Qed.

Lemma run_consistent (rs : list request) (w : world) :
  consistent w -> consistent (run rs w).
Proof.
  revert w. induction rs as [| r rs IH]; intros w Hw; [exact Hw |].
  rewrite run_cons. apply IH, exec_consistent, Hw.
Qed.

Lemma run_globals (rs : list request) (w : world) :
  NUM_NETWORKS (module w) <= NUM_NETWORKS (module (run rs w))
  /\ (MAX_NUM_NETWORKS (module w) <> 0 ->
      MAX_NUM_NETWORKS (module (run rs w)) = MAX_NUM_NETWORKS (module w)).
Proof.
  revert w. induction rs as [| r rs IH]; intros w.
  - simpl. split; [lia | reflexivity].
  - rewrite run_cons. destruct (exec_globals w r) as [Hn Hm].
    destruct (IH (exec w r)) as [Hn' Hm'].
    split; [lia |]. intros Hz. specialize (Hm Hz).
    rewrite Hm'; [exact Hm | rewrite Hm; exact Hz].
Qed.

End Invariants.

Lemma sublist_same_length {A : Type} (l k : list A) :
  l `sublist_of` k -> length l = length k -> l = k.
Proof.
  induction 1 as [| x l k Hs IH | x l k Hs IH]; intros Hl.
  - reflexivity.
  - f_equal. apply IH. simpl in Hl. congruence.
  - apply sublist_length in Hs. simpl in Hl. lia.
Qed.

Section Slots.

Context `{PyAccess}.

(** The slots of the networks alive are kept, in order, by every request. *)
Lemma exec_slots_prefix (w : world) (r : request) :
  (Network.graph_no <$> objects w)
    `prefix_of` (Network.graph_no <$> objects (exec w r)).
Proof.
  destruct r as [num | node_x node_y edge_from edge_to edge_weights twoway
                | obj i]; simpl.
  - reflexivity.
  - destruct (Network.__init__ node_x node_y edge_from edge_to edge_weights
                twoway (module w)) as [[net | e] m]; simpl.
    + rewrite fmap_app. apply prefix_app_r. reflexivity.
    + reflexivity.
  - destruct (objects w !! obj) as [self |] eqn:Hobj; simpl; [| reflexivity].
    destruct (invoke_steady i (self, module w)) as (_ & _ & Hg & _).
    simpl in Hg. rewrite (call_slots w obj self _ Hobj Hg). reflexivity.
Qed.

(** C5: [reserve_num_graphs(num)] succeeds exactly once.  It raises, and
    changes nothing, if the capacity is already set or if [num <= 0]; when it
    returns, the capacity was not set, [num] is positive and the capacity is
    [num]; from then on, whatever the program does, the capacity stays [num]
    and every further call raises.  An engine that accepts the reservation
    makes the first call with a positive [num] return. *)
Theorem reserve_num_graphs_once (num : Z) (m : module_state) :
  (MAX_NUM_NETWORKS m <> 0 ->
   reserve_num_graphs num m
   = (Raised (AssertionError
                "Global memory used so cannot initialize twice"), m))
  /\ (num <= 0 ->
      exists msg, reserve_num_graphs num m = (Raised (AssertionError msg), m))
  /\ (forall m', reserve_num_graphs num m = (Returned tt, m') ->
      MAX_NUM_NETWORKS m = 0 /\ 0 < num /\ MAX_NUM_NETWORKS m' = num
      /\ forall (objs : list Network.t) (rs : list request) (num' : Z),
           let later := module (run rs {| module := m'; objects := objs |}) in
           MAX_NUM_NETWORKS later = num
           /\ reserve_num_graphs num' later
              = (Raised (AssertionError
                           "Global memory used so cannot initialize twice"),
                 later))
  /\ (MAX_NUM_NETWORKS m = 0 -> 0 < num ->
      forall e, create_graphs num (_pyaccess m) = Some e ->
      reserve_num_graphs num m
      = (Returned tt, set_pyaccess e (set_MAX_NUM_NETWORKS num m))).
Proof.
  assert (Hset : forall n m0, MAX_NUM_NETWORKS m0 <> 0 ->
            reserve_num_graphs n m0
            = (Raised (AssertionError
                         "Global memory used so cannot initialize twice"),
               m0)).
  { intros n m0 Hz. rewrite reserve_num_graphs_unfold.
    apply Z.eqb_neq in Hz. rewrite Hz. reflexivity. }
  split; [apply Hset |]. split; [| split].
  - intros Hnum. rewrite reserve_num_graphs_unfold.
    destruct (MAX_NUM_NETWORKS m =? 0); [| eauto].
    assert (Hn : (0 <? num) = false) by (apply Z.ltb_ge; exact Hnum).
    rewrite Hn. eauto.
  - intros m' Hr. rewrite reserve_num_graphs_unfold in Hr.
    destruct (MAX_NUM_NETWORKS m =? 0) eqn:Hz; [| discriminate].
    destruct (0 <? num) eqn:Hpos; [| discriminate].
    apply Z.eqb_eq in Hz. apply Z.ltb_lt in Hpos.
    destruct (create_graphs num (_pyaccess m)) as [e |]; [| discriminate].
    inversion Hr; subst m'. simpl.
    split; [exact Hz |]. split; [exact Hpos |]. split; [reflexivity |].
    intros objs rs num'.
    destruct (run_globals rs
                {| module := set_pyaccess e (set_MAX_NUM_NETWORKS num m);
                   objects := objs |}) as [_ Hmax].
    simpl in Hmax. assert (Hnz : num <> 0) by lia. specialize (Hmax Hnz).
    split; [exact Hmax |]. apply Hset. rewrite Hmax. exact Hnz.
  - intros Hz Hpos e He. rewrite reserve_num_graphs_unfold, Hz.
    apply Z.ltb_lt in Hpos. rewrite Hpos. simpl. rewrite He. reflexivity.
Qed.

(** C6: in every state of a program, a construction that would exceed the
    reserved capacity raises and changes nothing; the networks alive hold
    pairwise distinct slots, each below the capacity, so there are never
    more networks than the capacity; slots are given out in sequence from
    0: a construction that returns got the slot equal to the number of
    slots taken before it, which it raises by one, and as long as every
    construction that took a slot returned, the networks hold the slots 0,
    1, 2, ... in their order of creation; whatever request comes next, the
    networks alive keep their slots. *)
Theorem networks_within_capacity (e : engine) (rs : list request) :
  let w := run rs (imported e) in
  let slots := Network.graph_no <$> objects w in
  (forall node_x node_y edge_from edge_to edge_weights twoway,
     MAX_NUM_NETWORKS (module w) <> 0 ->
     MAX_NUM_NETWORKS (module w) <= NUM_NETWORKS (module w) ->
     Network.__init__ node_x node_y edge_from edge_to edge_weights twoway
       (module w)
     = (Raised (AssertionError
                  "Adding more networks than have been reserved"), module w))
  /\ NoDup slots
  /\ (forall slot, In slot slots ->
        0 <= slot < NUM_NETWORKS (module w)
        /\ NUM_NETWORKS (module w) <= MAX_NUM_NETWORKS (module w))
  /\ len (objects w) <= MAX_NUM_NETWORKS (module w)
  /\ (forall node_x node_y edge_from edge_to edge_weights twoway net m',
        Network.__init__ node_x node_y edge_from edge_to edge_weights twoway
          (module w) = (Returned net, m') ->
        Network.graph_no net = NUM_NETWORKS (module w)
        /\ NUM_NETWORKS m' = NUM_NETWORKS (module w) + 1)
  /\ (len (objects w) = NUM_NETWORKS (module w) ->
      slots = arange (len (objects w)))
  /\ (forall r, slots `prefix_of` (Network.graph_no <$> objects (exec w r))).
Proof.
  intros w slots.
  destruct (run_consistent rs (imported e) (consistent_imported e))
    as [Hcat Hnum Hslots].
  fold w in Hcat, Hnum, Hslots. fold slots in Hslots.
  assert (Hlen : length slots = length (objects w))
    by (unfold slots; apply length_fmap).
  assert (Hle : (length slots <= Z.to_nat (NUM_NETWORKS (module w)))%nat).
  { apply sublist_length in Hslots.
    unfold arange in Hslots. rewrite length_map, length_seq in Hslots.
    exact Hslots. }
  split; [| split; [| split; [| split; [| split; [| split]]]]].
  - intros node_x node_y edge_from edge_to edge_weights twoway Hz Hfull.
    rewrite init_unfold. apply Z.eqb_neq in Hz. rewrite Hz.
    apply take_slot_spec. exact Hfull.
  - exact (sublist_NoDup _ _ (arange_NoDup _) Hslots).
  - intros slot Hin. split; [| lia].
    apply arange_bounds. apply list_elem_of_In.
    apply (sublist_subseteq _ _ Hslots). apply list_elem_of_In. exact Hin.
  - unfold len. lia.
  - intros node_x node_y edge_from edge_to edge_weights twoway net m' Hi.
    destruct (init_spec node_x node_y edge_from edge_to edge_weights twoway
                (module w)) as (_ & _ & _ & _ & Hnet).
    simpl in Hnet. rewrite Hi in Hnet.
    destruct (Hnet net eq_refl) as (_ & Hn & Hg & _). auto.
  - intros Hall. rewrite Hall. apply sublist_same_length; [exact Hslots |].
    unfold arange. rewrite length_map, length_seq, Hlen.
    unfold len in Hall. lia.
  - intros r. apply exec_slots_prefix.
Qed.

(** C8: in every state of a program, every call of [initialize_poi_category]
    and every call of [compute_nearest_pois], whatever its arguments, raises
    [NameError] for the name [CAT_NAME_TO_IND] and changes nothing: the name
    is never bound, so no category is ever registered or queried. *)
Theorem poi_methods_raise_NameError (e : engine) (rs : list request)
  (self : Network.t) :
  let w := run rs (imported e) in
  CAT_NAME_TO_IND (module w) = None
  /\ (forall category xcol ycol,
        Network.initialize_poi_category category xcol ycol (self, module w)
        = (Raised (NameError "CAT_NAME_TO_IND"), (self, module w)))
  /\ (forall distance category,
        Network.compute_nearest_pois distance category (self, module w)
        = (Raised (NameError "CAT_NAME_TO_IND"), (self, module w))).
Proof.
  intros w.
  destruct (run_consistent rs (imported e) (consistent_imported e))
    as [Hcat _ _].
  fold w in Hcat. split; [exact Hcat |]. split.
  - intros. apply initialize_poi_category_unbound. exact Hcat.
  - intros. apply compute_nearest_pois_unbound. exact Hcat.
Qed.

End Slots.

(** ** Looking node ids up *)

Lemma filter_unique_label (node_idx : Series Z) (i : Z) :
  NoDup (index node_idx) ->
  (length (filter (fun entry : Z * Z => fst entry = i) node_idx) <= 1)%nat.
Proof.
  induction node_idx as [| [k v] rest IH]; intros Hnd; [simpl; lia |].
  simpl in Hnd. apply NoDup_cons in Hnd. destruct Hnd as [Hk Hnd].
  rewrite filter_cons. simpl. destruct (decide (k = i)) as [-> | Hne].
  - destruct (filter (fun entry : Z * Z => fst entry = i) rest)
      as [| [k' v'] more] eqn:Hf; [simpl; lia |].
    exfalso.
    assert (Hin : (k', v') ∈ filter (fun entry : Z * Z => fst entry = i) rest)
      by (rewrite Hf; left).
    apply list_elem_of_filter in Hin. destruct Hin as [Heq Hin].
    simpl in Heq. subst k'. apply Hk. unfold index.
    apply list_elem_of_In, in_map_iff. exists (i, v'). split; [reflexivity |].
    apply list_elem_of_In. exact Hin.
  - apply IH. exact Hnd.
Qed.

Lemma node_indexes_cons (node_idx : Series Z) (label : Z) (id : float)
  (rest : Series float) :
  _node_indexes node_idx ((label, id) :: rest)
  = match id with
    | None => [(label, None)]
    | Some i =>
        match filter (fun entry : Z * Z => fst entry = i) node_idx with
        | [] => [(label, None)]
        | found => map (fun entry : Z * Z => (label, Some (snd entry))) found
        end
    end ++ _node_indexes node_idx rest.
Proof. reflexivity. Qed.

Lemma index_app {A : Type} (a b : Series A) :
  index (a ++ b) = index a ++ index b.
Proof. apply map_app. Qed.

(** With distinct node ids the merge keeps the rows of [node_ids] as they
    are, one for one. *)
Lemma node_indexes_index (node_idx : Series Z) (node_ids : Series float) :
  NoDup (index node_idx) ->
  index (_node_indexes node_idx node_ids) = index node_ids.
Proof.
  intros Hnd.
  induction node_ids as [| [label id] rest IH]; [reflexivity |].
  rewrite node_indexes_cons, index_app, IH.
  change (index ((label, id) :: rest)) with (label :: index rest).
  destruct id as [i |]; [| reflexivity].
  pose proof (filter_unique_label node_idx i Hnd) as Hlen.
  destruct (filter (fun entry : Z * Z => fst entry = i) node_idx)
    as [| found [| more rest']]; simpl in *; try reflexivity; lia.
Qed.

(** A row of the merge has a node index exactly when its id is a label of
    [node_idx]. *)
Lemma node_indexes_found (node_idx : Series Z) (node_ids : Series float)
  (label ix : Z) :
  In (label, Some ix) (_node_indexes node_idx node_ids) ->
  exists i, In (label, Some i) node_ids /\ In (i, ix) node_idx.
Proof.
  unfold _node_indexes. rewrite in_flat_map.
  intros ([label' id] & Hrow & Hin). destruct id as [i |].
  - destruct (filter (fun entry : Z * Z => fst entry = i) node_idx)
      as [| found more] eqn:Hf.
    + simpl in Hin. destruct Hin as [Hin | []]. discriminate.
    + apply in_map_iff in Hin. destruct Hin as ([k v] & Heq & Hfound).
      inversion Heq; subst. exists i. split; [exact Hrow |].
      rewrite <- Hf in Hfound. apply list_elem_of_In in Hfound.
      apply list_elem_of_filter in Hfound. destruct Hfound as [Hk Hin].
      simpl in Hk. subst k. apply list_elem_of_In. exact Hin.
  - simpl in Hin. destruct Hin as [Hin | []]. discriminate.
Qed.

Section FirstNetwork.

Context `{PyAccess}.

(** The inputs of the constructor are indexed as its docstring asks: the
    node series share an index of distinct ids, the edge series and the
    weights share an index of distinct labels, no weight column is called
    [from] or [to], and every weight column is as long as the index, as the
    columns of a frame are. *)
Definition well_indexed (node_x node_y : Series float)
  (edge_from edge_to : Series Z) (edge_weights : DataFrame) : Prop :=
  index node_x = index node_y
  /\ NoDup (index node_x)
  /\ index edge_from = index edge_to
  /\ index edge_from = df_index edge_weights
  /\ contains "from" (columns edge_weights) = false
  /\ contains "to" (columns edge_weights) = false
  /\ NoDup (index edge_from)
  /\ Forall (fun col : string * list float =>
               length (snd col) = length (df_index edge_weights))
       (df_columns edge_weights).

End FirstNetwork.

Section NearestPois.

Context `{PyAccess}.

(** The category has an index in [CAT_NAME_TO_IND]. *)
Definition configured (category : string) (m : module_state) : Prop :=
  exists d ind, CAT_NAME_TO_IND m = Some d /\ d !! category = Some ind.

(** C7: [compute_nearest_pois] raises for a category that is not
    configured, whatever the distance, and the query does not proceed: the
    state, and the engine in it, are as before the call.  In every state of
    a program no category is configured, so the call raises for every
    distance, a distance that is not positive included. *)
Theorem compute_nearest_pois_unconfigured (distance : float)
  (category : string) (s : Network.t * module_state) :
  ~ configured category (snd s) ->
  (exists e,
     Network.compute_nearest_pois distance category s = (Raised e, s)
     /\ (e = NameError "CAT_NAME_TO_IND"
         \/ e = AssertionError "Category not initialized"))
  /\ (forall (e0 : engine) (rs : list request) (self : Network.t)
        (distance' : float),
        let w := run rs (imported e0) in
        ~ configured category (module w)
        /\ Network.compute_nearest_pois distance' category (self, module w)
           = (Raised (NameError "CAT_NAME_TO_IND"), (self, module w))).
Proof.
  intros Hnot. split.
  - destruct s as [self m]. simpl in Hnot.
    unfold Network.compute_nearest_pois, bind, Network.in_module,
      global_CAT_NAME_TO_IND.
    simpl. destruct (CAT_NAME_TO_IND m) as [d |] eqn:Hcat.
    + unfold has_key. destruct (d !! category) as [ind |] eqn:Hd.
      * exfalso. apply Hnot. exists d, ind. split; [exact Hcat | exact Hd].
      * simpl. eexists. split; [reflexivity | right; reflexivity].
    + eexists. split; [reflexivity | left; reflexivity].
  - intros e0 rs self distance' w.
    destruct (run_consistent rs (imported e0) (consistent_imported e0))
      as [Hcat _ _].
    fold w in Hcat. split.
    + intros (d & ind & Hd & _). congruence.
    + apply compute_nearest_pois_unbound. exact Hcat.
Qed.

End NearestPois.

(** ** Names *)

Lemma contains_In (name : string) (names : list string) :
  contains name names = true <-> In name names.
Proof.
  unfold contains. rewrite existsb_exists. split.
  - intros (n & Hin & Heq). apply String.eqb_eq in Heq. subst n. exact Hin.
  - intros Hin. exists name. split; [exact Hin | apply String.eqb_refl].
Qed.

Lemma contains_not_In (name : string) (names : list string) :
  contains name names = false <-> ~ In name names.
Proof.
  rewrite <- contains_In. destruct (contains name names); split; intros Hc;
    try discriminate; try reflexivity; try (intros Ht; discriminate).
  exfalso. apply Hc. reflexivity.
Qed.

Lemma position_contains (name : string) (names : list string) :
  contains name names = true ->
  exists i, position name names = Some i /\ 0 <= i < len names.
Proof.
  unfold len. induction names as [| n rest IH]; simpl; [discriminate |].
  destruct (String.eqb name n).
  - intros _. exists 0. split; [reflexivity | lia].
  - simpl. intros Hc. destruct (IH Hc) as (i & Hi & Hb).
    exists (Z.succ i). rewrite Hi. split; [reflexivity | lia].
Qed.

Lemma AGGREGATIONS_keys (key : string) :
  AGGREGATIONS !! key = None <-> ~ In key ["SUM"; "AVE"; "STD"; "COUNT"].
Proof.
  unfold AGGREGATIONS. rewrite !lookup_insert_None, lookup_empty. simpl.
  intuition.
Qed.

Lemma DECAYS_keys (key : string) :
  DECAYS !! key = None <-> ~ In key ["EXP"; "LINEAR"; "FLAT"].
Proof.
  unfold DECAYS. rewrite !lookup_insert_None, lookup_empty. simpl.
  intuition.
Qed.

(** The statements of [aggregate] from the check of the impedance name on,
    when one of the two names left is not known. *)
Ltac aggregate_tail Hbad :=
  unfold assert_ at 1;
  match goal with
  | |- context [contains ?n (Network.impedance_names ?self)] =>
      let Hc := fresh "Hc" in
      destruct (contains n (Network.impedance_names self)) eqn:Hc;
      [| eexists; split; [reflexivity | right; eauto]];
      simpl; unfold list_index at 1;
      let i := fresh "i" in
      destruct (position_contains _ _ Hc) as (i & -> & _); simpl;
      apply contains_In in Hc;
      destruct Hbad as [Hbad | Hbad]; [exfalso; apply Hbad; simpl |];
      [| apply contains_not_In in Hbad; unfold assert_; rewrite Hbad; simpl;
         eexists; split; [reflexivity | right; eauto]]
  end.

Section Aggregate.

Context `{PyAccess}.

(** What a network has become after the method calls made on it so far,
    whatever the module state they found. *)
Inductive lived (net : Network.t) : list invocation -> Network.t -> Prop :=
| lived_new : lived net [] net
| lived_call (calls : list invocation) (self : Network.t) (i : invocation)
    (m : module_state) :
    lived net calls self ->
    lived net (calls ++ [i]) (fst (invoke i (self, m))).

(** Over its life a network keeps its slot, its node ids and its impedance
    names, and its variable names were all passed to [set]. *)
Lemma lived_steady (net self : Network.t) (calls : list invocation) :
  lived net calls self ->
  Network.graph_no self = Network.graph_no net
  /\ Network.node_idx self = Network.node_idx net
  /\ Network.impedance_names self = Network.impedance_names net
  /\ (forall n, In n (Network.variable_names self) ->
        In n (Network.variable_names net)
        \/ exists node_ids variable, In (Set_ node_ids variable n) calls).
Proof.
  induction 1 as [| calls self i m Hl (Hg & Hi & Himp & Hv)].
  - repeat split; auto.
  - destruct (invoke_steady i (self, m))
      as (_ & _ & Hg' & Hi' & _ & Himp' & Hv').
    simpl in *. repeat split; try congruence.
    intros n Hn. destruct (Hv' n Hn) as [Hold | Hnew].
    + destruct (Hv n Hold) as [? | (ids & var & Hin)]; [auto |].
      right. exists ids, var. apply in_or_app. left. exact Hin.
    + right. destruct i; simpl in Hnew; try contradiction.
      destruct Hnew as [<- | []]. eexists _, _. apply in_or_app.
      right. left. reflexivity.
Qed.

(** The impedance to use is known: the one named, when it is one of the
    network's; the only one, when none is named. *)
Definition impedance_known (imp_name : option string) (names : list string)
  : Prop :=
  match imp_name with
  | Some n => In n names
  | None => length names = 1%nat
  end.

(** [aggregate] once its four names are validated: the call of the engine
    and the series made of its answer. *)
Definition aggregate_answer (distance : float) (agg decay imp_num varnum : Z)
  (s : Network.t * module_state) : outcome (Series float) * (Network.t * module_state) :=
  match get_all_aggregate_accessibility_variables distance varnum agg decay
          (Network.graph_no (fst s)) imp_num (_pyaccess (snd s)) with
  | Some (res, e) =>
      pd_Series res (Network.node_ids (fst s))
        (fst s, set_pyaccess e (snd s))
  | None =>
      (Raised (ExtensionError "get_all_aggregate_accessibility_variables"), s)
  end.

Lemma aggregate_unrecognized (distance : float) (type decay : string)
  (imp_name : option string) (name : string)
  (s : Network.t * module_state) :
  ~ In (upper type) ["SUM"; "AVE"; "STD"; "COUNT"]
  \/ ~ In (upper decay) ["EXP"; "LINEAR"; "FLAT"]
  \/ ~ impedance_known imp_name (Network.impedance_names (fst s))
  \/ ~ In name (Network.variable_names (fst s)) ->
  exists e,
    Network.aggregate distance type decay imp_name name s = (Raised e, s)
    /\ ((exists key, e = KeyError key) \/ (exists msg, e = AssertionError msg)).
Proof.
  destruct s as [self m]. simpl. intros Hbad.
  unfold Network.aggregate, bind, getitem, Network.getattr, gets. simpl.
  destruct (AGGREGATIONS !! upper type) as [agg |] eqn:Hagg;
    [| eexists; split; [reflexivity | left; eauto]].
  destruct (DECAYS !! upper decay) as [dec |] eqn:Hdec;
    [| eexists; split; [reflexivity | left; eauto]].
  simpl.
  assert (Ha : In (upper type) ["SUM"; "AVE"; "STD"; "COUNT"]).
  { destruct (in_dec string_dec (upper type) ["SUM"; "AVE"; "STD"; "COUNT"])
      as [Hin | Hout]; [exact Hin |].
    apply AGGREGATIONS_keys in Hout. congruence. }
  assert (Hd : In (upper decay) ["EXP"; "LINEAR"; "FLAT"]).
  { destruct (in_dec string_dec (upper decay) ["EXP"; "LINEAR"; "FLAT"])
      as [Hin | Hout]; [exact Hin |].
    apply DECAYS_keys in Hout. congruence. }
  destruct Hbad as [Hbad | [Hbad | Hbad]]; try contradiction.
  destruct imp_name as [n |]; simpl.
  - aggregate_tail Hbad. exact Hc.
  - unfold assert_ at 1, len.
    destruct (Z.of_nat (length (Network.impedance_names self)) =? 1)
      eqn:Hone; [| eexists; split; [reflexivity | right; eauto]].
    simpl. aggregate_tail Hbad. apply Z.eqb_eq in Hone. lia.
Qed.

Lemma aggregate_recognized (distance : float) (type decay : string)
  (imp_name : option string) (name : string)
  (s : Network.t * module_state) :
  In (upper type) ["SUM"; "AVE"; "STD"; "COUNT"] ->
  In (upper decay) ["EXP"; "LINEAR"; "FLAT"] ->
  impedance_known imp_name (Network.impedance_names (fst s)) ->
  In name (Network.variable_names (fst s)) ->
  exists agg dec imp_num varnum,
    AGGREGATIONS !! upper type = Some agg
    /\ DECAYS !! upper decay = Some dec
    /\ Network.aggregate distance type decay imp_name name s
       = aggregate_answer distance agg dec imp_num varnum s.
Proof.
  destruct s as [self m]. simpl. intros Ha Hd Hi Hv.
  destruct (AGGREGATIONS !! upper type) as [agg |] eqn:Hagg;
    [| apply AGGREGATIONS_keys in Hagg; contradiction].
  destruct (DECAYS !! upper decay) as [dec |] eqn:Hdec;
    [| apply DECAYS_keys in Hdec; contradiction].
  set (n := match imp_name with
            | Some n => n
            | None => hd "" (Network.impedance_names self)
            end).
  assert (Hn : contains n (Network.impedance_names self) = true).
  { apply contains_In. unfold n. destruct imp_name as [n' |]; [exact Hi |].
    simpl in Hi.
    destruct (Network.impedance_names self) as [| n' [| n'' rest]];
      simpl in *; try discriminate. left. reflexivity. }
  destruct (position_contains _ _ Hn) as (imp_num & Himp & _).
  apply contains_In in Hv.
  destruct (position_contains _ _ Hv) as (varnum & Hvar & _).
  exists agg, dec, imp_num, varnum.
  split; [reflexivity |]. split; [reflexivity |].
  unfold Network.aggregate, bind, getitem, Network.getattr, gets.
  rewrite Hagg, Hdec. simpl.
  assert (Hresolve :
            match imp_name with
            | Some n0 => ret n0
            | None =>
                bind (assert_ (len (Network.impedance_names self) =? 1)
                        "must pass impedance name if there are multiple impedances set")
                  (fun _ => ret (hd "" (Network.impedance_names self)))
            end (self, m) = (Returned n, (self, m))).
  { unfold n. destruct imp_name as [n' |]; [reflexivity |].
    simpl in Hi. unfold bind, len. rewrite Hi. reflexivity. }
  unfold bind in Hresolve. rewrite Hresolve.
  rewrite Hn. simpl. unfold list_index. rewrite Himp. simpl.
  rewrite Hv. simpl. rewrite Hvar. simpl.
  unfold aggregate_answer, Network.in_module, call_value. simpl.
  destruct (get_all_aggregate_accessibility_variables distance varnum agg dec
              (Network.graph_no self) imp_num (_pyaccess m))
    as [[res e] |]; reflexivity.
Qed.

End Aggregate.

Section AggregateClaims.

Context `{PyAccess}.

Lemma impedance_known_dec (imp_name : option string) (names : list string) :
  {impedance_known imp_name names} + {~ impedance_known imp_name names}.
Proof.
  destruct imp_name as [n |]; simpl.
  - apply in_dec, string_dec.
  - apply Nat.eq_dec.
Qed.

(** What [aggregate] returns is the answer of the engine under the node ids
    of the network. *)
Lemma aggregate_returned (distance : float) (type decay : string)
  (imp_name : option string) (name : string)
  (s s' : Network.t * module_state) (result : Series float) :
  Network.aggregate distance type decay imp_name name s
  = (Returned result, s') ->
  exists res e,
    In (upper type) ["SUM"; "AVE"; "STD"; "COUNT"]
    /\ In (upper decay) ["EXP"; "LINEAR"; "FLAT"]
    /\ impedance_known imp_name (Network.impedance_names (fst s))
    /\ In name (Network.variable_names (fst s))
    /\ (exists agg dec imp_num varnum,
          get_all_aggregate_accessibility_variables distance varnum agg dec
            (Network.graph_no (fst s)) imp_num (_pyaccess (snd s))
          = Some (res, e))
    /\ length res = length (Network.node_ids (fst s))
    /\ result = combine (Network.node_ids (fst s)) res
    /\ s' = (fst s, set_pyaccess e (snd s)).
Proof.
  intros Hagg.
  destruct (in_dec string_dec (upper type) ["SUM"; "AVE"; "STD"; "COUNT"])
    as [Ha | Ha];
    [| destruct (aggregate_unrecognized distance type decay imp_name name s)
         as (e & He & _); [auto | congruence]].
  destruct (in_dec string_dec (upper decay) ["EXP"; "LINEAR"; "FLAT"])
    as [Hd | Hd];
    [| destruct (aggregate_unrecognized distance type decay imp_name name s)
         as (e & He & _); [auto | congruence]].
  destruct (impedance_known_dec imp_name (Network.impedance_names (fst s)))
    as [Hi | Hi];
    [| destruct (aggregate_unrecognized distance type decay imp_name name s)
         as (e & He & _); [auto | congruence]].
  destruct (in_dec string_dec name (Network.variable_names (fst s)))
    as [Hn | Hn];
    [| destruct (aggregate_unrecognized distance type decay imp_name name s)
         as (e & He & _); [auto | congruence]].
  destruct (aggregate_recognized distance type decay imp_name name s
              Ha Hd Hi Hn) as (agg & dec & imp_num & varnum & _ & _ & Heq).
  rewrite Heq in Hagg. unfold aggregate_answer in Hagg.
  destruct (get_all_aggregate_accessibility_variables distance varnum agg dec
              (Network.graph_no (fst s)) imp_num (_pyaccess (snd s)))
    as [[res e] |] eqn:He; [| discriminate].
  unfold pd_Series in Hagg.
  destruct (length res =? length (Network.node_ids (fst s)))%nat eqn:Hlen;
    [| discriminate].
  apply Nat.eqb_eq in Hlen. inversion Hagg; subst.
  exists res, e. repeat split; eauto.
Qed.

(** The id-to-index series of a constructed network numbers the node ids
    given to the constructor, in their order, from 0. *)
Lemma init_node_idx (node_x node_y : Series float)
  (edge_from edge_to : Series Z) (edge_weights : DataFrame) (twoway : bool)
  (m m' : module_state) (net : Network.t) :
  index node_x = index node_y ->
  Network.__init__ node_x node_y edge_from edge_to edge_weights twoway m
  = (Returned net, m') ->
  Network.node_idx net = combine (index node_x) (arange (len node_x)).
Proof.
  rewrite init_unfold. intros Hxy Hi.
  assert (Hc : exists m1,
            construct (NUM_NETWORKS m1) node_x node_y edge_from edge_to
              edge_weights twoway
              (set_NUM_NETWORKS (NUM_NETWORKS m1 + 1) m1)
            = (Returned net, m')).
  { unfold take_slot in Hi.
    destruct (MAX_NUM_NETWORKS m =? 0).
    - destruct (reserve_num_graphs 1 m) as [[[] | e] m1]; [| discriminate].
      destruct (NUM_NETWORKS m1 <? MAX_NUM_NETWORKS m1); [| discriminate].
      exists m1. exact Hi.
    - destruct (NUM_NETWORKS m <? MAX_NUM_NETWORKS m); [| discriminate].
      exists m. exact Hi. }
  destruct Hc as (m1 & Hc). unfold construct in Hc.
  apply bind_returned in Hc. destruct Hc as (nodes_df & m2 & Hn & Hc).
  apply DataFrame2_returned in Hn. destruct Hn as (-> & Hdf).
  specialize (Hdf Hxy). subst nodes_df.
  do 6 (apply bind_returned in Hc; destruct Hc as (? & ? & _ & Hc)).
  inversion Hc; subst net. simpl.
  rewrite (index_frame node_x node_y Hxy). f_equal. f_equal.
  unfold len. f_equal.
  rewrite <- (length_index (combine _ _)), (index_frame node_x node_y Hxy).
  apply length_index.
Qed.

(** C3: on a network made by the constructor and then used, [aggregate]
    raises, with the network, the module and the engine left as they were,
    whenever the aggregation is none of SUM, AVE, STD and COUNT, or the
    decay is none of EXP, LINEAR and FLAT (both read without regard to
    case), or the impedance name is no column of the [edge_weights] given to
    the constructor, or the variable name was never passed to [set] on this
    network.  With the four names known, no [KeyError] and no assertion
    error is raised: the call goes on to the engine. *)
Theorem aggregate_validates_names (node_x node_y : Series float)
  (edge_from edge_to : Series Z) (edge_weights : DataFrame) (twoway : bool)
  (m0 m1 m : module_state) (net self : Network.t) (calls : list invocation)
  (distance : float) (type decay : string) (imp_name : option string)
  (name : string) :
  Network.__init__ node_x node_y edge_from edge_to edge_weights twoway m0
  = (Returned net, m1) ->
  lived net calls self ->
  (~ In (upper type) ["SUM"; "AVE"; "STD"; "COUNT"]
   \/ ~ In (upper decay) ["EXP"; "LINEAR"; "FLAT"]
   \/ ~ impedance_known imp_name (columns edge_weights)
   \/ (forall node_ids variable, ~ In (Set_ node_ids variable name) calls) ->
   exists e,
     Network.aggregate distance type decay imp_name name (self, m)
     = (Raised e, (self, m))
     /\ ((exists key, e = KeyError key)
         \/ (exists msg, e = AssertionError msg)))
  /\ (In (upper type) ["SUM"; "AVE"; "STD"; "COUNT"] ->
      In (upper decay) ["EXP"; "LINEAR"; "FLAT"] ->
      impedance_known imp_name (columns edge_weights) ->
      In name (Network.variable_names self) ->
      (exists agg dec imp_num varnum,
         Network.aggregate distance type decay imp_name name (self, m)
         = aggregate_answer distance agg dec imp_num varnum (self, m))
      /\ forall e,
           fst (Network.aggregate distance type decay imp_name name (self, m))
           = Raised e ->
           (forall key, e <> KeyError key)
           /\ (forall msg, e <> AssertionError msg)).
Proof.
  intros Hinit Hlived.
  destruct (init_spec node_x node_y edge_from edge_to edge_weights twoway m0)
    as (_ & _ & _ & _ & Hnet).
  simpl in Hnet. rewrite Hinit in Hnet.
  destruct (Hnet net eq_refl) as (_ & _ & _ & Hvars & Himps & _).
  destruct (lived_steady net self calls Hlived) as (_ & _ & Himp & Hv).
  rewrite Himps in Himp. rewrite Hvars in Hv.
  split.
  - intros Hbad. apply aggregate_unrecognized. simpl. rewrite Himp.
    destruct Hbad as [Hbad | [Hbad | [Hbad | Hbad]]]; auto.
    right. right. right. intros Hin.
    destruct (Hv name Hin) as [[] | (ids & var & Hset)].
    exact (Hbad ids var Hset).
  - intros Ha Hd Hi Hn.
    destruct (aggregate_recognized distance type decay imp_name name (self, m)
                Ha Hd) as (agg & dec & imp_num & varnum & _ & _ & Heq).
    { simpl. rewrite Himp. exact Hi. }
    { exact Hn. }
    split; [eauto |].
    intros e He. rewrite Heq in He. unfold aggregate_answer in He.
    simpl in He.
    destruct (get_all_aggregate_accessibility_variables distance varnum agg
                dec (Network.graph_no self) imp_num (_pyaccess m))
      as [[res e'] |]; simpl in He.
    + unfold pd_Series in He.
      destruct (length res =? length (Network.node_ids self))%nat;
        simpl in He; [discriminate |].
      inversion He. split; intros; discriminate.
    + inversion He. split; intros; discriminate.
Qed.

Lemma position_In (name : string) (names : list string) (i : Z) :
  position name names = Some i -> In name names.
Proof.
  revert i. induction names as [| n rest IH]; intros i Hi; simpl in Hi;
    [discriminate |].
  destruct (String.eqb name n) eqn:Heq.
  - left. symmetry. apply String.eqb_eq. exact Heq.
  - destruct (position name rest) as [j |]; [| discriminate].
    right. exact (IH j eq_refl).
Qed.

(** The impedance that [aggregate] uses: the one named, or the first of the
    network when no name is given. *)
Definition chosen_impedance (imp_name : option string) (names : list string)
  : string :=
  match imp_name with
  | Some n => n
  | None => hd "" names
  end.

(** [aggregate] returns exactly when its four names are known and the
    engine answers the one call made of them with as many values as the
    network has node ids; the series pairs the node ids with that answer. *)
Lemma aggregate_returns_answer (distance : float) (type decay : string)
  (imp_name : option string) (name : string)
  (s s' : Network.t * module_state) (result : Series float) :
  Network.aggregate distance type decay imp_name name s
  = (Returned result, s') <->
  exists agg dec imp_num varnum res e,
    AGGREGATIONS !! upper type = Some agg
    /\ DECAYS !! upper decay = Some dec
    /\ impedance_known imp_name (Network.impedance_names (fst s))
    /\ position (chosen_impedance imp_name (Network.impedance_names (fst s)))
         (Network.impedance_names (fst s)) = Some imp_num
    /\ position name (Network.variable_names (fst s)) = Some varnum
    /\ get_all_aggregate_accessibility_variables distance varnum agg dec
         (Network.graph_no (fst s)) imp_num (_pyaccess (snd s))
       = Some (res, e)
    /\ length res = length (Network.node_ids (fst s))
    /\ result = combine (Network.node_ids (fst s)) res
    /\ s' = (fst s, set_pyaccess e (snd s)).
Proof.
  destruct s as [self m]. simpl.
  unfold Network.aggregate, bind, getitem, Network.getattr, gets. simpl.
  destruct (AGGREGATIONS !! upper type) as [agg |] eqn:Hagg;
    [| split; [discriminate |];
       intros (? & ? & ? & ? & ? & ? & Hk & _); discriminate].
  destruct (DECAYS !! upper decay) as [dec |] eqn:Hdec;
    [| split; [discriminate |];
       intros (? & ? & ? & ? & ? & ? & _ & Hk & _); discriminate].
  simpl.
  set (imps := Network.impedance_names self).
  set (n := chosen_impedance imp_name imps).
  assert (Hresolve :
            forall (k : string -> Network.method (Series float)),
              (match
                 match imp_name with
                 | Some n0 => ret n0
                 | None =>
                     bind (assert_ (len imps =? 1)
                             "must pass impedance name if there are multiple impedances set")
                       (fun _ => ret (hd "" imps))
                 end (self, m)
               with
               | (Returned a, s1) => k a s1
               | (Raised e, s1) => (Raised e, s1)
               end)
              = if match imp_name with
                   | Some _ => true
                   | None => len imps =? 1
                   end
                then k n (self, m)
                else (Raised
                        (AssertionError
                           "must pass impedance name if there are multiple impedances set"),
                      (self, m))).
  { intros k. unfold n, chosen_impedance.
    destruct imp_name as [n0 |]; [reflexivity |].
    unfold bind, assert_. destruct (len imps =? 1); reflexivity. }
  rewrite Hresolve. clear Hresolve.
  assert (Hone : forall l : list string,
            (len l =? 1) = true <-> length l = 1%nat).
  { intros l. unfold len. rewrite Z.eqb_eq. lia. }
  assert (Hhd : forall l : list string, length l = 1%nat -> In (hd "" l) l).
  { intros [| n0 [| n1 l]] Hl; simpl in *; try discriminate. left.
    reflexivity. }
  destruct (match imp_name with
            | Some _ => true
            | None => len imps =? 1
            end) eqn:Hgiven.
  - destruct (contains n imps) eqn:Hn; simpl.
    + destruct (position_contains _ _ Hn) as (imp_num & Himp & _).
      unfold list_index. rewrite Himp. simpl.
      destruct (contains name (Network.variable_names self)) eqn:Hv; simpl.
      * destruct (position_contains _ _ Hv) as (varnum & Hvar & _).
        rewrite Hvar. simpl. unfold Network.in_module, call_value. simpl.
        destruct (get_all_aggregate_accessibility_variables distance varnum
                    agg dec (Network.graph_no self) imp_num (_pyaccess m))
          as [[res e] |] eqn:He; simpl.
        -- unfold pd_Series.
           destruct (length res =? length (Network.node_ids self))%nat
             eqn:Hlen; simpl.
           ++ apply Nat.eqb_eq in Hlen. split.
              ** intros Hr. inversion Hr; subst.
                 exists agg, dec, imp_num, varnum, res, e.
                 repeat split; try reflexivity; try assumption.
                 unfold impedance_known. fold imps.
                 destruct imp_name as [n0 |];
                   [apply contains_In; exact Hn | apply Hone; exact Hgiven].
              ** intros (agg' & dec' & imp_num' & varnum' & res' & e' & Ha
                         & Hd & _ & Hi & Hvn & He' & _ & -> & ->).
                 inversion Ha; inversion Hd; subst agg' dec'.
                    inversion Hi; subst imp_num'.
                 inversion Hvn; subst varnum'.
                 rewrite He in He'. inversion He'; subst. reflexivity.
           ++ apply Nat.eqb_neq in Hlen. split; [discriminate |].
              intros (agg' & dec' & imp_num' & varnum' & res' & e' & Ha
                      & Hd & _ & Hi & Hvn & He' & Hl & _).
              inversion Ha; inversion Hd; subst agg' dec'.
              inversion Hi; subst imp_num'.
              inversion Hvn; subst varnum'.
              rewrite He in He'. inversion He'; subst. contradiction.
        -- split; [discriminate |].
           intros (agg' & dec' & imp_num' & varnum' & res' & e' & Ha
                   & Hd & _ & Hi & Hvn & He' & _).
           inversion Ha; inversion Hd; subst agg' dec'.
           inversion Hi; subst imp_num'.
           inversion Hvn; subst varnum'.
           rewrite He in He'. discriminate.
      * split; [discriminate |].
        intros (? & ? & ? & varnum' & ? & ? & _ & _ & _ & _ & Hvn & _).
        apply position_In, contains_In in Hvn. congruence.
    + split; [discriminate |].
      intros (? & ? & imp_num' & ? & ? & ? & _ & _ & _ & Hi & _).
      apply position_In, contains_In in Hi. congruence.
  - split; [discriminate |].
    intros (? & ? & ? & ? & ? & ? & _ & _ & Hk & _).
    unfold impedance_known in Hk. fold imps in Hk.
    destruct imp_name as [n0 |]; [discriminate |].
    apply Hone in Hk. congruence.
Qed.

(** C2: on a network made by the constructor from node series with one
    index and then used, [aggregate] returns exactly when the aggregation,
    the decay, the impedance and the variable are known and the engine
    answers the call with one value for each node.  The call is the one for
    the codes of the aggregation and of the decay, the position of the
    impedance among the weight columns and the position of the variable
    among the variables of the network; what is returned is the answer of
    the engine to that call under the node ids given to the constructor, in
    their order: row [k] holds the id of the node of dense index [k] and
    the value number [k] of the answer. *)
Theorem aggregate_indexed_by_node_ids (node_x node_y : Series float)
  (edge_from edge_to : Series Z) (edge_weights : DataFrame) (twoway : bool)
  (m0 m1 m : module_state) (net self : Network.t) (calls : list invocation)
  (distance : float) (type decay : string) (imp_name : option string)
  (name : string) :
  index node_x = index node_y ->
  Network.__init__ node_x node_y edge_from edge_to edge_weights twoway m0
  = (Returned net, m1) ->
  lived net calls self ->
  Network.node_idx self = combine (index node_x) (arange (len node_x))
  /\ (forall result s',
       Network.aggregate distance type decay imp_name name (self, m)
       = (Returned result, s') <->
       exists agg dec imp_num varnum res e,
         AGGREGATIONS !! upper type = Some agg
         /\ DECAYS !! upper decay = Some dec
         /\ impedance_known imp_name (columns edge_weights)
         /\ position (chosen_impedance imp_name (columns edge_weights))
              (columns edge_weights) = Some imp_num
         /\ position name (Network.variable_names self) = Some varnum
         /\ get_all_aggregate_accessibility_variables distance varnum agg
              dec (Network.graph_no net) imp_num (_pyaccess m)
            = Some (res, e)
         /\ length res = length node_x
         /\ result = combine (index node_x) res
         /\ s' = (self, set_pyaccess e m))
  /\ forall (res : list float) (k : nat),
       length res = length node_x ->
       (k < length node_x)%nat ->
       nth_error (combine (index node_x) res) k
       = Some (nth k (index node_x) 0, nth k res None)
       /\ nth_error (Network.node_idx self) k
          = Some (nth k (index node_x) 0, Z.of_nat k).
Proof.
  intros Hxy Hinit Hlived.
  destruct (init_spec node_x node_y edge_from edge_to edge_weights twoway m0)
    as (_ & _ & _ & _ & Hnet).
  simpl in Hnet. rewrite Hinit in Hnet.
  destruct (Hnet net eq_refl) as (_ & _ & _ & _ & Himps & Hids).
  specialize (Hids Hxy).
  destruct (lived_steady net self calls Hlived) as (Hgno & Hidx & Himp & _).
  assert (Hself : Network.node_ids self = index node_x).
  { unfold Network.node_ids in *. rewrite Hidx. exact Hids. }
  assert (Hnode : Network.node_idx self
                  = combine (index node_x) (arange (len node_x))).
  { rewrite Hidx. exact (init_node_idx _ _ _ _ _ _ _ _ _ Hxy Hinit). }
  split; [exact Hnode |]. split.
  - intros result s'. rewrite aggregate_returns_answer. simpl.
    rewrite Himp, Himps, Hself, Hgno, length_index.
    split.
    + intros (agg & dec & imp_num & varnum & res & e & Ha & Hd & Hk & Hi
              & Hv & He & Hlen & -> & ->).
      exists agg, dec, imp_num, varnum, res, e.
      repeat split; try assumption; try reflexivity.
    + intros (agg & dec & imp_num & varnum & res & e & Ha & Hd & Hk & Hi
              & Hv & He & Hlen & -> & ->).
      exists agg, dec, imp_num, varnum, res, e.
      repeat split; assumption.
  - intros res k Hlen Hk. rewrite Hnode.
    assert (Hrow : forall (A : Type) (data : list A) (d : A),
              length data = length node_x ->
              nth_error (combine (index node_x) data) k
              = Some (nth k (index node_x) 0, nth k data d)).
    { intros A data d Hl. rewrite <- (length_index node_x) in Hl, Hk.
      clear -Hl Hk. revert data k Hl Hk.
      induction (index node_x) as [| i ids IH]; intros [| v data] k Hl Hk;
        simpl in *; try lia.
      destruct k as [| k]; [reflexivity |].
      apply IH; lia. }
    split; [apply Hrow; exact Hlen |].
    rewrite (Hrow Z (arange (len node_x)) 0)
      by (apply length_arange_len).
    f_equal. f_equal. unfold arange, len. rewrite Nat2Z.id.
    rewrite (nth_indep _ 0 (Z.of_nat 0))
      by (rewrite length_map, length_seq; exact Hk).
    rewrite map_nth, seq_nth by exact Hk. reflexivity.
Qed.

End AggregateClaims.

(** ** [set]: the rows kept *)

(** The dense index of a node id, when it is one of the network's. *)
Definition lookup_id (node_idx : Series Z) (i : Z) : option Z :=
  match filter (fun entry : Z * Z => fst entry = i) node_idx with
  | [] => None
  | entry :: _ => Some (snd entry)
  end.

(** The rows that are to reach the engine: for each row of the input whose
    node id is one of the network's and whose value is not missing, the
    dense index of the node and the value. *)
Definition kept_rows (node_idx : Series Z) (node_ids : Series float)
  (data : list float) : list (Z * Z) :=
  omap (fun row : (Z * float) * float =>
          match snd (fst row), snd row with
          | Some id, Some v =>
              match lookup_id node_idx id with
              | Some ix => Some (ix, v)
              | None => None
              end
          | _, _ => None
          end)
       (combine node_ids data).

(** The rows of a frame in which nothing is missing. *)
Definition complete_rows (df : Series (option Z * option Z)) : list (Z * Z) :=
  omap (fun row : Z * (option Z * option Z) =>
          match snd row with
          | (Some v, Some ix) => Some (ix, v)
          | _ => None
          end) df.

Lemma dropna_nodes (df : Series (option Z * option Z)) :
  map (fun row : Z * (option Z * option Z) => snd (snd row)) (dropna df)
  = map Some (map fst (complete_rows df)).
Proof.
  unfold dropna, complete_rows.
  induction df as [| [label [v ix]] rest IH]; [reflexivity |].
  rewrite filter_cons.
  destruct (decide (notnull2 (label, (v, ix)) = true)) as [Hrow | Hrow];
    destruct v as [v |], ix as [ix |]; simpl in *;
    try discriminate; try (exfalso; apply Hrow; reflexivity);
    rewrite IH; reflexivity.
Qed.

Lemma dropna_values (df : Series (option Z * option Z)) :
  map (fun row : Z * (option Z * option Z) => fst (snd row)) (dropna df)
  = map (fun row : Z * Z => Some (snd row)) (complete_rows df).
Proof.
  unfold dropna, complete_rows.
  induction df as [| [label [v ix]] rest IH]; [reflexivity |].
  rewrite filter_cons.
  destruct (decide (notnull2 (label, (v, ix)) = true)) as [Hrow | Hrow];
    destruct v as [v |], ix as [ix |]; simpl in *;
    try discriminate; try (exfalso; apply Hrow; reflexivity);
    rewrite IH; reflexivity.
Qed.

Lemma dropna_shorter {A B : Type} (df : Series (option A * option B)) :
  len (dropna df) <= len df.
Proof. unfold len, dropna. pose proof (length_filter (fun row => notnull2 row = true) df). lia. Qed.

Lemma astype_int32_present {S : Type} (column : list Z) (s : S) :
  astype_int32 (map Some column) s = (Returned column, s).
Proof.
  induction column as [| v rest IH]; [reflexivity |].
  simpl. unfold bind. rewrite IH. reflexivity.
Qed.

Lemma node_indexes_lookup (node_idx : Series Z) (node_ids : Series float) :
  NoDup (index node_idx) ->
  _node_indexes node_idx node_ids
  = map (fun row : Z * float =>
           (fst row, match snd row with
                     | Some i => lookup_id node_idx i
                     | None => None
                     end))
        node_ids.
Proof.
  intros Hnd. induction node_ids as [| [label id] rest IH]; [reflexivity |].
  rewrite node_indexes_cons, IH. simpl. destruct id as [i |]; [| reflexivity].
  unfold lookup_id.
  pose proof (filter_unique_label node_idx i Hnd) as Hlen.
  destruct (filter (fun entry : Z * Z => fst entry = i) node_idx)
    as [| found [| more rest']]; simpl in *; try reflexivity; lia.
Qed.

(** The complete rows of the frame that [set] builds are the rows kept. *)
Lemma complete_rows_kept (node_idx : Series Z) (node_ids variable : Series float) :
  NoDup (index node_idx) ->
  index variable = index node_ids ->
  complete_rows
    (combine (index variable)
       (combine (values variable)
          (values (_node_indexes node_idx node_ids))))
  = kept_rows node_idx node_ids (values variable).
Proof.
  intros Hnd. rewrite (node_indexes_lookup _ _ Hnd).
  unfold complete_rows, kept_rows, index, values.
  revert node_ids.
  induction variable as [| [label v] variable IH];
    intros [| [label' id] node_ids] Hi; simpl in *; try discriminate;
    try reflexivity.
  inversion Hi; subst. specialize (IH node_ids ltac:(assumption)).
  simpl in IH.
  destruct id as [i |], v as [v |]; simpl; try exact IH.
  destruct (lookup_id node_idx i); [f_equal |]; exact IH.
Qed.

Section SetFacts.

Context `{PyAccess}.

(** The frame that [set] builds from its arguments. *)
Definition set_frame (node_ids : Series float)
  (variable : option (Series float)) (name : string) (self : Network.t)
  : Py (Network.t * module_state) (Series (option Z * option Z)) :=
  let variable :=
    match variable with
    | None => map (fun row : Z * float => (fst row, Some 1)) node_ids
    | Some v => v
    end in
  let found := _node_indexes (Network.node_idx self) node_ids in
  if String.eqb name "node_idx"
  then ret (map (fun row : Z * option Z => (fst row, (snd row, snd row))) found)
  else DataFrame2 variable found.

(** The module once the engine is in state [e] and [out] was printed. *)
Definition after (e : engine) (out : list line) (m : module_state)
  : module_state :=
  {| MAX_NUM_NETWORKS := MAX_NUM_NETWORKS m;
     NUM_NETWORKS := NUM_NETWORKS m;
     CAT_NAME_TO_IND := CAT_NAME_TO_IND m;
     _pyaccess := e;
     stdout := stdout m ++ out |}.

(** The statements of [set] that follow the dropping of incomplete rows,
    for the complete rows [rows] (node index and value): the variable is
    declared if its name is new, then initialized with the rows. *)
Definition initialize_rows (name : string) (rows : list (Z * Z))
  (s : Network.t * module_state)
  : outcome unit * (Network.t * module_state) :=
  let self := fst s in
  let m := snd s in
  let names := Network.variable_names self in
  let gno := Network.graph_no self in
  let known := contains name names in
  let self' :=
    if known then self
    else Network.set_variable_names (names ++ [name]) self in
  let declared :=
    if known then Some (_pyaccess m)
    else initialize_acc_vars gno (len (names ++ [name])) (_pyaccess m) in
  match declared with
  | None =>
      (Raised (ExtensionError "initialize_acc_vars"),
       (self', after (_pyaccess m) [Elapsed "up"] m))
  | Some e1 =>
      match position name (Network.variable_names self') with
      | None =>
          (Raised (ValueError "is not in list"),
           (self', after e1 [Elapsed "up"; Describe (length rows)] m))
      | Some varnum =>
          match initialize_acc_var gno varnum (map fst rows)
                  (map (fun row : Z * Z => Some (snd row)) rows) e1 with
          | None =>
              (Raised (ExtensionError "initialize_acc_var"),
               (self', after e1 [Elapsed "up"; Describe (length rows)] m))
          | Some e2 =>
              (Returned tt,
               (self',
                after e2
                  [Elapsed "up"; Describe (length rows); Elapsed ""] m))
          end
      end
  end.

Lemma pure_set_frame (node_ids : Series float)
  (variable : option (Series float)) (name : string) (self : Network.t) :
  pure (set_frame node_ids variable name self).
Proof.
  unfold set_frame. destruct (String.eqb name "node_idx");
    [apply pure_ret | apply pure_DataFrame2].
Qed.

Lemma length_complete_rows (df : Series (option Z * option Z)) :
  length (dropna df) = length (complete_rows df).
Proof.
  rewrite <- (length_map (fun row : Z * (option Z * option Z) => snd (snd row))).
  rewrite dropna_nodes, !length_map. reflexivity.
Qed.

(** [set] builds its frame and then initializes the complete rows. *)
Lemma set_unfold (node_ids : Series float)
  (variable : option (Series float)) (name : string)
  (self : Network.t) (m : module_state) :
  Network.set node_ids variable name (self, m) =
  match set_frame node_ids variable name self (self, m) with
  | (Returned df, _) => initialize_rows name (complete_rows df) (self, m)
  | (Raised e, _) => (Raised e, (self, m))
  end.
Proof.
  pose proof (pure_set_frame node_ids variable name self (self, m)) as Hpure.
  unfold Network.set. unfold bind at 1. unfold Network.getattr at 1.
  unfold gets at 1. cbv beta iota. unfold bind at 1.
  change (set_frame node_ids variable name self (self, m))
    with ((if String.eqb name "node_idx"
           then ret (map (fun row : Z * option Z =>
                            (fst row, (snd row, snd row)))
                       (_node_indexes (Network.node_idx (fst (self, m)))
                          node_ids))
           else DataFrame2
                  match variable with
                  | Some v => v
                  | None => map (fun row : Z * float => (fst row, Some 1))
                              node_ids
                  end
                  (_node_indexes (Network.node_idx (fst (self, m))) node_ids))
            (self, m)) in *.
  match type of Hpure with
  | snd ?c = _ => destruct c as [[df | e] s1]
  end; simpl in Hpure; subst s1; [| reflexivity].
  assert (Hguard : (0 <? len (dropna df) - len df) = false).
  { apply Z.ltb_ge. pose proof (dropna_shorter df). lia. }
  rewrite Hguard. unfold initialize_rows, after. simpl.
  unfold bind, ret, Network.in_module, print, modify, Network.getattr, gets.
  simpl.
  destruct (contains name (Network.variable_names self)) eqn:Hknown; simpl.
  - unfold list_index. rewrite length_complete_rows.
    destruct (position name (Network.variable_names self)) as [varnum |];
      simpl; [| unfold set_stdout; simpl; rewrite <- !app_assoc; reflexivity].
    rewrite dropna_nodes, dropna_values, astype_int32_present.
    unfold call. simpl.
    destruct (initialize_acc_var (Network.graph_no self) varnum
                (map fst (complete_rows df))
                (map (fun row : Z * Z => Some (snd row)) (complete_rows df))
                (_pyaccess m));
      unfold set_stdout, set_pyaccess; simpl; rewrite <- !app_assoc;
      reflexivity.
  - unfold call at 1. simpl.
    destruct (initialize_acc_vars (Network.graph_no self)
                (len (Network.variable_names self ++ [name])) (_pyaccess m))
      as [e1 |]; simpl; [| reflexivity].
    unfold list_index. rewrite length_complete_rows.
    destruct (position name (Network.variable_names self ++ [name]))
      as [varnum |]; simpl;
      [| unfold set_stdout, set_pyaccess; simpl; rewrite <- !app_assoc;
         reflexivity].
    rewrite dropna_nodes, dropna_values, astype_int32_present.
    unfold call. simpl.
    destruct (initialize_acc_var (Network.graph_no self) varnum
                (map fst (complete_rows df))
                (map (fun row : Z * Z => Some (snd row)) (complete_rows df))
                e1);
      unfold set_stdout, set_pyaccess; simpl; rewrite <- !app_assoc;
      reflexivity.
Qed.

End SetFacts.

Section SetClaim.

Context `{PyAccess}.

(** The values [set] is given, or the ones it takes in their place. *)
Definition set_values (node_ids : Series float)
  (variable : option (Series float)) : list float :=
  match variable with
  | Some v => values v
  | None => map (fun _ : Z * float => Some 1) node_ids
  end.

Lemma set_frame_returns (node_ids : Series float)
  (variable : option (Series float)) (name : string)
  (self : Network.t) (s : Network.t * module_state) :
  NoDup (Network.node_ids self) ->
  (forall v, variable = Some v -> index v = index node_ids) ->
  exists df,
    set_frame node_ids variable name self s = (Returned df, s)
    /\ (name <> "node_idx" ->
        complete_rows df
        = kept_rows (Network.node_idx self) node_ids
            (set_values node_ids variable)).
Proof.
  intros Hnd Hv. unfold set_frame.
  destruct (String.eqb name "node_idx") eqn:Hname.
  - eexists. split; [reflexivity |]. intros Hne.
    apply String.eqb_eq in Hname. contradiction.
  - set (var := match variable with
                | Some v => v
                | None => map (fun row : Z * float => (fst row, Some 1))
                            node_ids
                end).
    assert (Hi : index var = index node_ids).
    { unfold var. destruct variable as [v |]; [apply Hv; reflexivity |].
      unfold index. rewrite map_map. reflexivity. }
    assert (Hd : set_values node_ids variable = values var).
    { unfold var, set_values. destruct variable as [v |]; [reflexivity |].
      unfold values. rewrite map_map. reflexivity. }
    rewrite DataFrame2_aligned
      by (rewrite node_indexes_index by exact Hnd; exact Hi).
    eexists. split; [reflexivity |]. intros _.
    rewrite Hd. apply complete_rows_kept; assumption.
Qed.




End SetClaim.

(** ** The range search of the engine *)

Lemma filter_all {A : Type} (P : A -> Prop) `{forall x, Decision (P x)}
  (l : list A) :
  Forall P l -> filter P l = l.
Proof.
  induction 1 as [| x l Hx Hl IH]; [reflexivity |].
  rewrite filter_cons_True by exact Hx. f_equal. exact IH.
Qed.

Lemma filter_none {A : Type} (P : A -> Prop) `{forall x, Decision (P x)}
  (l : list A) :
  Forall (fun x => ~ P x) l -> filter P l = [].
Proof.
  induction 1 as [| x l Hx Hl IH]; [reflexivity |].
  rewrite filter_cons_False by exact Hx. exact IH.
Qed.

Lemma length_vec_add (a b : list Z) :
  length (Engine.vec_add a b) = Nat.min (length a) (length b).
Proof.
  revert b. induction a as [| x a IH]; intros [| y b]; simpl;
    try reflexivity.
  f_equal. apply IH.
Qed.

Lemma nth_vec_add (a b : list Z) (r : nat) :
  (r < length a)%nat -> (r < length b)%nat ->
  nth r (Engine.vec_add a b) 0 = nth r a 0 + nth r b 0.
Proof.
  revert a b. induction r as [| r IH]; intros [| x a] [| y b] Ha Hb;
    simpl in *; try lia.
  apply IH; lia.
Qed.

Section RangeSearch.

Variable g : Engine.graph.
Variable r : nat.

Hypothesis graph_ok : Engine.well_formed g = true.
Hypothesis channel : (r < Engine.channels g)%nat.

(** A label with a distance for every impedance of the graph. *)
Definition full (l : Engine.label) : Prop :=
  length (Engine.dists l) = Engine.channels g.

Lemma extract_min_spec (queue rest : list Engine.label) (l : Engine.label) :
  Engine.extract_min r queue = Some (l, rest) ->
  In l queue
  /\ (forall x, In x rest -> In x queue)
  /\ (forall x, In x queue -> Engine.key r l <= Engine.key r x)
  /\ length queue = S (length rest).
Proof.
  revert rest l. induction queue as [| x queue IH]; intros rest l;
    simpl; [discriminate |].
  destruct (Engine.extract_min r queue) as [[m rest'] |] eqn:Hq.
  - destruct (IH rest' m eq_refl) as (Hin & Hrest & Hmin & Hlen).
    destruct (Engine.key r x <=? Engine.key r m) eqn:Hle; intros He;
      inversion He; subst.
    + apply Z.leb_le in Hle. repeat split; auto.
      intros y [-> | Hy]; [lia |]. specialize (Hmin y Hy). lia.
    + apply Z.leb_gt in Hle. repeat split.
      * right. exact Hin.
      * intros y [-> | Hy]; [left; reflexivity | right; auto].
      * intros y [-> | Hy]; [lia | auto].
      * simpl. lia.
  - intros He. inversion He; subst. destruct queue as [| y queue].
    + repeat split; simpl; auto. intros y [-> | []]. lia.
    + simpl in Hq. destruct (Engine.extract_min r queue) as [[m rest'] |];
        [destruct (Engine.key r y <=? Engine.key r m) |]; discriminate.
Qed.

Lemma extract_min_None (queue : list Engine.label) :
  Engine.extract_min r queue = None -> queue = [].
Proof.
  destruct queue as [| x queue]; [reflexivity |]. simpl.
  destruct (Engine.extract_min r queue) as [[m rest] |];
    [destruct (Engine.key r x <=? Engine.key r m) |]; discriminate.
Qed.

Lemma arc_ok_spec (a : Engine.arc) :
  In a (Engine.arcs g) ->
  length (Engine.weights a) = Engine.channels g
  /\ 0 <= nth r (Engine.weights a) 0.
Proof.
  intros Hin. unfold Engine.well_formed in graph_ok.
  rewrite forallb_forall in graph_ok. specialize (graph_ok a Hin).
  unfold Engine.arc_ok in graph_ok. apply andb_true_iff in graph_ok.
  destruct graph_ok as [Hlen Hpos]. apply Nat.eqb_eq in Hlen.
  split; [exact Hlen |].
  rewrite forallb_forall in Hpos. apply Z.leb_le, Hpos, nth_In. lia.
Qed.

(** Relaxing a full label gives full labels that are no closer. *)
Lemma relax_spec (l x : Engine.label) :
  full l -> In x (Engine.relax g l) ->
  full x /\ Engine.key r l <= Engine.key r x.
Proof.
  unfold full, Engine.relax, Engine.out. intros Hl Hx.
  apply in_map_iff in Hx. destruct Hx as (a & <- & Ha).
  apply list_elem_of_In, list_elem_of_filter in Ha. destruct Ha as [_ Ha].
  apply list_elem_of_In in Ha.
  destruct (arc_ok_spec a Ha) as [Hlen Hpos]. simpl. split.
  - rewrite length_vec_add. lia.
  - unfold Engine.key. simpl. rewrite nth_vec_add by lia. lia.
Qed.

(** Past the cutoff [d]: a search whose queue holds only labels farther
    than [d] settles only such labels. *)
Lemma search_beyond (d cutoff : Z) (fuel : nat)
  (settled frontier : list Engine.label) :
  Forall (fun x => full x /\ d < Engine.key r x) frontier ->
  exists later,
    Engine.search g r cutoff fuel settled frontier = later ++ settled
    /\ Forall (fun x => d < Engine.key r x) later.
Proof.
  revert settled frontier.
  induction fuel as [| fuel IH]; intros settled frontier Hf; simpl.
  - exists []. split; [reflexivity | constructor].
  - destruct (Engine.extract_min r frontier) as [[l rest] |] eqn:Hq;
      [| exists []; split; [reflexivity | constructor]].
    destruct (extract_min_spec _ _ _ Hq) as (Hin & Hrest & Hmin & _).
    rewrite Forall_forall in Hf.
    assert (Hl : full l /\ d < Engine.key r l)
      by (apply Hf, list_elem_of_In, Hin).
    assert (Hr : Forall (fun x => full x /\ d < Engine.key r x) rest).
    { apply Forall_forall. intros x Hx. apply Hf, list_elem_of_In, Hrest.
      apply list_elem_of_In. exact Hx. }
    destruct (cutoff <? Engine.key r l);
      [exists []; split; [reflexivity | constructor] |].
    destruct (Engine.is_settled (Engine.node l) settled).
    + apply IH. exact Hr.
    + destruct (IH (l :: settled) (rest ++ Engine.relax g l))
        as (later & Heq & Hlater).
      * apply Forall_app. split; [exact Hr |].
        apply Forall_forall. intros x Hx. apply list_elem_of_In in Hx.
        destruct (relax_spec l x (proj1 Hl) Hx) as [Hfull Hkey].
        split; [exact Hfull | lia].
      * exists (later ++ [l]). rewrite Heq, <- app_assoc. split;
          [reflexivity |].
        apply Forall_app. split; [exact Hlater |].
        constructor; [exact (proj2 Hl) | constructor].
Qed.

(** Up to the smaller cutoff the two searches run alike: the search for the
    larger cutoff settles what the search for the smaller one settles, then
    only labels farther than the smaller cutoff. *)
Lemma search_prefix (d1 d2 : Z) (fuel : nat)
  (settled frontier : list Engine.label) :
  d1 <= d2 ->
  Forall full frontier ->
  Forall (fun x => Engine.key r x <= d1) settled ->
  exists later,
    Engine.search g r d2 fuel settled frontier
    = later ++ Engine.search g r d1 fuel settled frontier
    /\ Forall (fun x => d1 < Engine.key r x) later
    /\ Forall (fun x => Engine.key r x <= d1)
         (Engine.search g r d1 fuel settled frontier).
Proof.
  intros Hd. revert settled frontier.
  induction fuel as [| fuel IH]; intros settled frontier Hf Hs.
  - exists []. simpl. repeat split; [constructor | exact Hs].
  - destruct (Engine.extract_min r frontier) as [[l rest] |] eqn:Hq.
    + destruct (extract_min_spec _ _ _ Hq) as (Hin & Hrest & Hmin & _).
      assert (Hl : full l).
      { rewrite Forall_forall in Hf. apply Hf, list_elem_of_In, Hin. }
      assert (Hr : Forall full rest).
      { rewrite Forall_forall in Hf. apply Forall_forall. intros x Hx.
        apply Hf, list_elem_of_In, Hrest. apply list_elem_of_In. exact Hx. }
      destruct (Z_lt_le_dec d1 (Engine.key r l)) as [Hfar | Hnear].
      * destruct (search_beyond d1 d2 (S fuel) settled frontier)
          as (later & Heq & Hlater).
        { rewrite Forall_forall in Hf. apply Forall_forall. intros x Hx.
          split; [apply Hf, Hx |].
          apply list_elem_of_In in Hx. specialize (Hmin x Hx). lia. }
        exists later. rewrite Heq. simpl. rewrite Hq.
        apply Z.ltb_lt in Hfar. rewrite Hfar.
        repeat split; [exact Hlater | exact Hs].
      * simpl. rewrite Hq.
        assert (H1 : (d1 <? Engine.key r l) = false) by (apply Z.ltb_ge; lia).
        assert (H2 : (d2 <? Engine.key r l) = false) by (apply Z.ltb_ge; lia).
        rewrite H1, H2.
        destruct (Engine.is_settled (Engine.node l) settled).
        -- apply IH; assumption.
        -- apply IH.
           ++ apply Forall_app. split; [exact Hr |].
              apply Forall_forall. intros x Hx. apply list_elem_of_In in Hx.
              exact (proj1 (relax_spec l x Hl Hx)).
           ++ constructor; assumption.
    + exists []. simpl. rewrite Hq. repeat split; [constructor | exact Hs].
Qed.

End RangeSearch.

(** ** The search ends within its fuel *)

Section SearchFuel.

Variable g : Engine.graph.
Variable r : nat.

Lemma settle_work (l : Engine.label) (settled : list Engine.label) :
  Engine.is_settled (Engine.node l) settled = false ->
  length (filter (fun a => Engine.is_settled (Engine.source a) settled = false)
            (Engine.arcs g))
  = (length (Engine.out g (Engine.node l))
     + length (filter
                 (fun a =>
                    Engine.is_settled (Engine.source a) (l :: settled) = false)
                 (Engine.arcs g)))%nat.
Proof.
  intros Hl. unfold Engine.out.
  induction (Engine.arcs g) as [| a arcs IH]; [reflexivity |].
  rewrite !filter_cons.
  assert (Hcons : Engine.is_settled (Engine.source a) (l :: settled)
                  = (Engine.node l =? Engine.source a)
                    || Engine.is_settled (Engine.source a) settled)
    by reflexivity.
  destruct (decide (Engine.source a = Engine.node l)) as [Heq | Hne].
  - assert (Hold : Engine.is_settled (Engine.source a) settled = false)
      by (rewrite Heq; exact Hl).
    assert (Hnew : Engine.is_settled (Engine.source a) (l :: settled) = true)
      by (rewrite Hcons, Heq, Z.eqb_refl; reflexivity).
    destruct (decide (Engine.is_settled (Engine.source a) settled = false));
      [| contradiction].
    destruct (decide (Engine.is_settled (Engine.source a) (l :: settled)
                      = false)); [congruence |].
    cbn [length]. rewrite IH. reflexivity.
  - assert (Hsame : Engine.is_settled (Engine.source a) (l :: settled)
                    = Engine.is_settled (Engine.source a) settled).
    { rewrite Hcons.
      replace (Engine.node l =? Engine.source a) with false; [reflexivity |].
      symmetry. apply Z.eqb_neq. congruence. }
    destruct (decide (Engine.is_settled (Engine.source a) settled = false));
      destruct (decide (Engine.is_settled (Engine.source a) (l :: settled)
                        = false));
      try congruence; cbn [length]; rewrite IH; lia.
Qed.

(** Fuel beyond the work left changes nothing. *)
Lemma search_fuel (cutoff : Z) (fuel fuel' : nat)
  (settled frontier : list Engine.label) :
  (Engine.work g settled frontier <= fuel)%nat ->
  (Engine.work g settled frontier <= fuel')%nat ->
  Engine.search g r cutoff fuel settled frontier
  = Engine.search g r cutoff fuel' settled frontier.
Proof.
  revert fuel' settled frontier.
  induction fuel as [| fuel IH]; intros fuel' settled frontier Hw Hw'.
  - assert (Hnil : frontier = []).
    { unfold Engine.work in Hw. destruct frontier; [reflexivity |].
      simpl in Hw. lia. }
    subst frontier. destruct fuel'; reflexivity.
  - destruct fuel' as [| fuel'].
    + assert (Hnil : frontier = []).
      { unfold Engine.work in Hw'. destruct frontier; [reflexivity |].
        simpl in Hw'. lia. }
      subst frontier. reflexivity.
    + simpl.
      destruct (Engine.extract_min r frontier) as [[l rest] |] eqn:Hq;
        [| reflexivity].
      destruct (cutoff <? Engine.key r l); [reflexivity |].
      assert (Hlen : length frontier = S (length rest)).
      { clear - Hq. revert l rest Hq.
        induction frontier as [| x frontier IHf]; intros l rest;
          simpl; [discriminate |].
        destruct (Engine.extract_min r frontier) as [[m rest'] |] eqn:Hq'.
        - specialize (IHf m rest' eq_refl).
          destruct (Engine.key r x <=? Engine.key r m); intros He;
            inversion He; subst; simpl; lia.
        - intros He. inversion He; subst.
          destruct frontier; [reflexivity |]. simpl in Hq'.
          destruct (Engine.extract_min r frontier) as [[m rest'] |];
            [destruct (Engine.key r l0 <=? Engine.key r m) |];
            discriminate. }
      unfold Engine.work in Hw, Hw'.
      destruct (Engine.is_settled (Engine.node l) settled) eqn:Hs.
      * apply IH; unfold Engine.work; lia.
      * pose proof (settle_work l settled Hs) as Hsplit.
        assert (Hrelax : length (Engine.relax g l)
                         = length (Engine.out g (Engine.node l)))
          by (unfold Engine.relax; apply length_map).
        apply IH; unfold Engine.work; rewrite length_app, Hrelax; lia.
Qed.

(** The fuel of [range_query] pays for the whole search: more fuel gives
    the same reachable set. *)
Lemma range_query_fuel (cutoff s : Z) (extra : nat) :
  Engine.search g r cutoff (S (length (Engine.arcs g)) + extra) []
    (Engine.start g s)
  = Engine.range_query g r cutoff s.
Proof.
  unfold Engine.range_query.
  assert (Hw : (Engine.work g [] (Engine.start g s)
                <= S (length (Engine.arcs g)))%nat).
  { unfold Engine.work, Engine.start. cbn [length].
    pose proof (length_filter
                  (fun a => Engine.is_settled (Engine.source a) [] = false)
                  (Engine.arcs g)).
    lia. }
  apply search_fuel; lia.
Qed.

End SearchFuel.

(** ** Graphs built by the engine *)

Lemma build_arcs_weights (edges : list (Z * Z)) (rows : list (list Z))
  (twoway : bool) (i : nat) (a : Engine.arc) :
  In a (Engine.build_arcs edges rows twoway i) ->
  exists j, Engine.weights a = Engine.edge_weights rows j.
Proof.
  revert i. induction edges as [| [u v] edges IH]; intros i; simpl;
    [contradiction |].
  intros Hin. apply in_app_or in Hin. destruct Hin as [Hin | Hin].
  - exists i. destruct twoway; simpl in Hin;
      [destruct Hin as [<- | [<- | []]] | destruct Hin as [<- | []]];
      reflexivity.
  - exact (IH (S i) Hin).
Qed.

Lemma create_graph_well_formed (n : Z) (edges : list (Z * Z))
  (rows : list (list Z)) (twoway : bool) (g : Engine.graph) :
  Engine.create_graph n edges rows twoway = Some g ->
  Engine.well_formed g = true
  /\ Engine.channels g = length rows
  /\ Engine.nodes g = n.
Proof.
  unfold Engine.create_graph.
  destruct (forallb (fun row => (length row =? length edges)%nat) rows
            && forallb (forallb (fun w => 0 <=? w)) rows) eqn:Hok;
    [| discriminate].
  intros Hg. inversion Hg; subst. simpl. split; [| split; reflexivity].
  apply andb_true_iff in Hok. destruct Hok as [_ Hpos].
  unfold Engine.well_formed. simpl. apply forallb_forall. intros a Ha.
  destruct (build_arcs_weights _ _ _ _ _ Ha) as (j & Hw).
  unfold Engine.arc_ok. rewrite Hw. unfold Engine.edge_weights.
  rewrite length_map, Nat.eqb_refl. simpl.
  apply forallb_forall. intros w Hin. apply in_map_iff in Hin.
  destruct Hin as (row & <- & Hrow).
  rewrite forallb_forall in Hpos. specialize (Hpos row Hrow).
  rewrite forallb_forall in Hpos.
  destruct (Nat.lt_ge_cases j (length row)) as [Hlt | Hge].
  - apply Hpos, nth_In, Hlt.
  - rewrite nth_overflow by exact Hge. reflexivity.
Qed.

Lemma nth_arange {A : Type} (f : Z -> A) (n s : Z) (d : A) :
  0 <= s < n -> nth (Z.to_nat s) (map f (arange n)) d = f s.
Proof.
  intros Hs. unfold arange. rewrite map_map.
  rewrite (nth_indep _ d (f (Z.of_nat 0)))
    by (rewrite length_map, length_seq; lia).
  rewrite (map_nth (fun k => f (Z.of_nat k))), seq_nth by lia.
  simpl. rewrite Z2Nat.id by lia. reflexivity.
Qed.

(** C1: on a graph built by the engine, for one reference impedance and one
    source, the set reachable within [d1] is part of the set reachable
    within any [d2 >= d1], node by node with the same distances: the search
    for [d2] settles what the search for [d1] settles and then only nodes
    farther than [d1].  Hence, after [precompute] for [d2], a query for [d1]
    is answered from the cache, without a search, with exactly the set a
    search for [d1] would give. *)
Theorem range_query_monotone (n : Z) (edges : list (Z * Z))
  (rows : list (list Z)) (twoway : bool) (g : Engine.graph) (r : nat)
  (d1 d2 s : Z) :
  Engine.create_graph n edges rows twoway = Some g ->
  (r < length rows)%nat ->
  0 < d1 <= d2 ->
  0 <= s < n ->
  (forall l, In l (Engine.range_query g r d1 s) ->
             In l (Engine.range_query g r d2 s))
  /\ (exists later,
        Engine.range_query g r d2 s = later ++ Engine.range_query g r d1 s
        /\ Forall (fun l => d1 < Engine.key r l) later
        /\ Forall (fun l => Engine.key r l <= d1)
             (Engine.range_query g r d1 s))
  /\ (exists c,
        Engine.precompute g r d2 = Some c
        /\ Engine.query (Some c) g r s d1
           = Some (Engine.range_query g r d1 s, false)).
Proof.
  intros Hg Hr Hd Hs.
  destruct (create_graph_well_formed _ _ _ _ _ Hg) as (Hwf & Hch & Hn).
  rewrite <- Hch in Hr.
  destruct (search_prefix g r Hwf Hr d1 d2 (S (length (Engine.arcs g))) []
              (Engine.start g s)) as (later & Heq & Hlater & Hnear).
  { lia. }
  { unfold Engine.start. constructor; [| constructor].
    unfold full. simpl. apply repeat_length. }
  { constructor. }
  fold (Engine.range_query g r d2 s) in Heq.
  fold (Engine.range_query g r d1 s) in Heq, Hnear.
  split; [| split].
  - intros l Hl. rewrite Heq. apply in_or_app. right. exact Hl.
  - exists later. auto.
  - unfold Engine.precompute.
    assert (Hpos : (d2 <=? 0) = false) by (apply Z.leb_gt; lia).
    rewrite Hpos. eexists. split; [reflexivity |].
    unfold Engine.query. simpl.
    assert (H1 : (d1 <=? 0) = false) by (apply Z.leb_gt; lia).
    assert (H2 : (s <? 0) = false) by (apply Z.ltb_ge; lia).
    assert (H3 : (Engine.nodes g <=? s) = false) by (apply Z.leb_gt; lia).
    assert (H4 : (d1 <=? d2) = true) by (apply Z.leb_le; lia).
    rewrite H1, H2, H3, H4. simpl.
    rewrite nth_arange by lia. rewrite Heq, filter_app.
    rewrite (filter_none (fun l => Engine.key r l <= d1) later).
    + rewrite (filter_all (fun l => Engine.key r l <= d1)) by exact Hnear.
      reflexivity.
    + eapply Forall_impl; [exact Hlater |]. simpl. intros l Hl. lia.
Qed.

(** ** The nearest node *)










(** The points handed to the engine: the rows with both coordinates. *)
Definition points (df : Series (float * float)) : list (Z * Z) :=
  omap (fun row : Z * (float * float) =>
          match snd row with
          | (Some x, Some y) => Some (x, y)
          | _ => None
          end) df.





Section NearestNode.

Context `{PyAccess}.



End NearestNode.

Lemma bind_raised {S A B : Type} (c : Py S A) (k : A -> Py S B) (s s' : S)
  (e : exn) :
  bind c k s = (Raised e, s') ->
  c s = (Raised e, s')
  \/ exists a s1, c s = (Returned a, s1) /\ k a s1 = (Raised e, s').
Proof.
  unfold bind. destruct (c s) as [[a | e0] s1]; intros Hk.
  - right. exists a, s1. split; [reflexivity | exact Hk].
  - left. inversion Hk. reflexivity.
Qed.

(** ** The graph handed to the engine *)

Lemma positions_from_missing (k : nat) (label : Z) (labels : list Z) :
  ~ In label labels -> Network.positions_from k label labels = [].
Proof.
  revert k. induction labels as [| l rest IH]; intros k Hout; [reflexivity |].
  simpl. destruct (decide (l = label)) as [-> | Hne].
  - exfalso. apply Hout. left. reflexivity.
  - apply IH. intros Hin. apply Hout. right. exact Hin.
Qed.

Lemma positions_from_unique (k : nat) (label : Z) (before after : list Z) :
  NoDup (before ++ label :: after) ->
  Network.positions_from k label (before ++ label :: after)
  = [(k + length before)%nat].
Proof.
  revert k. induction before as [| l before IH]; intros k Hnd; simpl.
  - apply NoDup_cons in Hnd. destruct Hnd as [Hout _].
    destruct (decide (label = label)); [| contradiction].
    rewrite positions_from_missing.
    + f_equal. lia.
    + intros Hin. apply Hout. apply list_elem_of_In. exact Hin.
  - simpl in Hnd. apply NoDup_cons in Hnd. destruct Hnd as [Hout Hnd].
    destruct (decide (l = label)) as [-> | Hne].
    + exfalso. apply Hout. apply list_elem_of_In, in_or_app. right. left.
      reflexivity.
    + rewrite (IH (S k) Hnd). f_equal. lia.
Qed.

(** On an index of distinct labels the left join takes each row once, with
    the row of the weights at its own position. *)
Lemma join_rows {R : Type} (before rest : Series R) :
  NoDup (index before ++ index rest) ->
  flat_map
    (fun row : Z * R =>
       match Network.positions_from 0 (fst row) (index before ++ index rest)
       with
       | [] => [(row, None)]
       | found => map (fun k => (row, Some k)) found
       end)
    rest
  = combine rest (map Some (seq (length before) (length rest))).
Proof.
  revert before. induction rest as [| row rest IH]; intros before Hnd;
    [reflexivity |].
  cbn [flat_map length seq map combine].
  change (index (row :: rest)) with (fst row :: index rest) in *.
  rewrite (positions_from_unique 0 (fst row) (index before) (index rest) Hnd).
  rewrite length_index. simpl. f_equal.
  specialize (IH (before ++ [row])).
  rewrite index_app, <- app_assoc, length_app in IH. simpl in IH.
  replace (length before + 1)%nat with (S (length before)) in IH by lia.
  apply IH. exact Hnd.
Qed.

Lemma map_nth_seq {A : Type} (l : list A) (d : A) :
  map (fun k => nth k l d) (seq 0 (length l)) = l.
Proof.
  induction l as [| a l IH]; [reflexivity |].
  cbn [length seq map nth]. f_equal.
  rewrite <- seq_shift, map_map. exact IH.
Qed.

Lemma gather_all {R A : Type} (rows : list R) (column : list (option A))
  (k : nat) :
  map (fun r : R * option nat =>
         match snd r with
         | Some j => nth j column None
         | None => None
         end)
    (combine rows (map Some (seq k (length rows))))
  = map (fun j => nth j column None) (seq k (length rows)).
Proof.
  revert k. induction rows as [| r rows IH]; intros k; [reflexivity |].
  cbn [length seq map combine]. simpl. f_equal. apply IH.
Qed.

Lemma fst_combine_seq {R : Type} (rows : list R) (k : nat) :
  map fst (combine rows (map Some (seq k (length rows)))) = rows.
Proof.
  revert k. induction rows as [| r rows IH]; intros k; [reflexivity |].
  cbn [length seq map combine]. f_equal. apply IH.
Qed.

(** The join with weights that have the index of the edges, of distinct
    labels, puts the weights beside the edges as they are. *)
Lemma join_same {S : Type} (edges : Series (float * float))
  (edge_weights : DataFrame) (s : S) :
  contains "from" (columns edge_weights) = false ->
  contains "to" (columns edge_weights) = false ->
  index edges = df_index edge_weights ->
  NoDup (index edges) ->
  Forall (fun col : string * list float =>
            length (snd col) = length (df_index edge_weights))
    (df_columns edge_weights) ->
  Network.join edges edge_weights s = (Returned (edges, edge_weights), s).
Proof.
  intros Hfrom Hto Hi Hnd Hcols. unfold Network.join.
  rewrite Hfrom, Hto. simpl. unfold ret. f_equal. f_equal.
  pose proof (join_rows [] edges) as Hrows. simpl in Hrows.
  rewrite <- Hi. rewrite (Hrows Hnd). clear Hrows.
  rewrite fst_combine_seq. f_equal.
  destruct edge_weights as [labels cols]. simpl in *. subst labels.
  clear Hfrom Hto. f_equal. induction Hcols as [| [n col] cols Hcol Hrest IH]; [reflexivity |].
  cbn [map fst snd]. f_equal; [| exact IH].
  f_equal. rewrite gather_all. simpl in Hcol.
  rewrite length_index in Hcol. rewrite <- Hcol. apply map_nth_seq.
Qed.

Lemma index_of_column {R A : Type} (pick : R -> A) (df : Series R) :
  index (Network.column pick df) = index df.
Proof. unfold index, Network.column. rewrite map_map. reflexivity. Qed.

Lemma values_of_column {R A : Type} (pick : R -> A) (df : Series R) :
  values (Network.column pick df) = map pick (values df).
Proof. unfold values, Network.column. rewrite !map_map. reflexivity. Qed.

Lemma combine_index_values {A : Type} (s : Series A) :
  combine (index s) (values s) = s.
Proof.
  induction s as [| [l v] s IH]; [reflexivity |]. simpl. f_equal. exact IH.
Qed.

Lemma column_of_frame {A B C : Type} (labels : list Z) (a : list A)
  (b : list B) (pick : A * B -> C) :
  Network.column pick (combine labels (combine a b))
  = combine labels (map pick (combine a b)).
Proof.
  unfold Network.column. generalize (combine a b). intros rows.
  revert rows. induction labels as [| l labels IH]; intros [| r rows];
    simpl; try reflexivity.
  f_equal. apply IH.
Qed.

Lemma map_fst_combine {A B : Type} (a : list A) (b : list B) :
  length a = length b -> map fst (combine a b) = a.
Proof.
  revert b. induction a as [| x a IH]; intros [| y b] Hl; simpl in *;
    try discriminate; try reflexivity.
  f_equal. apply IH. congruence.
Qed.

Lemma map_snd_combine {A B : Type} (a : list A) (b : list B) :
  length a = length b -> map snd (combine a b) = b.
Proof.
  revert b. induction a as [| x a IH]; intros [| y b] Hl; simpl in *;
    try discriminate; try reflexivity.
  f_equal. apply IH. congruence.
Qed.

(** The cast of a column of looked up indexes to [int32] raises exactly
    when an index is missing. *)
Lemma astype_int32_mapM {S A : Type} (f : A -> option Z) (l : list A)
  (s : S) :
  astype_int32 (map f l) s
  = match mapM f l with
    | Some vs => (Returned vs, s)
    | None => (Raised (ValueError "Cannot convert NA to integer"), s)
    end.
Proof.
  induction l as [| a l IH]; [reflexivity |].
  cbn [map astype_int32 mapM]. destruct (f a) as [v |]; simpl.
  - unfold bind. rewrite IH. destruct (mapM f l); reflexivity.
  - reflexivity.
Qed.

Lemma astype_int32_outcome {S : Type} (column : list float) (s : S) :
  snd (astype_int32 column s) = s
  /\ forall e, fst (astype_int32 column s) = Raised e ->
       e = ValueError "Cannot convert NA to integer".
Proof.
  induction column as [| [v |] rest IH]; simpl.
  - split; [reflexivity | discriminate].
  - unfold bind. destruct IH as [Hs He].
    destruct (astype_int32 rest s) as [[vs | e] s1]; simpl in *.
    + split; [exact Hs | discriminate].
    + split; [exact Hs | exact He].
  - split; [reflexivity |]. intros e He. inversion He. reflexivity.
Qed.

(** Closes a goal on the lengths of lists made of series of equal
    length. *)
Ltac same_length :=
  unfold index, values;
  rewrite ?length_combine, ?length_map, ?length_combine, ?length_map;
  lia.

Section Construction.

Context `{PyAccess}.

(** The network that the constructor makes for the slot [graph_no] of
    inputs indexed as documented. *)
Definition made (graph_no : Z) (node_x node_y : Series float)
  (edge_from edge_to : Series Z) (edge_weights : DataFrame) : Network.t :=
  {| Network.graph_no := graph_no;
     Network.nodes_df :=
       combine (index node_x) (combine (values node_x) (values node_y));
     Network.edges_df :=
       (combine (index edge_from)
          (combine (map Some (values edge_from)) (map Some (values edge_to))),
        edge_weights);
     Network.impedance_names := columns edge_weights;
     Network.variable_names := [];
     Network.node_idx :=
       combine (index node_x) (arange (len (index node_x))) |}.

(** For inputs indexed as documented, the construction casts the looked up
    endpoints of the edges, which raises if an endpoint is no node id, and
    then calls the engine, once, with the slot, the node ids cast to
    [int32], the coordinates cast to [float32] node by node, the edges by
    the dense indexes of their endpoints, and one row of weights, cast to
    [float32], for each weight column. *)
Lemma construct_hands_over (graph_no : Z) (node_x node_y : Series float)
  (edge_from edge_to : Series Z) (edge_weights : DataFrame) (twoway : bool)
  (m : module_state) :
  well_indexed node_x node_y edge_from edge_to edge_weights ->
  let ids := index node_x in
  let node_idx := combine ids (arange (len ids)) in
  construct graph_no node_x node_y edge_from edge_to edge_weights twoway m
  = match mapM (lookup_id node_idx) (values edge_from),
          mapM (lookup_id node_idx) (values edge_to) with
    | Some froms, Some tos =>
        match create_graph graph_no (map int32 ids)
                (map (fun xy : float * float =>
                        (astype_float32 (fst xy), astype_float32 (snd xy)))
                   (combine (values node_x) (values node_y)))
                (combine (map int32 froms) (map int32 tos))
                (map (map astype_float32)
                   (Network.weight_rows (columns edge_weights) edge_weights))
                twoway (_pyaccess m) with
        | Some e =>
            (Returned
               (made graph_no node_x node_y edge_from edge_to edge_weights),
             set_pyaccess e m)
        | None => (Raised (ExtensionError "create_graph"), m)
        end
    | _, _ => (Raised (ValueError "Cannot convert NA to integer"), m)
    end.
Proof.
  intros (Hxy & Hnd & Hft & Hw & Hfrom & Hto & Hlabels & Hcols) ids node_idx.
  assert (Hxl : length node_x = length node_y).
  { rewrite <- !length_index, Hxy. reflexivity. }
  assert (Hfl : length edge_from = length edge_to).
  { rewrite <- !length_index, Hft. reflexivity. }
  unfold construct, bind.
  rewrite (DataFrame2_aligned node_x node_y m Hxy).
  rewrite DataFrame2_aligned
    by (rewrite !index_of_column; exact Hft).
  rewrite !index_of_column, !values_of_column.
  set (from_to := combine (index edge_from)
                    (combine (map Some (values edge_from))
                       (map Some (values edge_to)))).
  assert (Hfi : index from_to = index edge_from).
  { unfold from_to. apply index_combine. same_length. }
  rewrite (join_same from_to edge_weights m Hfrom Hto)
    by (rewrite ?Hfi; assumption).
  cbn [fst snd].
  set (nodes_df := combine (index node_x)
                     (combine (values node_x) (values node_y))).
  assert (Hni : index nodes_df = ids)
    by (unfold nodes_df; apply index_frame; exact Hxy).
  assert (Hnl : len nodes_df = len ids).
  { unfold len. rewrite <- (length_index nodes_df), Hni. reflexivity. }
  rewrite Hni, Hnl. fold node_idx.
  assert (Hidx : NoDup (index node_idx)).
  { unfold node_idx. rewrite index_combine; [exact Hnd |].
    rewrite length_arange_len. reflexivity. }
  unfold from_to. rewrite !column_of_frame.
  rewrite map_fst_combine, map_snd_combine by same_length.
  rewrite !(node_indexes_lookup _ _ Hidx).
  set (found_from := map _ (combine (index edge_from) _)).
  set (found_to := map _ (combine (index edge_from) _)).
  assert (Hvf : values found_from
                = map (lookup_id node_idx) (values edge_from)).
  { unfold found_from, values. rewrite map_map. simpl.
    rewrite <- (map_map snd (fun v : float =>
                               match v with
                               | Some i => lookup_id node_idx i
                               | None => None
                               end)).
    rewrite map_snd_combine by same_length.
    rewrite map_map. reflexivity. }
  assert (Hvt : values found_to
                = map (lookup_id node_idx) (values edge_to)).
  { unfold found_to, values. rewrite map_map. simpl.
    rewrite <- (map_map snd (fun v : float =>
                               match v with
                               | Some i => lookup_id node_idx i
                               | None => None
                               end)).
    rewrite map_snd_combine by same_length.
    rewrite map_map. reflexivity. }
  assert (Hif : index found_from = index edge_from).
  { unfold found_from, index. rewrite map_map. simpl.
    apply map_fst_combine. same_length. }
  assert (Hit : index found_to = index edge_from).
  { unfold found_to, index. rewrite map_map. simpl.
    apply map_fst_combine. same_length. }
  rewrite DataFrame2_aligned by (rewrite Hif, Hit; reflexivity).
  rewrite Hvf, Hvt, Hif.
  rewrite values_combine by same_length.
  rewrite map_fst_combine, map_snd_combine by same_length.
  rewrite astype_int32_mapM.
  destruct (mapM (lookup_id node_idx) (values edge_from)) as [froms |];
    [| reflexivity].
  rewrite astype_int32_mapM.
  destruct (mapM (lookup_id node_idx) (values edge_to)) as [tos |];
    [| reflexivity].
  unfold nodes_df.
  rewrite values_combine by same_length.
  unfold call.
  destruct (create_graph graph_no (map int32 ids) _ _ _ twoway (_pyaccess m))
    as [e |]; reflexivity.
Qed.

(** The construction raises only out of its frames, out of the cast of the
    edges or out of the engine, and then leaves the module as it found
    it. *)
Lemma construct_raised (graph_no : Z) (node_x node_y : Series float)
  (edge_from edge_to : Series Z) (edge_weights : DataFrame) (twoway : bool)
  (m m' : module_state) (e : exn) :
  construct graph_no node_x node_y edge_from edge_to edge_weights twoway m
  = (Raised e, m') ->
  m' = m /\ forall msg, e <> AssertionError msg.
Proof.
  unfold construct. intros Hc.
  apply bind_raised in Hc. destruct Hc as [Hc | (nodes_df & m1 & Hn & Hc)].
  { apply DataFrame2_raised in Hc. destruct Hc as [-> ->].
    split; [reflexivity | discriminate]. }
  apply DataFrame2_returned in Hn. destruct Hn as (-> & _).
  apply bind_raised in Hc. destruct Hc as [Hc | (from_to & m1 & Hn & Hc)].
  { apply DataFrame2_raised in Hc. destruct Hc as [-> ->].
    split; [reflexivity | discriminate]. }
  apply DataFrame2_returned in Hn. destruct Hn as (-> & _).
  apply bind_raised in Hc. destruct Hc as [Hc | (edges_df & m1 & Hn & Hc)].
  { unfold Network.join in Hc.
    destruct (contains "from" (columns edge_weights)
              || contains "to" (columns edge_weights));
      inversion Hc. split; [reflexivity | discriminate]. }
  assert (m1 = m) by (rewrite <- (pure_join from_to edge_weights m), Hn;
                      reflexivity).
  subst m1.
  apply bind_raised in Hc. destruct Hc as [Hc | (edges & m1 & He & Hc)].
  { apply DataFrame2_raised in Hc. destruct Hc as [-> ->].
    split; [reflexivity | discriminate]. }
  apply DataFrame2_returned in He. destruct He as (-> & _).
  apply bind_raised in Hc. destruct Hc as [Hc | (froms & m1 & Hf & Hc)].
  { destruct (astype_int32_outcome (S := module_state)
                (map fst (values edges)) m) as [Hs He].
    rewrite Hc in Hs, He. simpl in Hs, He. subst m'.
    rewrite (He e eq_refl). split; [reflexivity | discriminate]. }
  assert (m1 = m).
  { destruct (astype_int32_outcome (S := module_state)
                (map fst (values edges)) m) as [Hs _].
    rewrite Hf in Hs. exact Hs. }
  subst m1.
  apply bind_raised in Hc. destruct Hc as [Hc | (tos & m1 & Ht & Hc)].
  { destruct (astype_int32_outcome (S := module_state)
                (map snd (values edges)) m) as [Hs He].
    rewrite Hc in Hs, He. simpl in Hs, He. subst m'.
    rewrite (He e eq_refl). split; [reflexivity | discriminate]. }
  assert (m1 = m).
  { destruct (astype_int32_outcome (S := module_state)
                (map snd (values edges)) m) as [Hs _].
    rewrite Ht in Hs. exact Hs. }
  subst m1.
  apply bind_raised in Hc. destruct Hc as [Hc | (u & m1 & _ & Hc)].
  - unfold call in Hc.
    match type of Hc with
    | context [create_graph ?g ?a ?b ?c ?d ?t ?en] =>
        destruct (create_graph g a b c d t en)
    end; inversion Hc. split; [reflexivity | discriminate].
  - discriminate.
Qed.

(** C9: without any call of [reserve_num_graphs], the construction of the
    first network reserves one graph by itself and takes slot 0 of it.  On
    the module as imported, whatever the arguments, once the engine has
    accepted the reservation the capacity is 1 and is used up, the
    construction never raises an assertion error, and a network it returns
    has slot 0.  It returns, for inputs indexed as documented whose edges
    run between node ids, when the engine accepts the one graph it is
    handed.  From then on, whatever the program does, every further
    construction and every call of [reserve_num_graphs] raises an assertion
    error and changes nothing. *)
Theorem first_network_reserves_one (e e1 : engine)
  (node_x node_y : Series float) (edge_from edge_to : Series Z)
  (edge_weights : DataFrame) (twoway : bool) :
  create_graphs 1 e = Some e1 ->
  let r := Network.__init__ node_x node_y edge_from edge_to edge_weights
             twoway (on_import e) in
  let ids := index node_x in
  let node_idx := combine ids (arange (len ids)) in
  MAX_NUM_NETWORKS (snd r) = 1
  /\ NUM_NETWORKS (snd r) = 1
  /\ (forall net, fst r = Returned net -> Network.graph_no net = 0)
  /\ (forall ex, fst r = Raised ex -> forall msg, ex <> AssertionError msg)
  /\ (forall froms tos e2,
        well_indexed node_x node_y edge_from edge_to edge_weights ->
        mapM (lookup_id node_idx) (values edge_from) = Some froms ->
        mapM (lookup_id node_idx) (values edge_to) = Some tos ->
        create_graph 0 (map int32 ids)
          (map (fun xy : float * float =>
                  (astype_float32 (fst xy), astype_float32 (snd xy)))
             (combine (values node_x) (values node_y)))
          (combine (map int32 froms) (map int32 tos))
          (map (map astype_float32)
             (Network.weight_rows (columns edge_weights) edge_weights))
          twoway e1 = Some e2 ->
        r = (Returned (made 0 node_x node_y edge_from edge_to edge_weights),
             set_pyaccess e2
               (set_NUM_NETWORKS 1
                  (set_pyaccess e1 (set_MAX_NUM_NETWORKS 1 (on_import e))))))
  /\ forall (rs : list request) (objs : list Network.t),
       let later :=
         module (run rs {| module := snd r; objects := objs |}) in
       (forall node_x' node_y' edge_from' edge_to' edge_weights' twoway',
          Network.__init__ node_x' node_y' edge_from' edge_to'
            edge_weights' twoway' later
          = (Raised (AssertionError
                       "Adding more networks than have been reserved"),
             later))
       /\ (forall num,
             reserve_num_graphs num later
             = (Raised (AssertionError
                          "Global memory used so cannot initialize twice"),
                later)).
Proof.
  intros He r ids node_idx.
  set (m1 := set_pyaccess e1 (set_MAX_NUM_NETWORKS 1 (on_import e))).
  set (c := construct 0 node_x node_y edge_from edge_to edge_weights twoway
              (set_NUM_NETWORKS 1 m1)).
  assert (Hr : r = c).
  { unfold r, c. rewrite init_unfold. simpl.
    rewrite reserve_num_graphs_unfold. simpl. rewrite He. reflexivity. }
  assert (Hmax : MAX_NUM_NETWORKS (snd c) = 1).
  { exact (construct_keeps _ 0 node_x node_y edge_from edge_to edge_weights
             twoway (max_blind 1) (set_NUM_NETWORKS 1 m1) eq_refl). }
  assert (Hnum : NUM_NETWORKS (snd c) = 1).
  { exact (construct_keeps _ 0 node_x node_y edge_from edge_to edge_weights
             twoway (num_blind 1) (set_NUM_NETWORKS 1 m1) eq_refl). }
  rewrite Hr.
  split; [exact Hmax |]. split; [exact Hnum |]. split; [| split; [| split]].
  - intros net Hnet. destruct c as [o m2] eqn:Hc. simpl in Hnet. subst o.
    exact (proj1 (construct_returned _ _ _ _ _ _ _ _ _ _ Hc)).
  - intros ex Hex. destruct c as [o m2] eqn:Hc. simpl in Hex. subst o.
    exact (proj2 (construct_raised _ _ _ _ _ _ _ _ _ _ Hc)).
  - intros froms tos e2 Hin Hfroms Htos Hgraph. unfold c.
    rewrite (construct_hands_over 0 node_x node_y edge_from edge_to
               edge_weights twoway (set_NUM_NETWORKS 1 m1) Hin).
    fold ids. fold node_idx. rewrite Hfroms, Htos. simpl.
    rewrite Hgraph. reflexivity.
  - intros rs objs later.
    set (w := {| module := snd c; objects := objs |}).
    destruct (run_globals rs w) as [Hnum' Hmax']. simpl in Hnum', Hmax'.
    rewrite Hmax in Hmax'. specialize (Hmax' ltac:(lia)).
    rewrite Hnum in Hnum'.
    fold w in later. fold later in Hnum', Hmax'.
    split.
    + intros. rewrite init_unfold, Hmax'. simpl. apply take_slot_spec. lia.
    + intros num. rewrite reserve_num_graphs_unfold, Hmax'. reflexivity.
Qed.

End Construction.

(** * A worked example: the path graph A - B - C - D

    Four nodes with the ids 10, 20, 30 and 40 on a line, unit weights under
    the one impedance [dist], edges both ways; the engine is the stand-in
    [Sim]. *)

Definition path_x : Series float :=
  [(10, Some 0); (20, Some 1); (30, Some 2); (40, Some 3)].

Definition path_y : Series float :=
  [(10, Some 0); (20, Some 0); (30, Some 0); (40, Some 0)].

Definition path_from : Series Z := [(0, 10); (1, 20); (2, 30)].

Definition path_to : Series Z := [(0, 20); (1, 30); (2, 40)].

Definition path_weights : DataFrame :=
  {| df_index := [0; 1; 2];
     df_columns := [("dist", [Some 1; Some 1; Some 1])] |}.

(** The network and the module after [Network(...)] on a fresh import. *)
Definition path_net : Network.t :=
  {| Network.graph_no := 0;
     Network.nodes_df :=
       [(10, (Some 0, Some 0)); (20, (Some 1, Some 0));
        (30, (Some 2, Some 0)); (40, (Some 3, Some 0))];
     Network.edges_df :=
       ([(0, (Some 10, Some 20)); (1, (Some 20, Some 30));
         (2, (Some 30, Some 40))], path_weights);
     Network.impedance_names := ["dist"];
     Network.variable_names := [];
     Network.node_idx := [(10, 0); (20, 1); (30, 2); (40, 3)] |}.

Definition path_engine : Sim.state :=
  {| Sim.capacity := 1;
     Sim.graphs :=
       [(0, [(Some 0, Some 0); (Some 1, Some 0);
             (Some 2, Some 0); (Some 3, Some 0)])] |}.

Definition path_module : @module_state Sim.pyaccess :=
  @Build_module_state Sim.pyaccess 1 1 None path_engine [].

(** The variable [pop], given for the nodes D and B, for an id that is not
    in the network, and with a missing value for C. *)
Definition pop_ids : Series float :=
  [(0, Some 40); (1, Some 99); (2, Some 30); (3, Some 20)].

Definition pop_values : Series float :=
  [(0, Some 10); (1, Some 5); (2, None); (3, Some 7)].

Definition path_set : invocation := Set_ pop_ids (Some pop_values) "pop".

(** The network once [pop] is set. *)
Definition path_net_pop : Network.t :=
  fst (@invoke Sim.pyaccess path_set (path_net, path_module)).

(** The graph the engine builds for the path, with a second impedance. *)
Definition path_edges : list (Z * Z) := [(0, 1); (1, 2); (2, 3)].

Definition path_rows : list (list Z) := [[1; 1; 1]; [10; 20; 30]].

Definition path_graph : Engine.graph :=
  {| Engine.nodes := 4;
     Engine.channels := 2;
     Engine.arcs := Engine.build_arcs path_edges path_rows true 0 |}.

(** Points to map to nodes: one near B, one with a missing coordinate, one
    far to the right of D. *)
Definition query_x : Series float := [(7, Some 1); (8, None); (9, Some 50)].

Definition query_y : Series float := [(7, Some 1); (8, Some 1); (9, Some 0)].

Example path_constructed :
  @Network.__init__ Sim.pyaccess path_x path_y path_from path_to path_weights
    true (@on_import Sim.pyaccess Sim.empty)
  = (Returned path_net, path_module).
Proof. vm_compute. reflexivity. Qed.

Example path_second_network_refused :
  fst (@Network.__init__ Sim.pyaccess path_x path_y path_from path_to
         path_weights true path_module)
  = Raised (AssertionError "Adding more networks than have been reserved").
Proof. vm_compute. reflexivity. Qed.

Example path_capacity_of_two :
  let w := @run Sim.pyaccess
             [ReserveNumGraphs 2;
              NewNetwork path_x path_y path_from path_to path_weights true;
              NewNetwork path_x path_y path_from path_to path_weights false;
              NewNetwork path_x path_y path_from path_to path_weights true;
              ReserveNumGraphs 5]
             (@imported Sim.pyaccess Sim.empty) in
  map Network.graph_no (objects w) = [0; 1]
  /\ MAX_NUM_NETWORKS (module w) = 2
  /\ NUM_NETWORKS (module w) = 2.
Proof. vm_compute. repeat split. Qed.

(** A construction that the engine refuses has taken its slot already. *)
Example path_refused_graph_takes_slot :
  let w := @run Sim.pyaccess
             [ReserveNumGraphs 2;
              NewNetwork path_x path_y path_from path_to
                {| df_index := [0; 1; 2];
                   df_columns := [("from", [Some 1; Some 1; Some 1])] |}
                true;
              NewNetwork path_x path_y path_from path_to path_weights true]
             (@imported Sim.pyaccess Sim.empty) in
  map Network.graph_no (objects w) = [1]
  /\ NUM_NETWORKS (module w) = 2.
Proof. vm_compute. repeat split. Qed.

Example path_set_prints :
  let s := @invoke Sim.pyaccess path_set (path_net, path_module) in
  stdout (snd s) = [Elapsed "up"; Describe 2; Elapsed ""]
  /\ Network.variable_names (fst s) = ["pop"]
  /\ kept_rows (Network.node_idx path_net) pop_ids (values pop_values)
     = [(3, 10); (1, 7)].
Proof. vm_compute. repeat split. Qed.

Example path_aggregate :
  fst (@Network.aggregate Sim.pyaccess (Some 2) "sum" "flat" None "pop"
         (path_net_pop, path_module))
  = Returned [(10, Some 0); (20, Some 0); (30, Some 0); (40, Some 0)].
Proof. vm_compute. reflexivity. Qed.

Example path_aggregate_unknown_decay :
  @Network.aggregate Sim.pyaccess (Some 2) "sum" "exponential" None "pop"
    (path_net_pop, path_module)
  = (Raised (KeyError "EXPONENTIAL"), (path_net_pop, path_module)).
Proof. vm_compute. reflexivity. Qed.

Example path_graph_built :
  Engine.create_graph 4 path_edges path_rows true = Some path_graph.
Proof. vm_compute. reflexivity. Qed.

Example path_reachable_within_2 :
  map Engine.node (Engine.range_query path_graph 0 2 0) = [2; 1; 0]
  /\ map Engine.node (Engine.range_query path_graph 0 3 0) = [3; 2; 1; 0]
  /\ map Engine.dists (Engine.range_query path_graph 0 3 0)
     = [[3; 60]; [2; 30]; [1; 10]; [0; 0]].
Proof. vm_compute. repeat split. Qed.

Example path_get_node_ids :
  fst (@Network.get_node_ids Sim.pyaccess query_x query_y (Some 3)
         (path_net, path_module)) = Returned [(7, 1)]
  /\ fst (@Network.get_node_ids Sim.pyaccess query_x query_y (Some (-1))
            (path_net, path_module)) = Returned [(7, 1); (9, 3)].
Proof. vm_compute. repeat split. Qed.

Example path_get_node_ids_aligned :
  fst (@Network.get_node_ids Sim.pyaccess
         [(1, Some 1); (2, Some 50)] [(2, Some 0); (1, Some 1)] (Some 3)
         (path_net, path_module)) = Returned [(1, 1)].
Proof. vm_compute. reflexivity. Qed.

Example path_dangling_edge :
  @Network.__init__ Sim.pyaccess path_x path_y path_from
    [(0, 20); (1, 30); (2, 99)] path_weights true
    (@on_import Sim.pyaccess Sim.empty)
  = (Raised (ValueError "Cannot convert NA to integer"),
     @Build_module_state Sim.pyaccess 1 1 None
       {| Sim.capacity := 1; Sim.graphs := [] |} []).
Proof. vm_compute. reflexivity. Qed.

Example casts_to_32_bits :
  astype_float32 (Some 16777217) = Finite32 16777216
  /\ astype_float32 (Some 16777219) = Finite32 16777220
  /\ astype_float32 (Some (- (2 ^ 128))) = Infinite32 true
  /\ astype_float32 None = NaN32
  /\ int32 (2 ^ 31) = - 2 ^ 31
  /\ int32 (-1) = -1.
Proof. vm_compute. repeat split. Qed.

(** ** The properties on the example *)

Lemma path_well_indexed :
  well_indexed path_x path_y path_from path_to path_weights.
Proof.
  unfold well_indexed. repeat split; try reflexivity.
  - apply (bool_decide_unpack _). vm_compute. exact I.
  - apply (bool_decide_unpack _). vm_compute. exact I.
  - repeat constructor.
Qed.

Lemma range_query_monotone_witness :
  exists c,
    Engine.precompute path_graph 0 3 = Some c
    /\ Engine.query (Some c) path_graph 0 0 2
       = Some (Engine.range_query path_graph 0 2 0, false).
Proof.
  refine (proj2 (proj2 (range_query_monotone 4 path_edges path_rows true
                          path_graph 0 2 3 0 eq_refl _ _ _))).
  - simpl. lia.
  - lia.
  - lia.
Defined.

Lemma aggregate_indexed_by_node_ids_witness :
  @Network.aggregate Sim.pyaccess (Some 2) "sum" "flat" None "pop"
    (path_net_pop, path_module)
  = (Returned [(10, Some 0); (20, Some 0); (30, Some 0); (40, Some 0)],
     (path_net_pop, path_module)).
Proof.
  apply (proj1 (proj2
           (@aggregate_indexed_by_node_ids Sim.pyaccess path_x path_y
              path_from path_to path_weights true
              (@on_import Sim.pyaccess Sim.empty) path_module path_module
              path_net path_net_pop [path_set] (Some 2) "sum" "flat" None
              "pop" eq_refl path_constructed
              (lived_call path_net [] path_net path_set path_module
                 (lived_new path_net))))).
  exists 0, 2, 0, 0, [Some 0; Some 0; Some 0; Some 0], path_engine.
  repeat split; reflexivity.
Defined.

Lemma aggregate_validates_names_witness :
  exists e,
    @Network.aggregate Sim.pyaccess (Some 2) "median" "flat" (Some "dist")
      "pop" (path_net_pop, path_module)
    = (Raised e, (path_net_pop, path_module))
    /\ ((exists key, e = KeyError key)
        \/ (exists msg, e = AssertionError msg)).
Proof.
  refine (proj1
            (@aggregate_validates_names Sim.pyaccess path_x path_y
               path_from path_to path_weights true (@on_import Sim.pyaccess Sim.empty)
               path_module path_module path_net path_net_pop [path_set]
               (Some 2) "median" "flat" (Some "dist") "pop"
               path_constructed _) _).
  - exact (lived_call path_net [] path_net path_set path_module
             (lived_new path_net)).
  - left. simpl. intros [Hk | [Hk | [Hk | [Hk | []]]]]; discriminate.
Defined.


Lemma compute_nearest_pois_unconfigured_witness :
  exists e,
    @Network.compute_nearest_pois Sim.pyaccess (Some 3) "cafe"
      (path_net, path_module)
    = (Raised e, (path_net, path_module))
    /\ (e = NameError "CAT_NAME_TO_IND"
        \/ e = AssertionError "Category not initialized").
Proof.
  refine (proj1 (@compute_nearest_pois_unconfigured Sim.pyaccess (Some 3)
                   "cafe" (path_net, path_module) _)).
  intros (d & ind & Hd & _). discriminate.
Defined.

Lemma first_network_reserves_one_witness :
  @Network.__init__ Sim.pyaccess path_x path_y path_from path_to
    path_weights true (@on_import Sim.pyaccess Sim.empty)
  = (Returned path_net, path_module).
Proof.
  destruct (@first_network_reserves_one Sim.pyaccess Sim.empty
              {| Sim.capacity := 1; Sim.graphs := [] |}
              path_x path_y path_from path_to path_weights true eq_refl)
    as (_ & _ & _ & _ & Hreturns & _).
  exact (Hreturns [0; 1; 2] [1; 2; 3] path_engine path_well_indexed
           eq_refl eq_refl eq_refl).
Defined.

(** * Further properties of the module *)

Section Reservation.

Context `{PyAccess}.

(** X1: when the engine refuses the reservation, [reserve_num_graphs]
    raises, but the capacity is set already: the module is left with
    [MAX_NUM_NETWORKS = num], and every further call raises the assertion
    error, so the reservation cannot be tried again. *)
Theorem reserve_num_graphs_refused (num : Z) (m : module_state) :
  MAX_NUM_NETWORKS m = 0 ->
  0 < num ->
  create_graphs num (_pyaccess m) = None ->
  reserve_num_graphs num m
  = (Raised (ExtensionError "create_graphs"), set_MAX_NUM_NETWORKS num m)
  /\ forall num',
       reserve_num_graphs num' (set_MAX_NUM_NETWORKS num m)
       = (Raised (AssertionError
                    "Global memory used so cannot initialize twice"),
          set_MAX_NUM_NETWORKS num m).
Proof.
  intros Hz Hpos Hno. split.
  - rewrite reserve_num_graphs_unfold, Hz. simpl.
    apply Z.ltb_lt in Hpos. rewrite Hpos, Hno. reflexivity.
  - intros num'. rewrite reserve_num_graphs_unfold. simpl.
    assert (Hnz : (num =? 0) = false) by (apply Z.eqb_neq; lia).
    rewrite Hnz. reflexivity.
Qed.

(** X2: a construction that passes the capacity check has taken its slot
    whether it returns or raises: [NUM_NETWORKS] is one more and the
    capacity is as before.  When it raises, this is the only change to the
    module, and the exception is no assertion error: it comes from the
    frames or from the engine.  So a construction that fails in this way
    uses up one of the reserved graphs. *)
Theorem construction_takes_slot (node_x node_y : Series float)
  (edge_from edge_to : Series Z) (edge_weights : DataFrame) (twoway : bool)
  (m : module_state) :
  MAX_NUM_NETWORKS m <> 0 ->
  NUM_NETWORKS m < MAX_NUM_NETWORKS m ->
  let r := Network.__init__ node_x node_y edge_from edge_to edge_weights
             twoway m in
  NUM_NETWORKS (snd r) = NUM_NETWORKS m + 1
  /\ MAX_NUM_NETWORKS (snd r) = MAX_NUM_NETWORKS m
  /\ forall e, fst r = Raised e ->
       snd r = set_NUM_NETWORKS (NUM_NETWORKS m + 1) m
       /\ forall msg, e <> AssertionError msg.
Proof.
  intros Hz Hlt r.
  destruct (take_slot_spec node_x node_y edge_from edge_to edge_weights
              twoway m) as (Hmax & _ & _ & Hfree).
  destruct (Hfree Hlt) as [Hnum _].
  assert (Hr : r = take_slot node_x node_y edge_from edge_to edge_weights
                     twoway m).
  { unfold r. rewrite init_unfold. apply Z.eqb_neq in Hz. rewrite Hz.
    reflexivity. }
  rewrite Hr. split; [exact Hnum |]. split; [exact Hmax |].
  intros e He. unfold take_slot in *.
  apply Z.ltb_lt in Hlt. rewrite Hlt in *.
  destruct (construct (NUM_NETWORKS m) node_x node_y edge_from edge_to
              edge_weights twoway
              (set_NUM_NETWORKS (NUM_NETWORKS m + 1) m)) as [o m'] eqn:Hc.
  simpl in He. subst o. simpl.
  exact (construct_raised _ _ _ _ _ _ _ _ _ _ Hc).
Qed.

End Reservation.

(** ** Node ids and dense indexes *)

Lemma lookup_id_cons (k v i : Z) (rest : Series Z) :
  lookup_id ((k, v) :: rest) i
  = if decide (k = i) then Some v else lookup_id rest i.
Proof.
  unfold lookup_id. rewrite filter_cons. simpl.
  destruct (decide (k = i)); reflexivity.
Qed.

Lemma lookup_id_missing (node_idx : Series Z) (i : Z) :
  ~ In i (index node_idx) -> lookup_id node_idx i = None.
Proof.
  induction node_idx as [| [k v] rest IH]; intros Hout; [reflexivity |].
  rewrite lookup_id_cons. destruct (decide (k = i)) as [-> | Hne].
  - exfalso. apply Hout. left. reflexivity.
  - apply IH. intros Hin. apply Hout. right. exact Hin.
Qed.

(** In the series that numbers distinct ids from [s] on, an id is found
    under its own number. *)
Lemma lookup_id_numbered (ids : list Z) (s k : nat) :
  NoDup ids ->
  (k < length ids)%nat ->
  lookup_id (combine ids (map Z.of_nat (seq s (length ids)))) (nth k ids 0)
  = Some (Z.of_nat (s + k)).
Proof.
  revert s k. induction ids as [| id ids IH]; intros s k Hnd Hk;
    simpl in Hk; [lia |].
  apply NoDup_cons in Hnd. destruct Hnd as [Hid Hnd].
  cbn [length seq map combine]. rewrite lookup_id_cons.
  destruct k as [| k]; cbn [nth].
  - destruct (decide (id = id)); [| contradiction].
    f_equal. f_equal. lia.
  - destruct (decide (id = nth k ids 0)) as [Heq | Hne].
    + exfalso. apply Hid. rewrite Heq. apply list_elem_of_In, nth_In. lia.
    + rewrite IH by (assumption || lia). f_equal. f_equal. lia.
Qed.

Lemma index_numbered (ids : list Z) :
  index (combine ids (arange (len ids))) = ids.
Proof.
  apply index_combine. unfold arange, len.
  rewrite length_map, length_seq, Nat2Z.id. reflexivity.
Qed.

(** X3: [_node_indexes] inverts the numbering the constructor gives the
    node ids.  For distinct ids numbered [0, 1, 2, ...] in their order,
    looking the ids up in that order gives back [0, 1, 2, ...] under the
    labels of the rows; the id at position [k] is found under [k]; and an
    id that is none of the network's, like a missing id, gives a row with a
    missing index. *)
Theorem node_indexes_round_trip (ids labels : list Z) :
  NoDup ids ->
  let node_idx := combine ids (arange (len ids)) in
  _node_indexes node_idx (combine labels (map Some ids))
  = combine labels (map Some (arange (len ids)))
  /\ (forall (k : nat) label,
        (k < length ids)%nat ->
        _node_indexes node_idx [(label, Some (nth k ids 0))]
        = [(label, Some (Z.of_nat k))])
  /\ (forall i label,
        ~ In i ids ->
        _node_indexes node_idx [(label, Some i)] = [(label, None)])
  /\ (forall label, _node_indexes node_idx [(label, None)] = [(label, None)]).
Proof.
  intros Hnd node_idx.
  assert (Hidx : NoDup (index node_idx))
    by (unfold node_idx; rewrite index_numbered; exact Hnd).
  assert (Hfound : forall k, (k < length ids)%nat ->
            lookup_id node_idx (nth k ids 0) = Some (Z.of_nat k)).
  { intros k Hk. unfold node_idx, arange, len. rewrite Nat2Z.id.
    rewrite lookup_id_numbered by assumption. reflexivity. }
  split; [| split; [| split]].
  - rewrite (node_indexes_lookup _ _ Hidx).
    assert (Hmap : map (lookup_id node_idx) ids = map Some (arange (len ids))).
    { apply (nth_ext _ _ None None).
      - rewrite !length_map. unfold arange, len.
        rewrite length_map, length_seq, Nat2Z.id. reflexivity.
      - intros k Hk. rewrite length_map in Hk.
        rewrite (nth_indep _ None (lookup_id node_idx 0))
          by (rewrite length_map; exact Hk).
        rewrite (map_nth (lookup_id node_idx)), (Hfound k Hk).
        rewrite (nth_indep _ None (Some 0))
          by (unfold arange, len;
              rewrite !length_map, length_seq, Nat2Z.id; exact Hk).
        rewrite (map_nth Some). f_equal. unfold arange, len.
        rewrite Nat2Z.id.
        rewrite (nth_indep _ 0 (Z.of_nat 0))
          by (rewrite length_map, length_seq; exact Hk).
        rewrite (map_nth Z.of_nat), seq_nth by exact Hk. reflexivity. }
    rewrite <- Hmap. generalize (lookup_id node_idx). clear. intros f.
    revert labels.
    induction ids as [| id ids IH]; intros [| label labels];
      simpl; try reflexivity.
    f_equal. apply IH.
  - intros k label Hk. rewrite (node_indexes_lookup _ _ Hidx). simpl.
    rewrite (Hfound k Hk). reflexivity.
  - intros i label Hout. rewrite (node_indexes_lookup _ _ Hidx). simpl.
    rewrite lookup_id_missing; [reflexivity |].
    unfold node_idx. rewrite index_numbered. exact Hout.
  - intros label. reflexivity.
Qed.

(** X4: what the left merge of [_node_indexes] returns, whatever the two
    series.  No row of [node_ids] is lost; a row comes out with the index
    [ix] exactly when its id labels an entry [ix] of [node_idx], once for
    each such entry, so a duplicated label repeats the row; a row comes out
    with a missing index exactly when its id is missing or labels no
    entry. *)
Theorem node_indexes_left_merge (node_idx : Series Z)
  (node_ids : Series float) :
  (length node_ids <= length (_node_indexes node_idx node_ids))%nat
  /\ (forall label ix,
        In (label, Some ix) (_node_indexes node_idx node_ids) <->
        exists i, In (label, Some i) node_ids /\ In (i, ix) node_idx)
  /\ (forall label,
        In (label, None) (_node_indexes node_idx node_ids) <->
        In (label, None) node_ids
        \/ exists i, In (label, Some i) node_ids /\ ~ In i (index node_idx)).
Proof.
  split; [| split].
  - induction node_ids as [| [label id] rest IH]; [simpl; lia |].
    rewrite node_indexes_cons, length_app. simpl.
    destruct id as [i |]; [| simpl; lia].
    destruct (filter (fun entry : Z * Z => fst entry = i) node_idx);
      simpl; lia.
  - intros label ix. split; [apply node_indexes_found |].
    intros (i & Hrow & Hentry). unfold _node_indexes. apply in_flat_map.
    exists (label, Some i). split; [exact Hrow |].
    assert (Hin : (i, ix) ∈ filter (fun entry : Z * Z => fst entry = i)
                               node_idx).
    { apply list_elem_of_filter. split; [reflexivity |].
      apply list_elem_of_In. exact Hentry. }
    destruct (filter (fun entry : Z * Z => fst entry = i) node_idx)
      as [| found more]; [inversion Hin |].
    apply list_elem_of_In in Hin. apply in_map_iff.
    exists (i, ix). split; [reflexivity | exact Hin].
  - intros label. unfold _node_indexes. rewrite in_flat_map. split.
    + intros ([label' id] & Hrow & Hin). destruct id as [i |].
      * destruct (filter (fun entry : Z * Z => fst entry = i) node_idx)
          as [| found more] eqn:Hf.
        -- destruct Hin as [Heq | []]. inversion Heq; subst.
           right. exists i. split; [exact Hrow |].
           intros Hlabel. apply in_map_iff in Hlabel.
           destruct Hlabel as ([k v] & Hk & Hentry). simpl in Hk. subst k.
           assert (Hin : (i, v) ∈ filter (fun entry : Z * Z => fst entry = i)
                                      node_idx).
           { apply list_elem_of_filter. split; [reflexivity |].
             apply list_elem_of_In. exact Hentry. }
           rewrite Hf in Hin. inversion Hin.
        -- apply in_map_iff in Hin. destruct Hin as (entry & Heq & _).
           discriminate.
      * destruct Hin as [Heq | []]. inversion Heq; subst. left. exact Hrow.
    + intros [Hrow | (i & Hrow & Hout)].
      * exists (label, None). split; [exact Hrow | left; reflexivity].
      * exists (label, Some i). split; [exact Hrow |].
        destruct (filter (fun entry : Z * Z => fst entry = i) node_idx)
          as [| [k v] more] eqn:Hf; [left; reflexivity |].
        exfalso. apply Hout.
        assert (Hin : (k, v) ∈ filter (fun entry : Z * Z => fst entry = i)
                                   node_idx) by (rewrite Hf; left).
        apply list_elem_of_filter in Hin. destruct Hin as [Hk Hin].
        simpl in Hk. subst k. apply in_map_iff. exists (i, v).
        split; [reflexivity | apply list_elem_of_In; exact Hin].
Qed.

(** ** What the constructor hands to the engine *)

Lemma lookup_id_found (node_idx : Series Z) (i : Z) :
  In i (index node_idx) -> exists k, lookup_id node_idx i = Some k.
Proof.
  induction node_idx as [| [k v] rest IH]; intros Hin; [destruct Hin |].
  rewrite lookup_id_cons. destruct (decide (k = i)) as [-> | Hne]; [eauto |].
  destruct Hin as [Hk | Hin]; [contradiction | apply IH; exact Hin].
Qed.

Section HandOver.

Context `{PyAccess}.

(** X5: the graph the constructor hands to the engine, for inputs indexed
    as documented and a free slot.  Each endpoint of an edge is looked up
    among the node ids, where the id number [k] has the dense index [k] and
    an id that is no node has none.  If an edge has an endpoint that is no
    node id, the cast of the edges to [int32] raises [ValueError] and the
    engine is not called.  Otherwise the engine gets the slot number, the
    node ids in their order, cast to [int32], the coordinates paired node by
    node, cast to [float32], every edge by the dense indexes of its
    endpoints, and one row of weights, cast to [float32], for each weight
    column; the constructor returns the network when the engine accepts and
    raises when it refuses.  In all three cases the slot is taken. *)
Theorem constructor_hands_over_graph (node_x node_y : Series float)
  (edge_from edge_to : Series Z) (edge_weights : DataFrame) (twoway : bool)
  (m : module_state) :
  MAX_NUM_NETWORKS m <> 0 ->
  NUM_NETWORKS m < MAX_NUM_NETWORKS m ->
  well_indexed node_x node_y edge_from edge_to edge_weights ->
  let ids := index node_x in
  let node_idx := combine ids (arange (len ids)) in
  let m1 := set_NUM_NETWORKS (NUM_NETWORKS m + 1) m in
  Network.__init__ node_x node_y edge_from edge_to edge_weights twoway m
  = match mapM (lookup_id node_idx) (values edge_from),
          mapM (lookup_id node_idx) (values edge_to) with
    | Some froms, Some tos =>
        match create_graph (NUM_NETWORKS m) (map int32 ids)
                (map (fun xy : float * float =>
                        (astype_float32 (fst xy), astype_float32 (snd xy)))
                   (combine (values node_x) (values node_y)))
                (combine (map int32 froms) (map int32 tos))
                (map (map astype_float32)
                   (Network.weight_rows (columns edge_weights) edge_weights))
                twoway (_pyaccess m) with
        | Some e =>
            (Returned
               (made (NUM_NETWORKS m) node_x node_y edge_from edge_to
                  edge_weights),
             set_pyaccess e m1)
        | None => (Raised (ExtensionError "create_graph"), m1)
        end
    | _, _ => (Raised (ValueError "Cannot convert NA to integer"), m1)
    end
  /\ (forall k : nat,
        (k < length ids)%nat ->
        lookup_id node_idx (nth k ids 0) = Some (Z.of_nat k))
  /\ (forall i, ~ In i ids -> lookup_id node_idx i = None)
  /\ (forall endpoints : list Z,
        mapM (lookup_id node_idx) endpoints = None <->
        exists i, In i endpoints /\ ~ In i ids).
Proof.
  intros Hz Hlt Hin ids node_idx m1.
  assert (Hnd : NoDup ids) by (destruct Hin as (_ & Hnd & _); exact Hnd).
  split; [| split; [| split]].
  - rewrite init_unfold. apply Z.eqb_neq in Hz. rewrite Hz.
    unfold take_slot. apply Z.ltb_lt in Hlt. rewrite Hlt. fold m1.
    exact (construct_hands_over (NUM_NETWORKS m) node_x node_y edge_from
             edge_to edge_weights twoway m1 Hin).
  - intros k Hk. unfold node_idx, arange, len. rewrite Nat2Z.id.
    rewrite (lookup_id_numbered ids 0 k Hnd Hk). reflexivity.
  - intros i Hout. apply lookup_id_missing. unfold node_idx.
    rewrite index_numbered. exact Hout.
  - intros endpoints. rewrite mapM_None, Exists_exists. split.
    + intros (i & Hi & Hnone). exists i.
      split; [apply list_elem_of_In; exact Hi |].
      intros Hid.
      destruct (lookup_id_found node_idx i) as (k & Hk); [| congruence].
      unfold node_idx. rewrite index_numbered. exact Hid.
    + intros (i & Hi & Hout). exists i.
      split; [apply list_elem_of_In; exact Hi |].
      apply lookup_id_missing. unfold node_idx. rewrite index_numbered.
      exact Hout.
Qed.

End HandOver.

(** ** The numbers [aggregate] passes to the engine *)

Lemma position_Some_contains (name : string) (names : list string) (i : Z) :
  position name names = Some i -> contains name names = true.
Proof.
  revert i. induction names as [| n rest IH]; intros i; simpl;
    [discriminate |].
  destruct (String.eqb name n); [reflexivity |]. simpl.
  destruct (position name rest) as [j |]; [| discriminate].
  intros _. exact (IH j eq_refl).
Qed.

Lemma position_app (name : string) (names more : list string) (i : Z) :
  position name names = Some i -> position name (names ++ more) = Some i.
Proof.
  revert i. induction names as [| n rest IH]; intros i; simpl;
    [discriminate |].
  destruct (String.eqb name n); [trivial |].
  destruct (position name rest) as [j |]; [| discriminate].
  rewrite (IH j eq_refl). trivial.
Qed.

Lemma filter_one_column {A : Type} (cols : list (string * A))
  (col : string * A) :
  NoDup (map fst cols) -> In col cols ->
  filter (fun c : string * A => fst c = fst col) cols = [col].
Proof.
  induction cols as [| [n a] cols IH]; intros Hnd Hin; [contradiction |].
  simpl in Hnd. apply NoDup_cons in Hnd. destruct Hnd as [Hn Hnd].
  rewrite filter_cons. simpl. destruct Hin as [<- | Hin].
  - simpl. destruct (decide (n = n)); [| contradiction]. f_equal.
    destruct (filter (fun c : string * A => fst c = n) cols)
      as [| [n' a'] more] eqn:Hf; [reflexivity |].
    exfalso.
    assert (Hin : (n', a') ∈ filter (fun c : string * A => fst c = n) cols)
      by (rewrite Hf; left).
    apply list_elem_of_filter in Hin. destruct Hin as [Heq Hin].
    simpl in Heq. subst n'. apply Hn. apply list_elem_of_In, in_map_iff.
    exists (n, a'). split; [reflexivity | apply list_elem_of_In; exact Hin].
  - destruct (decide (n = fst col)) as [Heq | Hne]; [| apply IH; assumption].
    exfalso. apply Hn. rewrite Heq. apply list_elem_of_In, in_map_iff.
    exists col. split; [reflexivity | exact Hin].
Qed.

(** With distinct column names the weight rows are the columns, in order. *)
Lemma weight_rows_columns (edge_weights : DataFrame) :
  NoDup (columns edge_weights) ->
  Network.weight_rows (columns edge_weights) edge_weights
  = map snd (df_columns edge_weights).
Proof.
  intros Hnd. unfold Network.weight_rows, columns in *.
  assert (Hsub : forall l,
            (forall col, In col l -> In col (df_columns edge_weights)) ->
            flat_map
              (fun c => map snd
                 (filter (fun col : string * list float => fst col = c)
                    (df_columns edge_weights)))
              (map fst l)
            = map snd l).
  { induction l as [| col l IH]; intros Hl; [reflexivity |].
    simpl. rewrite (filter_one_column _ col Hnd) by (apply Hl; left; reflexivity).
    simpl. f_equal. apply IH. intros c Hc. apply Hl. right. exact Hc. }
  apply Hsub. trivial.
Qed.

Lemma position_column {A : Type} (cols : list (string * A)) (n : string)
  (a d : A) :
  NoDup (map fst cols) -> In (n, a) cols ->
  exists k,
    position n (map fst cols) = Some k
    /\ nth (Z.to_nat k) (map snd cols) d = a.
Proof.
  induction cols as [| [n' a'] cols IH]; intros Hnd Hin; [contradiction |].
  simpl in Hnd. apply NoDup_cons in Hnd. destruct Hnd as [Hn Hnd].
  simpl. destruct (String.eqb n n') eqn:Heq.
  - apply String.eqb_eq in Heq. subst n'. exists 0. split; [reflexivity |].
    destruct Hin as [Hin | Hin]; [inversion Hin; reflexivity |].
    exfalso. apply Hn. apply list_elem_of_In, in_map_iff.
    exists (n, a). split; [reflexivity | exact Hin].
  - destruct Hin as [Hin | Hin].
    + inversion Hin; subst. rewrite String.eqb_refl in Heq. discriminate.
    + destruct (IH Hnd Hin) as (k & Hk & Hnth).
      destruct (position_contains n (map fst cols)
                  (position_Some_contains _ _ _ Hk)) as (k' & Hk' & Hb).
      rewrite Hk in Hk'. inversion Hk'; subst k'.
      exists (Z.succ k). rewrite Hk. split; [reflexivity |].
      replace (Z.to_nat (Z.succ k)) with (S (Z.to_nat k)) by lia.
      exact Hnth.
Qed.

Section EngineNumbers.

Context `{PyAccess}.

(** [aggregate] with its four names known: the numbers it passes on. *)
Lemma aggregate_numbers (distance : float) (type decay n name : string)
  (s : Network.t * module_state) (agg dec imp_num varnum : Z) :
  AGGREGATIONS !! upper type = Some agg ->
  DECAYS !! upper decay = Some dec ->
  position n (Network.impedance_names (fst s)) = Some imp_num ->
  position name (Network.variable_names (fst s)) = Some varnum ->
  Network.aggregate distance type decay (Some n) name s
  = aggregate_answer distance agg dec imp_num varnum s.
Proof.
  destruct s as [self m]. simpl. intros Hagg Hdec Himp Hvar.
  unfold Network.aggregate, bind, getitem, Network.getattr, gets.
  rewrite Hagg, Hdec. simpl.
  rewrite (position_Some_contains _ _ _ Himp). simpl.
  unfold list_index. rewrite Himp. simpl.
  rewrite (position_Some_contains _ _ _ Hvar). simpl. rewrite Hvar. simpl.
  unfold aggregate_answer, Network.in_module, call_value. simpl.
  destruct (get_all_aggregate_accessibility_variables distance varnum agg dec
              (Network.graph_no self) imp_num (_pyaccess m))
    as [[res e] |]; reflexivity.
Qed.

(** X6: the impedance number [aggregate] passes to the engine addresses
    the weights the constructor passed for that impedance.  Take inputs
    indexed as documented, with weight columns of distinct names, a free
    slot, and a column [n] with the weights [ws].  Then [n] has a position
    [k] among the weight columns such that: in the one call of
    [create_graph] that the constructor makes (when every endpoint of an
    edge is a node id), row [k] of the weights is [ws] cast to [float32];
    and on the network made, over its whole life, [n] is at position [k] of
    the impedance names and [aggregate] for [n] calls
    [get_all_aggregate_accessibility_variables] with the impedance number
    [k], together with the code of the aggregation, the code of the decay
    and the position of the variable name, and makes its result of the
    answer. *)
Theorem impedance_number_matches_weight_row (node_x node_y : Series float)
  (edge_from edge_to : Series Z) (edge_weights : DataFrame) (twoway : bool)
  (m0 : module_state) (n : string) (ws : list float) :
  MAX_NUM_NETWORKS m0 <> 0 ->
  NUM_NETWORKS m0 < MAX_NUM_NETWORKS m0 ->
  well_indexed node_x node_y edge_from edge_to edge_weights ->
  NoDup (columns edge_weights) ->
  In (n, ws) (df_columns edge_weights) ->
  let ids := index node_x in
  let node_idx := combine ids (arange (len ids)) in
  let m1 := set_NUM_NETWORKS (NUM_NETWORKS m0 + 1) m0 in
  let net := made (NUM_NETWORKS m0) node_x node_y edge_from edge_to
               edge_weights in
  let rows :=
    map (map astype_float32)
      (Network.weight_rows (columns edge_weights) edge_weights) in
  exists k : Z,
    position n (columns edge_weights) = Some k
    /\ nth (Z.to_nat k) rows [] = map astype_float32 ws
    /\ Network.__init__ node_x node_y edge_from edge_to edge_weights twoway
         m0
       = match mapM (lookup_id node_idx) (values edge_from),
               mapM (lookup_id node_idx) (values edge_to) with
         | Some froms, Some tos =>
             match create_graph (NUM_NETWORKS m0) (map int32 ids)
                     (map (fun xy : float * float =>
                             (astype_float32 (fst xy),
                              astype_float32 (snd xy)))
                        (combine (values node_x) (values node_y)))
                     (combine (map int32 froms) (map int32 tos))
                     rows twoway (_pyaccess m0) with
             | Some e => (Returned net, set_pyaccess e m1)
             | None => (Raised (ExtensionError "create_graph"), m1)
             end
         | _, _ => (Raised (ValueError "Cannot convert NA to integer"), m1)
         end
    /\ forall (calls : list invocation) (self : Network.t),
         lived net calls self ->
         position n (Network.impedance_names self) = Some k
         /\ forall m distance type decay name agg dec varnum,
              AGGREGATIONS !! upper type = Some agg ->
              DECAYS !! upper decay = Some dec ->
              position name (Network.variable_names self) = Some varnum ->
              Network.aggregate distance type decay (Some n) name (self, m)
              = match get_all_aggregate_accessibility_variables distance
                        varnum agg dec (NUM_NETWORKS m0) k (_pyaccess m)
                with
                | Some (res, e) =>
                    pd_Series res ids (self, set_pyaccess e m)
                | None =>
                    (Raised
                       (ExtensionError
                          "get_all_aggregate_accessibility_variables"),
                     (self, m))
                end.
Proof.
  intros Hz Hlt Hin Hnd Hcol ids node_idx m1 net rows.
  destruct (position_column (df_columns edge_weights) n ws [] Hnd Hcol)
    as (k & Hk & Hrow).
  exists k. split; [exact Hk |]. split; [| split].
  - unfold rows. rewrite (weight_rows_columns _ Hnd).
    change (@nil float32) with (map astype_float32 []).
    rewrite map_nth, Hrow. reflexivity.
  - rewrite init_unfold. apply Z.eqb_neq in Hz. rewrite Hz.
    unfold take_slot. apply Z.ltb_lt in Hlt. rewrite Hlt.
    exact (construct_hands_over (NUM_NETWORKS m0) node_x node_y edge_from
             edge_to edge_weights twoway m1 Hin).
  - intros calls self Hlived.
    destruct (lived_steady net self calls Hlived) as (Hgno & Hidx & Himp & _).
    simpl in Hgno, Hidx, Himp. rewrite Himp. split; [exact Hk |].
    intros m distance type decay name agg dec varnum Hagg Hdec Hvar.
    rewrite (aggregate_numbers distance type decay n name (self, m) agg dec
               k varnum Hagg Hdec)
      by (simpl; try rewrite Himp; assumption).
    unfold aggregate_answer. simpl. rewrite Hgno.
    unfold Network.node_ids. rewrite Hidx. unfold ids.
    rewrite index_numbered. reflexivity.
Qed.

End EngineNumbers.

(** ** The variables of a network *)

Section Variables.

Context `{PyAccess}.

(** The methods other than [set] leave the variable names as they are. *)
Lemma method_keeps_names (i : invocation) (s : Network.t * module_state) :
  match i with Set_ _ _ _ => False | _ => True end ->
  Network.variable_names (fst (invoke i s)) = Network.variable_names (fst s).
Proof.
  intros Hi. set (names := Network.variable_names (fst s)).
  assert (Hs : Network.variable_names (fst s) = names) by reflexivity.
  clearbody names. revert s Hs.
  destruct i; try contradiction; simpl; unfold effect;
    match goal with
    | |- forall s, _ -> Network.variable_names (fst (snd (?c s))) = _ =>
        change (keeps (fun s => Network.variable_names (fst s) = names) c)
    end.
  - unfold Network.precompute. repeat keeps_leaf.
  - unfold Network.aggregate. repeat keeps_leaf.
  - unfold Network.get_node_ids. repeat keeps_leaf.
  - unfold Network.initialize_pois. repeat keeps_leaf.
  - unfold Network.initialize_poi_category. repeat keeps_leaf.
  - unfold Network.compute_nearest_pois. repeat keeps_leaf.
Qed.

(** [set] leaves the variable names as they are or, for a new name, adds
    the name at the end. *)
Lemma set_names (node_ids : Series float) (variable : option (Series float))
  (name : string) (s : Network.t * module_state) :
  let names := Network.variable_names (fst s) in
  let names' :=
    Network.variable_names
      (fst (snd (Network.set node_ids variable name s))) in
  names' = names
  \/ (contains name names = false /\ names' = names ++ [name]).
Proof.
  destruct s as [self m]. simpl. rewrite set_unfold.
  destruct (set_frame node_ids variable name self (self, m))
    as [[df | e] s1]; [| left; reflexivity].
  unfold initialize_rows. simpl.
  destruct (contains name (Network.variable_names self)) eqn:Hknown.
  - left. destruct (position name (Network.variable_names self));
      [destruct (initialize_acc_var _ _ _ _ _) |]; reflexivity.
  - right. split; [reflexivity |].
    destruct (initialize_acc_vars _ _ _); [| reflexivity].
    destruct (position name _); [destruct (initialize_acc_var _ _ _ _ _) |];
      reflexivity.
Qed.

(** Every method call leaves the variable names as they are or adds one new
    name at the end. *)
Lemma invoke_names (i : invocation) (s : Network.t * module_state) :
  let names := Network.variable_names (fst s) in
  let names' := Network.variable_names (fst (invoke i s)) in
  names' = names
  \/ exists name, ~ In name names /\ names' = names ++ [name].
Proof.
  destruct i as [node_ids variable name | | | | | |];
    try (left; apply method_keeps_names; exact I).
  simpl. unfold effect.
  destruct (set_names node_ids variable name s) as [Hsame | [Hnew Happ]].
  - left. exact Hsame.
  - right. exists name. split; [apply contains_not_In; exact Hnew | exact Happ].
Qed.

(** X7: the variables of a network keep their numbers.  Over the life of
    a network made by the constructor its variable names are distinct, and
    a method call only ever adds a name at the end of the list: a name at
    position [k] stays at position [k], the number under which [set] wrote
    its values and under which [aggregate] reads them. *)
Theorem variable_numbers_are_stable (node_x node_y : Series float)
  (edge_from edge_to : Series Z) (edge_weights : DataFrame) (twoway : bool)
  (m0 m1 : module_state) (net self : Network.t) (calls : list invocation) :
  Network.__init__ node_x node_y edge_from edge_to edge_weights twoway m0
  = (Returned net, m1) ->
  lived net calls self ->
  NoDup (Network.variable_names self)
  /\ forall (i : invocation) (m : module_state),
       Network.variable_names self
         `prefix_of` Network.variable_names (fst (invoke i (self, m)))
       /\ forall name k,
            position name (Network.variable_names self) = Some k ->
            position name (Network.variable_names (fst (invoke i (self, m))))
            = Some k.
Proof.
  intros Hinit Hlived.
  destruct (init_spec node_x node_y edge_from edge_to edge_weights twoway m0)
    as (_ & _ & _ & _ & Hnet).
  simpl in Hnet. rewrite Hinit in Hnet.
  destruct (Hnet net eq_refl) as (_ & _ & _ & Hvars & _).
  split.
  - induction Hlived as [| calls self i m Hl IH].
    + rewrite Hvars. constructor.
    + destruct (invoke_names i (self, m)) as [Hsame | (name & Hnew & Happ)];
        simpl in *.
      * rewrite Hsame. exact IH.
      * rewrite Happ. apply NoDup_app. split; [exact IH |].
        split; [| apply NoDup_singleton].
        intros x Hx Hx'. apply list_elem_of_singleton in Hx'. subst x.
        apply Hnew. apply list_elem_of_In. exact Hx.
  - intros i m.
    destruct (invoke_names i (self, m)) as [Hsame | (name & Hnew & Happ)];
      simpl in *.
    + rewrite Hsame. split; [reflexivity | trivial].
    + rewrite Happ. split; [apply prefix_app_r; reflexivity |].
      intros n k Hk. apply position_app. exact Hk.
Qed.

End Variables.

(** ** More on [set] *)


Section MoreSet.

Context `{PyAccess}.

(** X8: when the engine refuses to declare a new variable, [set] raises,
    but the name is registered already: it is in [variable_names], behind
    the names that were there, and only the first timing was printed.  From
    then on the name passes the check of [aggregate], which goes on to the
    engine for a variable the engine never declared. *)
Theorem set_registers_before_declaring (node_ids : Series float)
  (variable : option (Series float)) (name : string)
  (self : Network.t) (m : module_state) :
  NoDup (Network.node_ids self) ->
  (forall v, variable = Some v -> index v = index node_ids) ->
  ~ In name (Network.variable_names self) ->
  initialize_acc_vars (Network.graph_no self)
    (len (Network.variable_names self ++ [name])) (_pyaccess m) = None ->
  let self' :=
    Network.set_variable_names (Network.variable_names self ++ [name]) self in
  let m' := after (_pyaccess m) [Elapsed "up"] m in
  Network.set node_ids variable name (self, m)
  = (Raised (ExtensionError "initialize_acc_vars"), (self', m'))
  /\ forall distance type decay imp_name,
       In (upper type) ["SUM"; "AVE"; "STD"; "COUNT"] ->
       In (upper decay) ["EXP"; "LINEAR"; "FLAT"] ->
       impedance_known imp_name (Network.impedance_names self) ->
       exists agg dec imp_num varnum,
         Network.aggregate distance type decay imp_name name (self', m')
         = aggregate_answer distance agg dec imp_num varnum (self', m').
Proof.
  intros Hnd Hv Hnew Hrefuse self' m'. split.
  - rewrite set_unfold.
    destruct (set_frame_returns node_ids variable name self (self, m) Hnd Hv)
      as (df & -> & _).
    unfold initialize_rows. simpl.
    apply contains_not_In in Hnew. rewrite Hnew, Hrefuse. reflexivity.
  - intros distance type decay imp_name Ha Hd Hi.
    destruct (aggregate_recognized distance type decay imp_name name
                (self', m') Ha Hd)
      as (agg & dec & imp_num & varnum & _ & _ & Heq).
    + exact Hi.
    + simpl. apply in_or_app. right. left. reflexivity.
    + eauto.
Qed.


End MoreSet.

(** ** More on [aggregate] *)

Lemma upper_ascii_idempotent (c : ascii) :
  upper_ascii (upper_ascii c) = upper_ascii c.
Proof.
  destruct c as [[] [] [] [] [] [] [] []]; vm_compute; reflexivity.
Qed.

Lemma upper_idempotent (s : string) : upper (upper s) = upper s.
Proof.
  induction s as [| c s IH]; [reflexivity |].
  simpl. rewrite upper_ascii_idempotent, IH. reflexivity.
Qed.

Section MoreAggregate.

Context `{PyAccess}.

(** X10: [aggregate] reads the aggregation and the decay without regard
    to case.  Two spellings that are equal once in upper case give the same
    call, outcome and state alike; so each name may be given in upper case,
    as the keys of the two tables are, or in lower case, as the docstring
    writes them. *)
Theorem aggregate_ignores_case (distance : float)
  (type type' decay decay' : string) (imp_name : option string)
  (name : string) (s : Network.t * module_state) :
  upper type = upper type' ->
  upper decay = upper decay' ->
  Network.aggregate distance type decay imp_name name s
  = Network.aggregate distance type' decay' imp_name name s
  /\ Network.aggregate distance type decay imp_name name s
     = Network.aggregate distance (upper type) (upper decay) imp_name name s.
Proof.
  intros Ht Hd. unfold Network.aggregate.
  rewrite !upper_idempotent, Ht, Hd. split; reflexivity.
Qed.

(** X11: the impedance left out.  On a network with exactly one impedance
    [aggregate] without an impedance name does what it does with the name
    of that impedance.  On a network with none or with several, and with a
    known aggregation and decay, it raises the assertion error that asks for
    the name, and changes nothing. *)
Theorem aggregate_default_impedance (distance : float) (type decay : string)
  (name : string) (self : Network.t) (m : module_state) :
  (forall n, Network.impedance_names self = [n] ->
     Network.aggregate distance type decay None name (self, m)
     = Network.aggregate distance type decay (Some n) name (self, m))
  /\ (length (Network.impedance_names self) <> 1%nat ->
      In (upper type) ["SUM"; "AVE"; "STD"; "COUNT"] ->
      In (upper decay) ["EXP"; "LINEAR"; "FLAT"] ->
      Network.aggregate distance type decay None name (self, m)
      = (Raised
           (AssertionError
              "must pass impedance name if there are multiple impedances set"),
         (self, m))).
Proof.
  split.
  - intros n Hn.
    unfold Network.aggregate, bind, getitem, Network.getattr, gets.
    destruct (AGGREGATIONS !! upper type) as [agg |]; [| reflexivity].
    destruct (DECAYS !! upper decay) as [dec |]; [| reflexivity].
    simpl. rewrite Hn. reflexivity.
  - intros Hlen Ha Hd.
    destruct (AGGREGATIONS !! upper type) as [agg |] eqn:Hagg;
      [| apply AGGREGATIONS_keys in Hagg; contradiction].
    destruct (DECAYS !! upper decay) as [dec |] eqn:Hdec;
      [| apply DECAYS_keys in Hdec; contradiction].
    unfold Network.aggregate, bind, getitem, Network.getattr, gets.
    rewrite Hagg, Hdec. simpl.
    assert (Hone : (len (Network.impedance_names self) =? 1) = false)
      by (apply Z.eqb_neq; unfold len; lia).
    rewrite Hone. reflexivity.
Qed.

End MoreAggregate.

(** ** What the queries leave alone *)

Lemma set_pyaccess_same `{PyAccess} (m : module_state) :
  m = set_pyaccess (_pyaccess m) m.
Proof. destruct m. reflexivity. Qed.

Section Queries.

Context `{PyAccess}.

(** The object is [self] and the module is [m] but for its engine. *)
Definition only_engine (self : Network.t) (m : module_state)
  (s : Network.t * module_state) : Prop :=
  fst s = self /\ exists e, snd s = set_pyaccess e m.

Lemma keeps_engine_call (self self0 : Network.t) (m0 : module_state)
  (fn : string) (f : engine -> option engine) :
  keeps (fun m => only_engine self0 m0 (self, m)) (call fn f).
Proof.
  intros m [Hself (e & He)]. unfold call.
  destruct (f (_pyaccess m)) as [e' |]; simpl.
  - split; [exact Hself |]. exists e'. simpl in He. rewrite He. reflexivity.
  - split; [exact Hself |]. exists e. exact He.
Qed.

Lemma keeps_engine_call_value {A : Type} (self self0 : Network.t)
  (m0 : module_state) (fn : string) (f : engine -> option (A * engine)) :
  keeps (fun m => only_engine self0 m0 (self, m)) (call_value fn f).
Proof.
  intros m [Hself (e & He)]. unfold call_value.
  destruct (f (_pyaccess m)) as [[a e'] |]; simpl.
  - split; [exact Hself |]. exists e'. simpl in He. rewrite He. reflexivity.
  - split; [exact Hself |]. exists e. exact He.
Qed.

(** X12: [precompute], [aggregate], [get_node_ids], [initialize_pois] and
    [compute_nearest_pois] change nothing but the state of the engine,
    whether they return or raise: the network object, the two globals of
    the module and what was printed are as before the call. *)
Theorem queries_change_only_engine (i : invocation) (self : Network.t)
  (m : module_state) :
  match i with
  | Set_ _ _ _ | InitializePoiCategory _ _ _ => False
  | _ => True
  end ->
  exists e, invoke i (self, m) = (self, set_pyaccess e m).
Proof.
  intros Hi.
  assert (Hstart : only_engine self m (self, m)).
  { split; [reflexivity |]. exists (_pyaccess m). apply set_pyaccess_same. }
  assert (Hkeep : only_engine self m (invoke i (self, m))).
  { destruct i; try contradiction; simpl; unfold effect;
      match goal with
      | |- only_engine _ _ (snd (?c _)) =>
          refine ((_ : keeps (only_engine self m) c) _ Hstart)
      end.
    - unfold Network.precompute.
      repeat first
        [ apply keeps_in_module; intros ?; apply keeps_engine_call
        | keeps_leaf ].
    - unfold Network.aggregate.
      repeat first
        [ apply keeps_in_module; intros ?; apply keeps_engine_call_value
        | keeps_leaf ].
    - unfold Network.get_node_ids. repeat keeps_leaf.
    - unfold Network.initialize_pois.
      repeat first
        [ apply keeps_in_module; intros ?; apply keeps_engine_call
        | keeps_leaf ].
    - unfold Network.compute_nearest_pois.
      repeat first
        [ apply keeps_in_module; intros ?; apply keeps_engine_call_value
        | keeps_leaf ]. }
  destruct Hkeep as [Hself (e & He)]. exists e.
  destruct (invoke i (self, m)) as [self' m']. simpl in *. congruence.
Qed.

End Queries.

(** ** More on [get_node_ids] *)

Lemma sublist_map {A B : Type} (f : A -> B) (l k : list A) :
  l `sublist_of` k -> map f l `sublist_of` map f k.
Proof.
  induction 1 as [| x l k Hs IH | x l k Hs IH]; simpl.
  - constructor.
  - apply sublist_skip. exact IH.
  - apply sublist_cons. exact IH.
Qed.

Lemma In_frame {A B : Type} (a : Series A) (b : Series B) (label : Z)
  (x : A) (y : B) :
  index a = index b ->
  In (label, (x, y)) (combine (index a) (combine (values a) (values b))) ->
  In (label, x) a /\ In (label, y) b.
Proof.
  unfold index, values. revert b.
  induction a as [| [la xa] a IH]; intros [| [lb yb] b] Hi Hin;
    simpl in *; try contradiction; try discriminate.
  inversion Hi; subst. destruct Hin as [Hin | Hin].
  - inversion Hin; subst. split; left; reflexivity.
  - destruct (IH b ltac:(assumption) Hin) as [Ha Hb].
    split; right; assumption.
Qed.

Lemma loc_In {A : Type} (s : Series (option A)) (label : Z) (v : A) :
  loc s label = Some v -> In (label, Some v) s.
Proof.
  unfold loc.
  destruct (filter (fun row : Z * option A => fst row = label) s)
    as [| [l x] more] eqn:Hf; [discriminate |].
  simpl. intros ->.
  assert (Hin : (l, Some v) ∈ filter (fun row : Z * option A =>
                                        fst row = label) s)
    by (rewrite Hf; left).
  apply list_elem_of_filter in Hin. destruct Hin as [Hl Hin].
  simpl in Hl. subst l. apply list_elem_of_In. exact Hin.
Qed.

(** A complete row of the frame of two series has its two values in the
    two series, under its label. *)
Lemma DataFrame2_complete_row {S A B : Type} (a : Series (option A))
  (b : Series (option B)) (s s' : S) (df : Series (option A * option B))
  (label : Z) (x : A) (y : B) :
  DataFrame2 a b s = (Returned df, s') ->
  In (label, (Some x, Some y)) df ->
  In (label, Some x) a /\ In (label, Some y) b.
Proof.
  unfold DataFrame2. destruct (decide (index a = index b)) as [Hi | Hi].
  - intros Hd Hin. inversion Hd; subst.
    exact (In_frame a b label _ _ Hi Hin).
  - destruct (bool_decide (NoDup (index a)) && bool_decide (NoDup (index b)));
      intros Hd Hin; inversion Hd; subst.
    apply in_map_iff in Hin. destruct Hin as (l & Hrow & _).
    injection Hrow as Hl Hx Hy. subst l.
    split; [exact (loc_In a label x Hx) | exact (loc_In b label y Hy)].
Qed.

Section MoreNodeIds.

Context `{PyAccess}.

(** X13: whatever the engine answers, a series that [get_node_ids]
    returns holds no [-1]: a point the engine answers with [-1] is left
    out.  Every row of the series stands for a point of the input: its
    label is a label of [x_col] and of [y_col] under which both have a
    coordinate.  For two columns with one index, the labels of the series
    are labels of the input in their order.  The call changes no state. *)
Theorem get_node_ids_leaves_out_sentinel (x_col y_col : Series float)
  (mapping_distance : float) (s s' : Network.t * module_state)
  (result : Series Z) :
  Network.get_node_ids x_col y_col mapping_distance s = (Returned result, s') ->
  s' = s
  /\ (forall label node,
        In (label, node) result ->
        node <> -1
        /\ exists x y, In (label, Some x) x_col /\ In (label, Some y) y_col)
  /\ (index x_col = index y_col ->
      index result `sublist_of` index x_col).
Proof.
  unfold Network.get_node_ids. intros Hg.
  apply bind_returned in Hg. destruct Hg as (df & s1 & Hdf & Hg).
  destruct (DataFrame2_returned _ _ _ _ _ Hdf) as (-> & Haligned).
  apply bind_returned in Hg. destruct Hg as (gno & s1 & Hgno & Hg).
  inversion Hgno; subst gno s1. clear Hgno.
  apply bind_returned in Hg. destruct Hg as (m & s1 & Hm & Hg).
  inversion Hm; subst m s1. clear Hm.
  apply bind_returned in Hg. destruct Hg as (ids & s1 & Hids & Hg).
  assert (Hs1 : s1 = s).
  { destruct (xy_to_node _ mapping_distance _ _); inversion Hids.
    reflexivity. }
  subst s1. clear Hids.
  apply bind_returned in Hg. destruct Hg as (series & s1 & Hser & Hg).
  unfold pd_Series in Hser.
  destruct (length ids =? length (index (dropna df)))%nat eqn:Hlen;
    [| discriminate].
  apply Nat.eqb_eq in Hlen. inversion Hser; subst series s1. clear Hser.
  inversion Hg; subst. clear Hg.
  split; [reflexivity |]. split.
  - intros label node Hin. apply list_elem_of_In in Hin.
    apply list_elem_of_filter in Hin. destruct Hin as [Hne Hin].
    split; [exact Hne |].
    apply list_elem_of_In, in_combine_l in Hin.
    apply in_map_iff in Hin. destruct Hin as ([label' [x y]] & Hl & Hrow).
    simpl in Hl. subst label'. apply list_elem_of_In in Hrow.
    unfold dropna in Hrow. apply list_elem_of_filter in Hrow.
    destruct Hrow as [Hnn Hrow]. apply list_elem_of_In in Hrow.
    destruct x as [x |], y as [y |]; simpl in Hnn; try discriminate.
    exists x, y. exact (DataFrame2_complete_row _ _ _ _ _ _ _ _ Hdf Hrow).
  - intros Hxy. rewrite (Haligned Hxy).
    set (frame := combine (index x_col)
                    (combine (values x_col) (values y_col))).
    transitivity (index (combine (index (dropna frame)) ids)).
    + apply sublist_map, sublist_filter.
    + rewrite index_combine by (symmetry; rewrite (Haligned Hxy) in Hlen;
                                exact Hlen).
      transitivity (index frame).
      * apply sublist_map. unfold dropna. apply sublist_filter.
      * unfold frame. rewrite (index_frame x_col y_col Hxy). reflexivity.
Qed.

End MoreNodeIds.

(** * [from_networkx] *)

(** The part of a networkx graph [G] that [from_networkx] reads.  [node]
    is the dict [G.node] with its entries in the order in which
    [G.nodes_iter()] goes through its keys; [edges] are the edges in the
    order of [G.edges_iter()], each with the attributes that
    [G.get_edge_data] gives for it.  Of a dict of attributes only the entry
    ['data'] is kept, [None] when there is none.  The [data] of a node has
    the attributes [id], [lat] and [lon], where [id] is the integer that
    [int] makes of the attribute; the [data] of an edge has the list [nds]
    of node keys. *)
Module Networkx.

Record Node : Type := { id : Z; lat : float; lon : float }.

Record Way : Type := { nds : list Z }.

Record Graph : Type := {
  node : list (Z * option Node);
  edges : list ((Z * Z) * option Way)
}.

(** The exceptions of [from_networkx]: [KeyError: 'data'] for attributes
    without that entry, [KeyError: key] for a key that [G.node] does not
    have, and [IndexError] for a position past the end of [nds]. *)
Inductive error : Type :=
| MissingData
| MissingNode (key : Z)
| IndexError.

Definition and_then {A B : Type} (r : error + A) (k : A -> error + B)
  : error + B :=
  match r with
  | inl e => inl e
  | inr a => k a
  end.

(** A [for] loop that appends one item per element and stops at the first
    exception. *)
Fixpoint for_each {A B : Type} (body : A -> error + B) (l : list A)
  : error + list B :=
  match l with
  | [] => inr []
  | a :: rest =>
      and_then (body a) (fun b =>
      and_then (for_each body rest) (fun bs => inr (b :: bs)))
  end.

(** [attributes['data']]. *)
Definition data {A : Type} (attributes : option A) : error + A :=
  match attributes with
  | Some d => inr d
  | None => inl MissingData
  end.

(** [d[key]] for a dict given by its entries. *)
Fixpoint item {A : Type} (d : list (Z * A)) (key : Z) : option A :=
  match d with
  | [] => None
  | (k, a) :: rest => if decide (k = key) then Some a else item rest key
  end.

(** [G.node[key]['data']]. *)
Definition node_data (G : Graph) (key : Z) : error + Node :=
  match item (node G) key with
  | None => inl (MissingNode key)
  | Some attributes => data attributes
  end.

(** [e.nds[k]]. *)
Definition nd (e : Way) (k : nat) : error + Z :=
  match nth_error (nds e) k with
  | Some key => inr key
  | None => inl IndexError
  end.

(** The body of the loop over the edges: the row that it appends to
    [froms], [tos] and [weights]. *)
Definition edge_row (G : Graph) (e : (Z * Z) * option Way)
  : error + (Z * Z * float) :=
  and_then (data (snd e)) (fun e =>
  and_then (nd e 0) (fun k0 =>
  and_then (node_data G k0) (fun n0 =>
  and_then (nd e 1) (fun k1 =>
  and_then (node_data G k1) (fun n1 =>
  inr (id n0, id n1, Some 1)))))).

(** [from_networkx].  A frame is the list of its rows, each under its
    label: a row of [nodes] is [(x, y)] and a row of [edges] is
    [(from, to, weight)]. *)
Definition from_networkx (G : Graph)
  : error + (Series (float * float) * Series (Z * Z * float)) :=
  and_then (for_each (fun n => data (snd n)) (node G)) (fun ns =>
  let nids := map id ns in
  let lats := map lat ns in
  let lons := map lon ns in
  let nodes := combine nids (combine lons lats) in
  and_then (for_each (edge_row G) (edges G)) (fun rows =>
  let edges := combine (arange (len rows)) rows in
  inr (nodes, edges))).

(** [df[name]] for a frame of rows, [pick] reading the column off a row. *)
Definition column {R A : Type} (pick : R -> A) (df : Series R) : Series A :=
  map (fun row => (fst row, pick (snd row))) df.

(** [edges[["weight"]]]. *)
Definition weight_frame (edges : Series (Z * Z * float)) : DataFrame :=
  {| df_index := index edges;
     df_columns := [("weight", map snd (values edges))] |}.

End Networkx.

Section FromNetworkx.

Import Networkx.

Lemma for_each_returned {A B : Type} (body : A -> error + B) (l : list A)
  (bs : list B) :
  for_each body l = inr bs <-> Forall2 (fun a b => body a = inr b) l bs.
Proof.
  revert bs. induction l as [| a l IH]; intros bs; simpl.
  - split.
    + intros Hr. inversion Hr. constructor.
    + intros Hf. inversion Hf. reflexivity.
  - split.
    + destruct (body a) as [e | b] eqn:Ha; simpl; [discriminate |].
      destruct (for_each body l) as [e | bs'] eqn:Hl; simpl; [discriminate |].
      intros Hr. inversion Hr; subst. constructor; [exact Ha |].
      apply IH. reflexivity.
    + intros Hf. inversion Hf as [| a' b l' bs' Ha Hrest]; subst.
      rewrite Ha. simpl. apply IH in Hrest. rewrite Hrest. reflexivity.
Qed.

Lemma for_each_raised {A B : Type} (body : A -> error + B) (l : list A)
  (e : error) :
  for_each body l = inl e <->
  exists before a after,
    l = before ++ a :: after
    /\ body a = inl e
    /\ forall a', In a' before -> exists b, body a' = inr b.
Proof.
  induction l as [| a l IH]; simpl.
  - split; [discriminate |].
    intros (before & a & after & Hl & _). destruct before; discriminate.
  - split.
    + destruct (body a) as [e' | b] eqn:Ha; simpl.
      * intros Hr. inversion Hr; subst. exists [], a, l.
        split; [reflexivity |]. split; [exact Ha |]. intros a' [].
      * destruct (for_each body l) as [e' | bs] eqn:Hl; simpl;
          [| discriminate].
        intros Hr. inversion Hr; subst.
        destruct (proj1 IH eq_refl) as (before & a0 & after & -> & Ha0 & Hb).
        exists (a :: before), a0, after. split; [reflexivity |].
        split; [exact Ha0 |]. intros a' [<- | Hin]; [eauto |].
        apply Hb. exact Hin.
    + intros (before & a0 & after & Hl & Ha0 & Hb).
      destruct before as [| a1 before]; simpl in Hl; inversion Hl; subst.
      * rewrite Ha0. reflexivity.
      * destruct (Hb a1 (or_introl eq_refl)) as (b & ->). simpl.
        assert (Hrest : for_each body (before ++ a0 :: after) = inl e).
        { apply IH. exists before, a0, after. split; [reflexivity |].
          split; [exact Ha0 |]. intros a' Hin. apply Hb. right. exact Hin. }
        rewrite Hrest. reflexivity.
Qed.

Lemma for_each_length {A B : Type} (body : A -> error + B) (l : list A)
  (bs : list B) :
  for_each body l = inr bs -> length bs = length l.
Proof.
  intros Hr. apply for_each_returned in Hr. symmetry.
  exact (Forall2_length _ _ _ Hr).
Qed.

Lemma for_each_In {A B : Type} (body : A -> error + B) (l : list A)
  (bs : list B) (b : B) :
  for_each body l = inr bs -> In b bs -> exists a, In a l /\ body a = inr b.
Proof.
  intros Hr. apply for_each_returned in Hr.
  induction Hr as [| a b' l bs Ha Hrest IH]; intros Hin; [destruct Hin |].
  destruct Hin as [<- | Hin].
  - exists a. split; [left; reflexivity | exact Ha].
  - destruct (IH Hin) as (a' & Hin' & Ha'). exists a'.
    split; [right; exact Hin' | exact Ha'].
Qed.

Lemma for_each_total {A B : Type} (body : A -> error + B) (l : list A) :
  (forall a, In a l -> exists b, body a = inr b) ->
  exists bs, for_each body l = inr bs.
Proof.
  induction l as [| a l IH]; intros Hall; simpl; [eauto |].
  destruct (Hall a (or_introl eq_refl)) as (b & ->). simpl.
  destruct IH as (bs & ->); [intros a' Hin; apply Hall; right; exact Hin |].
  simpl. eauto.
Qed.

Lemma for_each_all {A B : Type} (body : A -> error + B) (l : list A)
  (bs : list B) :
  for_each body l = inr bs -> forall a, In a l -> exists b, body a = inr b.
Proof.
  intros Hr. apply for_each_returned in Hr.
  induction Hr as [| a b l bs Ha Hrest IH]; intros a' Hin; [destruct Hin |].
  destruct Hin as [<- | Hin]; [eauto | apply IH; exact Hin].
Qed.

Lemma for_each_image {A B : Type} (body : A -> error + B) (l : list A)
  (bs : list B) (a : A) (b : B) :
  for_each body l = inr bs -> In a l -> body a = inr b -> In b bs.
Proof.
  intros Hr. apply for_each_returned in Hr.
  induction Hr as [| a' b' l bs Ha Hrest IH]; intros Hin Hb; [destruct Hin |].
  destruct Hin as [-> | Hin].
  - left. congruence.
  - right. apply IH; assumption.
Qed.

Lemma item_In {A : Type} (d : list (Z * A)) (key : Z) (a : A) :
  item d key = Some a -> In (key, a) d.
Proof.
  induction d as [| [k a'] d IH]; simpl; [discriminate |].
  destruct (decide (k = key)) as [-> | Hne].
  - intros Hi. inversion Hi; subst. left. reflexivity.
  - intros Hi. right. apply IH. exact Hi.
Qed.

Lemma item_None {A : Type} (d : list (Z * A)) (key : Z) :
  item d key = None <-> ~ In key (map fst d).
Proof.
  induction d as [| [k a'] d IH]; simpl; [tauto |].
  destruct (decide (k = key)) as [-> | Hne].
  - split; [discriminate | tauto].
  - rewrite IH. tauto.
Qed.

(** What [G.node[key]['data']] gives is the data of a node of [G]. *)
Lemma node_data_In (G : Graph) (key : Z) (n : Node) :
  node_data G key = inr n -> In (key, Some n) (node G).
Proof.
  unfold node_data. destruct (item (node G) key) as [[d |] |] eqn:Hi;
    simpl; try discriminate.
  intros Hn. inversion Hn; subst. apply item_In. exact Hi.
Qed.

Lemma edge_row_returned (G : Graph) (e : (Z * Z) * option Way)
  (row : Z * Z * float) :
  edge_row G e = inr row <->
  exists way k0 k1 rest n0 n1,
    snd e = Some way
    /\ nds way = k0 :: k1 :: rest
    /\ node_data G k0 = inr n0
    /\ node_data G k1 = inr n1
    /\ row = (id n0, id n1, Some 1).
Proof.
  unfold edge_row, nd. destruct e as [uv [[ks] |]]; simpl.
  - destruct ks as [| k0 [| k1 rest]]; simpl.
    + split; [discriminate |].
      intros (way & k0 & k1 & rest & n0 & n1 & Hw & Hn & _).
      inversion Hw; subst. discriminate.
    + split.
      * destruct (node_data G k0); discriminate.
      * intros (way & k0' & k1 & rest & n0 & n1 & Hw & Hn & _).
        inversion Hw; subst. discriminate.
    + split.
      * destruct (node_data G k0) as [e0 | n0] eqn:H0; simpl;
          [discriminate |].
        destruct (node_data G k1) as [e1 | n1] eqn:H1; simpl;
          [discriminate |].
        intros Hr. inversion Hr; subst.
        exists {| nds := k0 :: k1 :: rest |}, k0, k1, rest, n0, n1.
        repeat split; assumption.
      * intros (way & k0' & k1' & rest' & n0 & n1 & Hw & Hn & H0 & H1 & ->).
        inversion Hw; subst. simpl in Hn. inversion Hn; subst.
        rewrite H0. simpl. rewrite H1. reflexivity.
  - split; [discriminate |].
    intros (way & k0 & k1 & rest & n0 & n1 & Hw & _). discriminate.
Qed.

Lemma from_networkx_returned (G : Graph) (nodes : Series (float * float))
  (edges' : Series (Z * Z * float)) :
  from_networkx G = inr (nodes, edges') <->
  exists ns rows,
    for_each (fun n => data (snd n)) (node G) = inr ns
    /\ for_each (edge_row G) (edges G) = inr rows
    /\ nodes = combine (map id ns) (combine (map lon ns) (map lat ns))
    /\ edges' = combine (arange (len rows)) rows.
Proof.
  unfold from_networkx.
  destruct (for_each (fun n => data (snd n)) (node G)) as [e | ns]; simpl.
  - split; [discriminate | intros (? & ? & ? & _); discriminate].
  - destruct (for_each (edge_row G) (edges G)) as [e | rows]; simpl.
    + split; [discriminate | intros (? & ? & _ & ? & _); discriminate].
    + split.
      * intros Hr. inversion Hr; subst. exists ns, rows. auto.
      * intros (ns' & rows' & Hn & Hr & -> & ->).
        inversion Hn; inversion Hr; subst. reflexivity.
Qed.

Lemma data_returned {A : Type} (attributes : option A) (d : A) :
  data attributes = inr d <-> attributes = Some d.
Proof.
  destruct attributes; simpl; split; intros Hd; inversion Hd; reflexivity.
Qed.

(** X14: the frames that [from_networkx] returns.  [nodes] has one row
    per node of the graph, in the order of the iteration, under the [id] of
    the node's data, with [lon] as [x] and [lat] as [y]; the key under
    which the graph holds the node is not used.  [edges] has one row per
    edge, labelled [0, 1, 2, ...], with weight [1]; its endpoints are the
    ids of the nodes that the first two entries of [nds] name, whatever
    comes after them in [nds] and whatever nodes the graph itself puts the
    edge between. *)
Theorem from_networkx_frames (G : Graph) (nodes : Series (float * float))
  (edges' : Series (Z * Z * float)) :
  from_networkx G = inr (nodes, edges') ->
  Forall2 (fun entry row =>
             exists n, snd entry = Some n
                       /\ row = (id n, (lon n, lat n)))
    (node G) nodes
  /\ index edges' = arange (len (edges G))
  /\ Forall2 (fun e row =>
                exists way k0 k1 rest n0 n1,
                  snd e = Some way
                  /\ nds way = k0 :: k1 :: rest
                  /\ In (k0, Some n0) (node G)
                  /\ In (k1, Some n1) (node G)
                  /\ row = (id n0, id n1, Some 1))
       (edges G) (values edges').
Proof.
  intros Hr. apply from_networkx_returned in Hr.
  destruct Hr as (ns & rows & Hn & He & -> & ->).
  assert (Hlen : length (arange (len rows)) = length rows)
    by apply length_arange_len.
  split; [| split].
  - apply for_each_returned in Hn. clear He Hlen.
    induction Hn as [| [key attributes] n entries ns Hd Hrest IH]; simpl;
      constructor; [| exact IH].
    exists n. split; [apply data_returned; exact Hd | reflexivity].
  - rewrite index_combine by exact Hlen.
    unfold len. rewrite (for_each_length _ _ _ He). reflexivity.
  - rewrite values_combine by exact Hlen.
    apply for_each_returned in He. clear Hlen Hn.
    induction He as [| e row es rows Hrow Hrest IH]; constructor;
      [| exact IH].
    apply edge_row_returned in Hrow.
    destruct Hrow as (way & k0 & k1 & rest & n0 & n1 & Hw & Hnds & H0 & H1
                      & ->).
    exists way, k0, k1, rest, n0, n1.
    repeat split; try assumption; apply node_data_In; assumption.
Qed.

(** X15: when [from_networkx] returns and when it raises.  It returns
    exactly when every node has a ['data'] and every edge has a ['data']
    whose [nds] starts with two keys of nodes of the graph.  A node without
    ['data'] makes it raise [KeyError: 'data'], whatever the edges are: the
    nodes are read first. *)
Theorem from_networkx_returns_iff (G : Graph) :
  ((exists frames, from_networkx G = inr frames) <->
   (forall entry, In entry (node G) -> snd entry <> None)
   /\ (forall e, In e (edges G) ->
         exists way k0 k1 rest n0 n1,
           snd e = Some way
           /\ nds way = k0 :: k1 :: rest
           /\ node_data G k0 = inr n0
           /\ node_data G k1 = inr n1))
  /\ ((exists key, In (key, None) (node G)) ->
      from_networkx G = inl MissingData).
Proof.
  split; [split |].
  - intros ([nodes edges'] & Hr). apply from_networkx_returned in Hr.
    destruct Hr as (ns & rows & Hn & He & _). split.
    + intros entry Hin.
      destruct (for_each_all _ _ _ Hn entry Hin) as (n & Hd).
      apply data_returned in Hd. rewrite Hd. discriminate.
    + intros e Hin. destruct (for_each_all _ _ _ He e Hin) as (row & Hrow).
      apply edge_row_returned in Hrow.
      destruct Hrow as (way & k0 & k1 & rest & n0 & n1 & Hw & Hnds & H0 & H1
                        & _).
      exists way, k0, k1, rest, n0, n1. auto.
  - intros [Hnodes Hedges].
    destruct (for_each_total (fun n => data (snd n)) (node G)) as (ns & Hn).
    { intros entry Hin. specialize (Hnodes entry Hin).
      destruct (snd entry) as [n |]; [| contradiction]. exists n.
      reflexivity. }
    destruct (for_each_total (edge_row G) (edges G)) as (rows & He).
    { intros e Hin.
      destruct (Hedges e Hin) as (way & k0 & k1 & rest & n0 & n1 & Hw & Hnds
                                  & H0 & H1).
      exists (id n0, id n1, Some 1). apply edge_row_returned.
      exists way, k0, k1, rest, n0, n1. auto. }
    eexists. apply from_networkx_returned. exists ns, rows. auto.
  - intros (key & Hin). unfold from_networkx.
    destruct (for_each (fun n => data (snd n)) (node G)) as [e | ns] eqn:Hn;
      simpl.
    + apply for_each_raised in Hn.
      destruct Hn as (before & [k attributes] & after & _ & Hd & _).
      destruct attributes; simpl in Hd; inversion Hd. reflexivity.
    + destruct (for_each_all _ _ _ Hn _ Hin) as (n & Hd). discriminate.
Qed.

(** X16: what the other two exceptions of [from_networkx] tell.
    [IndexError] is raised only for an edge whose [nds] has fewer than two
    entries, and [KeyError: key] only for a [key] that is among the first
    two entries of the [nds] of an edge and is no node of the graph.  In
    both cases every node of the graph has a ['data']. *)
Theorem from_networkx_dangling_edge (G : Graph) (e : error) :
  from_networkx G = inl e ->
  e <> MissingData ->
  (forall entry, In entry (node G) -> snd entry <> None)
  /\ exists uv way,
       In (uv, Some way) (edges G)
       /\ match e with
          | IndexError => (length (nds way) < 2)%nat
          | MissingNode key =>
              ~ In key (map fst (node G))
              /\ (nth_error (nds way) 0 = Some key
                  \/ nth_error (nds way) 1 = Some key)
          | MissingData => False
          end.
Proof.
  unfold from_networkx. intros Hr Hne.
  destruct (for_each (fun n => data (snd n)) (node G)) as [e0 | ns] eqn:Hn;
    simpl in Hr.
  { inversion Hr; subst. apply for_each_raised in Hn.
    destruct Hn as (before & [k attributes] & after & _ & Hd & _).
    destruct attributes; simpl in Hd; inversion Hd. congruence. }
  split.
  { intros entry Hin. destruct (for_each_all _ _ _ Hn entry Hin) as (n & Hd).
    apply data_returned in Hd. rewrite Hd. discriminate. }
  destruct (for_each (edge_row G) (edges G)) as [e1 | rows] eqn:He;
    simpl in Hr; [| discriminate].
  inversion Hr; subst. apply for_each_raised in He.
  destruct He as (before & [uv attributes] & after & Hl & Hrow & _).
  assert (Hkey : forall key key', node_data G key = inl (MissingNode key') ->
                                  key' = key /\ ~ In key (map fst (node G))).
  { intros key key' Hk. unfold node_data in Hk.
    destruct (item (node G) key) as [attributes' |] eqn:Hi.
    - destruct attributes'; discriminate.
    - inversion Hk; subst. split; [reflexivity |]. apply item_None.
      exact Hi. }
  assert (Hidx : forall key, node_data G key <> inl IndexError).
  { intros key Hk. unfold node_data in Hk.
    destruct (item (node G) key) as [[n |] |]; discriminate. }
  unfold edge_row, nd in Hrow. destruct attributes as [[ks] |]; simpl in Hrow;
    [| inversion Hrow; congruence].
  exists uv, {| nds := ks |}. split.
  { rewrite Hl. apply in_or_app. right. left. reflexivity. }
  simpl. destruct ks as [| k0 [| k1 rest]]; simpl in Hrow.
  - inversion Hrow; subst. simpl. lia.
  - destruct (node_data G k0) as [e0 | n0] eqn:H0; simpl in Hrow.
    + inversion Hrow; subst. destruct e as [| key |].
      * congruence.
      * destruct (Hkey _ _ H0) as [-> Hout]. split; [exact Hout |].
        left. reflexivity.
      * exfalso. exact (Hidx _ H0).
    + inversion Hrow; subst. simpl. lia.
  - destruct (node_data G k0) as [e0 | n0] eqn:H0; simpl in Hrow.
    + inversion Hrow; subst. destruct e as [| key |].
      * congruence.
      * destruct (Hkey _ _ H0) as [-> Hout]. split; [exact Hout |].
        left. reflexivity.
      * exfalso. exact (Hidx _ H0).
    + destruct (node_data G k1) as [e1 | n1] eqn:H1; simpl in Hrow;
        [| discriminate].
      inversion Hrow; subst. destruct e as [| key |].
      * congruence.
      * destruct (Hkey _ _ H1) as [-> Hout]. split; [exact Hout |].
        right. reflexivity.
      * exfalso. exact (Hidx _ H1).
Qed.

Lemma index_column {R A : Type} (pick : R -> A) (df : Series R) :
  index (column pick df) = index df.
Proof.
  unfold index, column. rewrite map_map. reflexivity.
Qed.

(** Both endpoints of a row of [edges] are labels of [nodes]. *)
Lemma from_networkx_endpoints (G : Graph) (nodes : Series (float * float))
  (edges' : Series (Z * Z * float)) (label from to : Z) (weight : float) :
  from_networkx G = inr (nodes, edges') ->
  In (label, (from, to, weight)) edges' ->
  In from (index nodes) /\ In to (index nodes).
Proof.
  intros Hr Hin. apply from_networkx_returned in Hr.
  destruct Hr as (ns & rows & Hn & He & -> & ->).
  apply in_combine_r in Hin.
  destruct (for_each_In _ _ _ _ He Hin) as (e & _ & Hrow).
  apply edge_row_returned in Hrow.
  destruct Hrow as (way & k0 & k1 & rest & n0 & n1 & _ & _ & H0 & H1 & Hrow).
  inversion Hrow; subst.
  rewrite index_combine
    by (rewrite length_combine, !length_map; lia).
  assert (Hid : forall key n, node_data G key = inr n -> In (id n) (map id ns)).
  { intros key n Hk. apply in_map.
    apply (for_each_image _ _ _ (key, Some n) n Hn);
      [apply node_data_In; exact Hk | reflexivity]. }
  split; eapply Hid; eassumption.
Qed.

(** X17: the frames of [from_networkx] are input for the constructor of
    [Network].  When the nodes of the graph have distinct ids, the columns
    [x] and [y] of [nodes] and [from], [to] and [weight] of [edges] are
    indexed as the constructor expects, with the one impedance ["weight"],
    and both endpoints of every edge are ids of [nodes]: the constructor
    finds a dense index for each of them. *)
Theorem from_networkx_feeds_constructor (G : Graph)
  (nodes : Series (float * float)) (edges' : Series (Z * Z * float)) :
  from_networkx G = inr (nodes, edges') ->
  NoDup (index nodes) ->
  let node_idx := combine (index nodes) (arange (len (index nodes))) in
  well_indexed (column fst nodes) (column snd nodes)
    (column (fun row => fst (fst row)) edges')
    (column (fun row => snd (fst row)) edges')
    (weight_frame edges')
  /\ columns (weight_frame edges') = ["weight"]
  /\ forall label from to weight,
       In (label, (from, to, weight)) edges' ->
       (exists k, lookup_id node_idx from = Some k)
       /\ (exists k, lookup_id node_idx to = Some k).
Proof.
  intros Hr Hnd node_idx.
  split; [| split].
  - unfold well_indexed. rewrite !index_column.
    repeat split; try reflexivity.
    + exact Hnd.
    + pose proof Hr as Hrows. apply from_networkx_returned in Hrows.
      destruct Hrows as (ns & rows & _ & _ & _ & ->).
      rewrite index_combine by apply length_arange_len.
      apply arange_NoDup.
    + constructor; [| constructor]. simpl.
      unfold index, values. rewrite !length_map. reflexivity.
  - reflexivity.
  - intros label from to weight Hin.
    destruct (from_networkx_endpoints G nodes edges' label from to weight
                Hr Hin) as [Hfrom Hto].
    unfold node_idx.
    split; apply lookup_id_found; rewrite index_numbered; assumption.
Qed.

End FromNetworkx.

(** * Further properties on the example *)

(** The module with one slot reserved and no network yet. *)
Definition path_reserved : @module_state Sim.pyaccess :=
  @Build_module_state Sim.pyaccess 1 0 None
    {| Sim.capacity := 1; Sim.graphs := [] |} [].

(** The module imported anew while the engine still holds the path: the
    globals are back at [0], the engine is not. *)
Definition path_reimported : @module_state Sim.pyaccess :=
  @on_import Sim.pyaccess path_engine.

(** The stand-in engine without room for variables: as [Sim.pyaccess], but
    [initialize_acc_vars] is refused. *)
Definition no_variables : PyAccess :=
  {| engine := Sim.state;
     create_graphs := Sim.reserve;
     create_graph := @create_graph Sim.pyaccess;
     initialize_acc_vars := fun _ _ _ => None;
     initialize_acc_var := fun _ _ _ _ e => Some e;
     precompute_range := fun _ _ e => Some e;
     get_all_aggregate_accessibility_variables :=
       fun _ _ _ _ gno _ => Sim.aggregate gno;
     xy_to_node := Sim.nearest;
     initialize_pois := fun _ _ _ e => Some e;
     initialize_category := fun _ _ e => Some e;
     find_all_nearest_pois := fun _ _ e => Some ([], e) |}.

(** The path as a networkx graph of OSM data.  The graph holds the nodes
    under the keys 1 to 4, their ids are 10 to 40; the second way goes on
    to a node that the graph does not have. *)
Definition path_osm : Networkx.Graph :=
  {| Networkx.node :=
       [(1, Some {| Networkx.id := 10; Networkx.lat := Some 0;
                    Networkx.lon := Some 0 |});
        (2, Some {| Networkx.id := 20; Networkx.lat := Some 0;
                    Networkx.lon := Some 1 |});
        (3, Some {| Networkx.id := 30; Networkx.lat := Some 0;
                    Networkx.lon := Some 2 |});
        (4, Some {| Networkx.id := 40; Networkx.lat := Some 0;
                    Networkx.lon := Some 3 |})];
     Networkx.edges :=
       [((1, 2), Some {| Networkx.nds := [1; 2] |});
        ((2, 3), Some {| Networkx.nds := [2; 3; 99] |});
        ((3, 4), Some {| Networkx.nds := [3; 4] |})] |}.

Definition path_osm_nodes : Series (float * float) :=
  [(10, (Some 0, Some 0)); (20, (Some 1, Some 0));
   (30, (Some 2, Some 0)); (40, (Some 3, Some 0))].

Definition path_osm_edges : Series (Z * Z * float) :=
  [(0, (10, 20, Some 1)); (1, (20, 30, Some 1)); (2, (30, 40, Some 1))].

(** The same graph with a way that starts at a node the graph does not
    have. *)
Definition dangling_osm : Networkx.Graph :=
  {| Networkx.node := Networkx.node path_osm;
     Networkx.edges :=
       Networkx.edges path_osm ++ [((4, 5), Some {| Networkx.nds := [4; 5] |})]
  |}.

Example path_from_networkx :
  Networkx.from_networkx path_osm = inr (path_osm_nodes, path_osm_edges)
  /\ Networkx.column fst path_osm_nodes = path_x
  /\ Networkx.column snd path_osm_nodes = path_y
  /\ Networkx.column (fun row => fst (fst row)) path_osm_edges = path_from
  /\ Networkx.column (fun row => snd (fst row)) path_osm_edges = path_to
  /\ Network.weight_rows ["weight"] (Networkx.weight_frame path_osm_edges)
     = Network.weight_rows ["dist"] path_weights.
Proof. vm_compute. repeat split. Qed.

Example dangling_from_networkx :
  Networkx.from_networkx dangling_osm = inl (Networkx.MissingNode 5).
Proof. vm_compute. reflexivity. Qed.

Lemma reserve_num_graphs_refused_witness :
  @reserve_num_graphs Sim.pyaccess 2 path_reimported
  = (Raised (ExtensionError "create_graphs"),
     set_MAX_NUM_NETWORKS 2 path_reimported).
Proof.
  exact (proj1 (@reserve_num_graphs_refused Sim.pyaccess 2 path_reimported
                  eq_refl eq_refl eq_refl)).
Defined.

Lemma construction_takes_slot_witness :
  NUM_NETWORKS
    (snd (@Network.__init__ Sim.pyaccess path_x path_y path_from path_to
            path_weights true path_reserved)) = 0 + 1.
Proof.
  refine (proj1 (@construction_takes_slot Sim.pyaccess path_x path_y
                   path_from path_to path_weights true path_reserved _ _)).
  - discriminate.
  - reflexivity.
Defined.

Lemma node_indexes_round_trip_witness :
  _node_indexes (combine [10; 20; 30; 40] (arange 4))
    (combine [0; 1; 2; 3] (map Some [10; 20; 30; 40]))
  = combine [0; 1; 2; 3] (map Some (arange 4)).
Proof.
  refine (proj1 (node_indexes_round_trip [10; 20; 30; 40] [0; 1; 2; 3] _)).
  apply (bool_decide_unpack _). vm_compute. exact I.
Defined.

Lemma constructor_hands_over_graph_witness :
  @Network.__init__ Sim.pyaccess path_x path_y path_from path_to path_weights
    true path_reserved
  = (Returned path_net, path_module).
Proof.
  rewrite (proj1 (@constructor_hands_over_graph Sim.pyaccess path_x path_y
                    path_from path_to path_weights true path_reserved
                    ltac:(discriminate) eq_refl path_well_indexed)).
  vm_compute. reflexivity.
Defined.

Lemma impedance_number_matches_weight_row_witness :
  exists k : Z,
    position "dist" (columns path_weights) = Some k
    /\ nth (Z.to_nat k)
         (map (map astype_float32)
            (Network.weight_rows (columns path_weights) path_weights)) []
       = [Finite32 1; Finite32 1; Finite32 1].
Proof.
  destruct (@impedance_number_matches_weight_row Sim.pyaccess path_x path_y
              path_from path_to path_weights true path_reserved "dist"
              [Some 1; Some 1; Some 1])
    as (k & Hk & Hrow & _).
  - discriminate.
  - reflexivity.
  - exact path_well_indexed.
  - apply (bool_decide_unpack _). vm_compute. exact I.
  - left. reflexivity.
  - exists k. split; assumption.
Defined.

Lemma variable_numbers_are_stable_witness :
  NoDup (Network.variable_names path_net_pop).
Proof.
  refine (proj1 (@variable_numbers_are_stable Sim.pyaccess path_x path_y
                   path_from path_to path_weights true
                   (@on_import Sim.pyaccess Sim.empty) path_module
                   path_net path_net_pop [path_set] path_constructed _)).
  exact (lived_call path_net [] path_net path_set path_module
           (lived_new path_net)).
Defined.

Lemma set_registers_before_declaring_witness :
  @Network.set no_variables pop_ids (Some pop_values) "pop"
    (path_net, @Build_module_state no_variables 1 1 None path_engine [])
  = (Raised (ExtensionError "initialize_acc_vars"),
     (Network.set_variable_names ["pop"] path_net,
      @Build_module_state no_variables 1 1 None path_engine [Elapsed "up"])).
Proof.
  refine (proj1 (@set_registers_before_declaring no_variables pop_ids
                   (Some pop_values) "pop" path_net
                   (@Build_module_state no_variables 1 1 None path_engine [])
                   _ _ _ _)).
  - apply (bool_decide_unpack _). vm_compute. exact I.
  - intros v Hv. inversion Hv. reflexivity.
  - intros [].
  - reflexivity.
Defined.

Lemma aggregate_ignores_case_witness :
  @Network.aggregate Sim.pyaccess (Some 2) "sum" "flat" None "pop"
    (path_net_pop, path_module)
  = @Network.aggregate Sim.pyaccess (Some 2) "SUM" "Flat" None "pop"
      (path_net_pop, path_module).
Proof.
  exact (proj1 (@aggregate_ignores_case Sim.pyaccess (Some 2) "sum" "SUM"
                  "flat" "Flat" None "pop" (path_net_pop, path_module)
                  eq_refl eq_refl)).
Defined.

Lemma queries_change_only_engine_witness :
  exists e,
    @invoke Sim.pyaccess (Aggregate (Some 2) "sum" "flat" None "pop")
      (path_net_pop, path_module)
    = (path_net_pop, set_pyaccess e path_module).
Proof.
  exact (@queries_change_only_engine Sim.pyaccess
           (Aggregate (Some 2) "sum" "flat" None "pop") path_net_pop
           path_module I).
Defined.

Lemma get_node_ids_leaves_out_sentinel_witness :
  1 <> -1
  /\ exists x y, In (7, Some x) query_x /\ In (7, Some y) query_y.
Proof.
  refine (proj1 (proj2
            (@get_node_ids_leaves_out_sentinel Sim.pyaccess query_x query_y
               (Some 3) (path_net, path_module) (path_net, path_module)
               [(7, 1)] _)) 7 1 _).
  - vm_compute. reflexivity.
  - left. reflexivity.
Defined.

Lemma from_networkx_frames_witness :
  index path_osm_edges = arange (len (Networkx.edges path_osm)).
Proof.
  refine (proj1 (proj2
            (from_networkx_frames path_osm path_osm_nodes path_osm_edges _))).
  vm_compute. reflexivity.
Defined.

Lemma from_networkx_dangling_edge_witness :
  exists uv way,
    In (uv, Some way) (Networkx.edges dangling_osm)
    /\ ~ In 5 (map fst (Networkx.node dangling_osm))
    /\ (nth_error (Networkx.nds way) 0 = Some 5
        \/ nth_error (Networkx.nds way) 1 = Some 5).
Proof.
  refine (proj2 (from_networkx_dangling_edge dangling_osm
                   (Networkx.MissingNode 5) _ _)).
  - vm_compute. reflexivity.
  - discriminate.
Defined.

Lemma from_networkx_feeds_constructor_witness :
  well_indexed (Networkx.column fst path_osm_nodes)
    (Networkx.column snd path_osm_nodes)
    (Networkx.column (fun row => fst (fst row)) path_osm_edges)
    (Networkx.column (fun row => snd (fst row)) path_osm_edges)
    (Networkx.weight_frame path_osm_edges).
Proof.
  refine (proj1 (from_networkx_feeds_constructor path_osm path_osm_nodes
                   path_osm_edges _ _)).
  - vm_compute. reflexivity.
  - apply (bool_decide_unpack _). vm_compute. exact I.
Defined.
